(** * IPv6 neighbor discovery engine (src/ndisc/nm-ndisc.c)

    A shallow embedding of the state engine of [nm-ndisc.c]: the five
    learned-item arrays with their merge procedures, the address completer,
    the router-solicitation pacer, the expiry sweeper and the public entry
    points, followed by the properties of the engine.

    Conventions.
    - C integers are [Z]; every conversion or operation that can wrap is
      written with [to_guint32], [to_gint32], [to_guint64], [to_gint64].
    - A [GArray] is a [list]; [g_array_index] is the list lookup [arr !! i],
      [g_array_remove_index] is [delete i arr], an assignment through the
      element pointer is [<[i:=x]> arr].
    - A GLib source id ([guint], 0 when no source is pending) is an
      [option Z]: [None] for 0 and [Some secs] for a pending source that was
      armed with [g_timeout_add_seconds (secs, ...)].
    - Signals emitted and transport methods invoked are appended to the
      ghost field [trace] of the private structure.
    - What the environment decides (the monotonic clock, whether the network
      namespace could be entered, the result of the transport's [send_rs])
      is an argument of the function that asks for it.  Logging is not
      modelled. *)

From Stdlib Require Import ZArith Lia Bool Ascii.
From stdpp Require Import base list strings.

Local Open Scope Z_scope.

Ltac split4 := split; [| split; [| split]].
Ltac split_ands := repeat match goal with |- _ /\ _ => split end.

(** ** Machine integers *)

Definition wrap_unsigned (bits z : Z) : Z := z mod 2 ^ bits.

Definition wrap_signed (bits z : Z) : Z :=
  (z + 2 ^ (bits - 1)) mod 2 ^ bits - 2 ^ (bits - 1).

Definition to_guint32 : Z -> Z := wrap_unsigned 32.
Definition to_guint64 : Z -> Z := wrap_unsigned 64.
Definition to_gint32 : Z -> Z := wrap_signed 32.
Definition to_gint64 : Z -> Z := wrap_signed 64.

Definition G_MAXUINT32 : Z := 4294967295.
Definition G_MAXINT32 : Z := 2147483647.
Definition G_MININT32 : Z := -2147483648.
Definition G_MAXINT : Z := 2147483647.

(** GLib's [MAX (a, b)] is [((a) > (b)) ? (a) : (b)]. *)
Definition MAX (a b : Z) : Z := if a >? b then a else b.

(** GLib's [CLAMP (x, low, high)] is
    [((x) > (high)) ? (high) : (((x) < (low)) ? (low) : (x))]. *)
Definition CLAMP (x low high : Z) : Z :=
  if x >? high then high else if x <? low then low else x.

(** ** Data model (nm-ndisc.h) *)

(** [struct in6_addr], seen through its member [s6_addr32[4]]. *)
Record in6_addr := {
  s6_addr32_0 : Z;
  s6_addr32_1 : Z;
  s6_addr32_2 : Z;
  s6_addr32_3 : Z
}.

Definition IN6_ARE_ADDR_EQUAL (a b : in6_addr) : bool :=
  (s6_addr32_0 a =? s6_addr32_0 b) && (s6_addr32_1 a =? s6_addr32_1 b) &&
  (s6_addr32_2 a =? s6_addr32_2 b) && (s6_addr32_3 a =? s6_addr32_3 b).

(** [NMUtilsIPv6IfaceId] is a union of [guint64 id] and [guint8 id_u8[8]].
    It is kept as the two 32-bit halves of its eight bytes, in memory order,
    so that copying it over bytes 8..15 of an address does not depend on the
    byte order of the machine.  [id] is zero exactly when both halves are,
    and two [id]s are equal exactly when both halves are. *)
Record NMUtilsIPv6IfaceId := {
  id_lo32 : Z;
  id_hi32 : Z
}.

Definition iid_id_is_zero (iid : NMUtilsIPv6IfaceId) : bool :=
  (id_lo32 iid =? 0) && (id_hi32 iid =? 0).

Definition iid_id_eqb (a b : NMUtilsIPv6IfaceId) : bool :=
  (id_lo32 a =? id_lo32 b) && (id_hi32 a =? id_hi32 b).

(** Modelled from the spec: [nm_utils_ipv6_addr_set_interface_identifier]
    (nm-core-utils.c, not part of the sources at hand) overlays the
    interface identifier on the low 64 bits of the address. *)
Definition nm_utils_ipv6_addr_set_interface_identifier
    (addr : in6_addr) (iid : NMUtilsIPv6IfaceId) : in6_addr :=
  {| s6_addr32_0 := s6_addr32_0 addr;
     s6_addr32_1 := s6_addr32_1 addr;
     s6_addr32_2 := id_lo32 iid;
     s6_addr32_3 := id_hi32 iid |}.

Record NMNDiscGateway := {
  gw_address : in6_addr;
  gw_timestamp : Z;
  gw_lifetime : Z;
  gw_preference : Z
}.

Record NMNDiscAddress := {
  addr_address : in6_addr;
  addr_dad_counter : Z;
  addr_timestamp : Z;
  addr_lifetime : Z;
  addr_preferred : Z
}.

Record NMNDiscRoute := {
  rt_network : in6_addr;
  rt_plen : Z;
  rt_gateway : in6_addr;
  rt_timestamp : Z;
  rt_lifetime : Z;
  rt_preference : Z
}.

Record NMNDiscDNSServer := {
  dns_address : in6_addr;
  dns_timestamp : Z;
  dns_lifetime : Z
}.

(** [domain] is a [char *]; [None] is the null pointer, which [g_strcmp0]
    accepts. *)
Record NMNDiscDNSDomain := {
  dom_domain : option string;
  dom_timestamp : Z;
  dom_lifetime : Z
}.

Definition g_strcmp0_equal (a b : option string) : bool := bool_decide (a = b).

(** Modelled from the spec: the bits of [NMNDiscConfigMap] (nm-ndisc.h, not
    part of the sources at hand), in the order of the letters [d G A R S D]
    of [config_map_to_string]. *)
Definition NM_NDISC_CONFIG_DHCP_LEVEL : Z := Z.shiftl 1 0.
Definition NM_NDISC_CONFIG_GATEWAYS : Z := Z.shiftl 1 1.
Definition NM_NDISC_CONFIG_ADDRESSES : Z := Z.shiftl 1 2.
Definition NM_NDISC_CONFIG_ROUTES : Z := Z.shiftl 1 3.
Definition NM_NDISC_CONFIG_DNS_SERVERS : Z := Z.shiftl 1 4.
Definition NM_NDISC_CONFIG_DNS_DOMAINS : Z := Z.shiftl 1 5.

Inductive NMSettingIP6ConfigAddrGenMode :=
| NM_SETTING_IP6_CONFIG_ADDR_GEN_MODE_EUI64
| NM_SETTING_IP6_CONFIG_ADDR_GEN_MODE_STABLE_PRIVACY.

Record NMNDiscDataInternal := {
  gateways : list NMNDiscGateway;
  addresses : list NMNDiscAddress;
  routes : list NMNDiscRoute;
  dns_servers : list NMNDiscDNSServer;
  dns_domains : list NMNDiscDNSDomain
}.

(** Result of the transport's [send_rs (ndisc, &error)]. *)
Inductive send_rs_result :=
| SendRsOk
| SendRsError (message : string).

(** What the engine does to the outside: the two signals, and the two
    methods of the transport class. *)
Inductive event :=
| CONFIG_CHANGED (data : NMNDiscDataInternal) (changed : Z)
| RA_TIMEOUT
| KLASS_SEND_RS (result : send_rs_result)
| KLASS_START.

(** [struct _NMNDiscPrivate], without the platform and namespace handles. *)
Record NMNDiscPrivate := {
  rdata : NMNDiscDataInternal;
  solicitations_left : Z;
  send_rs_id : option Z;
  last_rs : Z;
  ra_timeout_id : option Z;
  timeout_id : option Z;
  last_send_rs_error : option string;
  iid : NMUtilsIPv6IfaceId;
  ifname : string;
  network_id : string;
  addr_gen_mode : NMSettingIP6ConfigAddrGenMode;
  stable_type : Z;
  max_addresses : Z;
  router_solicitations : Z;
  router_solicitation_interval : Z;
  trace : list event
}.

(** ** Field updates *)

Definition set_addr_address (a : in6_addr) (x : NMNDiscAddress) : NMNDiscAddress :=
  {| addr_address := a;
     addr_dad_counter := addr_dad_counter x;
     addr_timestamp := addr_timestamp x;
     addr_lifetime := addr_lifetime x;
     addr_preferred := addr_preferred x |}.

Definition set_addr_dad_counter (c : Z) (x : NMNDiscAddress) : NMNDiscAddress :=
  {| addr_address := addr_address x;
     addr_dad_counter := c;
     addr_timestamp := addr_timestamp x;
     addr_lifetime := addr_lifetime x;
     addr_preferred := addr_preferred x |}.

Definition set_dom_times (timestamp lifetime : Z) (x : NMNDiscDNSDomain) : NMNDiscDNSDomain :=
  {| dom_domain := dom_domain x;
     dom_timestamp := timestamp;
     dom_lifetime := lifetime |}.

Definition set_rdata (d : NMNDiscDataInternal) (p : NMNDiscPrivate) : NMNDiscPrivate :=
  {| rdata := d;
     solicitations_left := solicitations_left p;
     send_rs_id := send_rs_id p;
     last_rs := last_rs p;
     ra_timeout_id := ra_timeout_id p;
     timeout_id := timeout_id p;
     last_send_rs_error := last_send_rs_error p;
     iid := iid p;
     ifname := ifname p;
     network_id := network_id p;
     addr_gen_mode := addr_gen_mode p;
     stable_type := stable_type p;
     max_addresses := max_addresses p;
     router_solicitations := router_solicitations p;
     router_solicitation_interval := router_solicitation_interval p;
     trace := trace p |}.

Definition get_gateways (p : NMNDiscPrivate) := gateways (rdata p).
Definition get_addresses (p : NMNDiscPrivate) := addresses (rdata p).
Definition get_routes (p : NMNDiscPrivate) := routes (rdata p).
Definition get_dns_servers (p : NMNDiscPrivate) := dns_servers (rdata p).
Definition get_dns_domains (p : NMNDiscPrivate) := dns_domains (rdata p).

Definition set_gateways (l : list NMNDiscGateway) (p : NMNDiscPrivate) : NMNDiscPrivate :=
  set_rdata {| gateways := l;
               addresses := addresses (rdata p);
               routes := routes (rdata p);
               dns_servers := dns_servers (rdata p);
               dns_domains := dns_domains (rdata p) |} p.

Definition set_addresses (l : list NMNDiscAddress) (p : NMNDiscPrivate) : NMNDiscPrivate :=
  set_rdata {| gateways := gateways (rdata p);
               addresses := l;
               routes := routes (rdata p);
               dns_servers := dns_servers (rdata p);
               dns_domains := dns_domains (rdata p) |} p.

Definition set_routes (l : list NMNDiscRoute) (p : NMNDiscPrivate) : NMNDiscPrivate :=
  set_rdata {| gateways := gateways (rdata p);
               addresses := addresses (rdata p);
               routes := l;
               dns_servers := dns_servers (rdata p);
               dns_domains := dns_domains (rdata p) |} p.

Definition set_dns_servers (l : list NMNDiscDNSServer) (p : NMNDiscPrivate) : NMNDiscPrivate :=
  set_rdata {| gateways := gateways (rdata p);
               addresses := addresses (rdata p);
               routes := routes (rdata p);
               dns_servers := l;
               dns_domains := dns_domains (rdata p) |} p.

Definition set_dns_domains (l : list NMNDiscDNSDomain) (p : NMNDiscPrivate) : NMNDiscPrivate :=
  set_rdata {| gateways := gateways (rdata p);
               addresses := addresses (rdata p);
               routes := routes (rdata p);
               dns_servers := dns_servers (rdata p);
               dns_domains := l |} p.

(** The fields of the pacer and the timers, updated together:
    [solicitations_left], [send_rs_id], [last_rs], [last_send_rs_error]. *)
Definition set_pacer (left : Z) (id : option Z) (last : Z) (err : option string)
    (p : NMNDiscPrivate) : NMNDiscPrivate :=
  {| rdata := rdata p;
     solicitations_left := left;
     send_rs_id := id;
     last_rs := last;
     ra_timeout_id := ra_timeout_id p;
     timeout_id := timeout_id p;
     last_send_rs_error := err;
     iid := iid p;
     ifname := ifname p;
     network_id := network_id p;
     addr_gen_mode := addr_gen_mode p;
     stable_type := stable_type p;
     max_addresses := max_addresses p;
     router_solicitations := router_solicitations p;
     router_solicitation_interval := router_solicitation_interval p;
     trace := trace p |}.

Definition set_solicitations_left (left : Z) (p : NMNDiscPrivate) :=
  set_pacer left (send_rs_id p) (last_rs p) (last_send_rs_error p) p.
Definition set_send_rs_id (id : option Z) (p : NMNDiscPrivate) :=
  set_pacer (solicitations_left p) id (last_rs p) (last_send_rs_error p) p.
Definition set_last_rs (last : Z) (p : NMNDiscPrivate) :=
  set_pacer (solicitations_left p) (send_rs_id p) last (last_send_rs_error p) p.
Definition set_last_send_rs_error (err : option string) (p : NMNDiscPrivate) :=
  set_pacer (solicitations_left p) (send_rs_id p) (last_rs p) err p.

Definition set_ra_timeout_id (id : option Z) (p : NMNDiscPrivate) : NMNDiscPrivate :=
  {| rdata := rdata p;
     solicitations_left := solicitations_left p;
     send_rs_id := send_rs_id p;
     last_rs := last_rs p;
     ra_timeout_id := id;
     timeout_id := timeout_id p;
     last_send_rs_error := last_send_rs_error p;
     iid := iid p;
     ifname := ifname p;
     network_id := network_id p;
     addr_gen_mode := addr_gen_mode p;
     stable_type := stable_type p;
     max_addresses := max_addresses p;
     router_solicitations := router_solicitations p;
     router_solicitation_interval := router_solicitation_interval p;
     trace := trace p |}.

Definition set_timeout_id (id : option Z) (p : NMNDiscPrivate) : NMNDiscPrivate :=
  {| rdata := rdata p;
     solicitations_left := solicitations_left p;
     send_rs_id := send_rs_id p;
     last_rs := last_rs p;
     ra_timeout_id := ra_timeout_id p;
     timeout_id := id;
     last_send_rs_error := last_send_rs_error p;
     iid := iid p;
     ifname := ifname p;
     network_id := network_id p;
     addr_gen_mode := addr_gen_mode p;
     stable_type := stable_type p;
     max_addresses := max_addresses p;
     router_solicitations := router_solicitations p;
     router_solicitation_interval := router_solicitation_interval p;
     trace := trace p |}.

Definition set_iid (i : NMUtilsIPv6IfaceId) (p : NMNDiscPrivate) : NMNDiscPrivate :=
  {| rdata := rdata p;
     solicitations_left := solicitations_left p;
     send_rs_id := send_rs_id p;
     last_rs := last_rs p;
     ra_timeout_id := ra_timeout_id p;
     timeout_id := timeout_id p;
     last_send_rs_error := last_send_rs_error p;
     iid := i;
     ifname := ifname p;
     network_id := network_id p;
     addr_gen_mode := addr_gen_mode p;
     stable_type := stable_type p;
     max_addresses := max_addresses p;
     router_solicitations := router_solicitations p;
     router_solicitation_interval := router_solicitation_interval p;
     trace := trace p |}.

(** Appends one event to the ghost trace. *)
Definition emit (e : event) (p : NMNDiscPrivate) : NMNDiscPrivate :=
  {| rdata := rdata p;
     solicitations_left := solicitations_left p;
     send_rs_id := send_rs_id p;
     last_rs := last_rs p;
     ra_timeout_id := ra_timeout_id p;
     timeout_id := timeout_id p;
     last_send_rs_error := last_send_rs_error p;
     iid := iid p;
     ifname := ifname p;
     network_id := network_id p;
     addr_gen_mode := addr_gen_mode p;
     stable_type := stable_type p;
     max_addresses := max_addresses p;
     router_solicitations := router_solicitations p;
     router_solicitation_interval := router_solicitation_interval p;
     trace := trace p ++ [e] |}.

(** [_emit_config_change]: the signal carries the view that
    [_data_complete] builds of the five arrays. *)
Definition _emit_config_change (p : NMNDiscPrivate) (changed : Z) : NMNDiscPrivate :=
  emit (CONFIG_CHANGED (rdata p) changed) p.

(** ** GArray *)

(** [g_array_insert_val (arr, i, v)].  The engine only ever inserts at
    [i <= len]; beyond the end GLib would grow the array over a gap, which
    [take]/[drop] do not do. *)
Definition g_array_insert_val {T : Type} (arr : list T) (i : nat) (v : T) : list T :=
  take i arr ++ v :: drop i arr.

(** ** Learned-item store: the preference-ordered arrays

    [nm_ndisc_add_gateway] and [nm_ndisc_add_route] run the same loop over
    their arrays; it is written once, over the three things that differ:
    the identity test, the accessors, and the expression that turns
    [insert_idx] into the position handed to [g_array_insert_val]
    ([MAX (insert_idx, 0)] for gateways, [CLAMP (insert_idx, 0, G_MAXINT)]
    for routes).

    The loop [for (i = 0; i < arr->len; i++)] is a recursion on [fuel], one
    unit per iteration, that looks up [arr !! i]; it ends when the lookup
    fails, that is when [i >= len].  [g_array_remove_index (arr, i--)]
    followed by [continue] (and then the [i++] of the loop header) leaves [i]
    where it is.  The callers give [length arr] units of fuel, which is
    enough: every iteration either moves [i] forward or shortens the array. *)

Section PreferenceOrdered.
Context {T : Type}.
Variable same_identity : T -> T -> bool.
Variable lifetime : T -> Z.
Variable preference : T -> Z.
Variable position : Z -> Z.

(** The two statements after the loop. *)
Definition add_after_loop (new : T) (arr : list T) (insert_idx : Z) : list T * bool :=
  let arr := if negb (lifetime new =? 0)
             then g_array_insert_val arr (Z.to_nat (position insert_idx)) new
             else arr in
  (arr, negb (lifetime new =? 0)).

Fixpoint add_loop (fuel : nat) (new : T) (arr : list T) (i : nat) (insert_idx : Z)
    {struct fuel} : list T * bool :=
  match fuel with
  | O => add_after_loop new arr insert_idx
  | S fuel =>
      match arr !! i with
      | None => add_after_loop new arr insert_idx
      | Some item =>
          if same_identity item new then
            if lifetime new =? 0 then (delete i arr, true)
            else if negb (preference item =? preference new)
                 then add_loop fuel new (delete i arr) i insert_idx
                 else (<[i:=new]> arr, false)
          else
            (* Put before less preferable items. *)
            let insert_idx :=
              if (preference item <? preference new) && (insert_idx <? 0)
              then Z.of_nat i else insert_idx in
            add_loop fuel new arr (S i) insert_idx
      end
  end.

Definition add_by_preference (new : T) (arr : list T) : list T * bool :=
  add_loop (length arr) new arr 0%nat (-1).
End PreferenceOrdered.

Definition gateway_same_identity (item new : NMNDiscGateway) : bool :=
  IN6_ARE_ADDR_EQUAL (gw_address item) (gw_address new).

Definition nm_ndisc_add_gateway (priv : NMNDiscPrivate) (new : NMNDiscGateway)
    : NMNDiscPrivate * bool :=
  let '(arr, changed) :=
    add_by_preference gateway_same_identity gw_lifetime gw_preference
      (fun insert_idx => MAX insert_idx 0) new (get_gateways priv) in
  (set_gateways arr priv, changed).

Definition route_same_identity (item new : NMNDiscRoute) : bool :=
  IN6_ARE_ADDR_EQUAL (rt_network item) (rt_network new) && (rt_plen item =? rt_plen new).

(** [g_return_val_if_reached (FALSE)] for a prefix length of 0 or above 128. *)
Definition nm_ndisc_add_route (priv : NMNDiscPrivate) (new : NMNDiscRoute)
    : NMNDiscPrivate * bool :=
  if (rt_plen new =? 0) || (rt_plen new >? 128) then (priv, false)
  else
    let '(arr, changed) :=
      add_by_preference route_same_identity rt_lifetime rt_preference
        (fun insert_idx => CLAMP insert_idx 0 G_MAXINT) new (get_routes priv) in
    (set_routes arr priv, changed).

(** ** Learned-item store: DNS servers and domains

    These loops return at the first item with the identity of [new] and
    change nothing before it, so they are [list_find], the first index and
    item that pass the test; after a loop that found nothing [i] is the
    length of the array. *)

Definition nm_ndisc_add_dns_server (priv : NMNDiscPrivate) (new : NMNDiscDNSServer)
    : NMNDiscPrivate * bool :=
  let arr := get_dns_servers priv in
  match list_find (fun item => IN6_ARE_ADDR_EQUAL (dns_address item) (dns_address new) = true) arr with
  | Some (i, item) =>
      if dns_lifetime new =? 0 then (set_dns_servers (delete i arr) priv, true)
      else if negb (dns_timestamp item =? dns_timestamp new)
              || negb (dns_lifetime item =? dns_lifetime new)
           then (set_dns_servers (<[i:=new]> arr) priv, true)
           else (priv, false)
  | None =>
      let i := length arr in
      let priv := if negb (dns_lifetime new =? 0)
                  then set_dns_servers (g_array_insert_val arr i new) priv
                  else priv in
      (priv, negb (dns_lifetime new =? 0))
  end.

(** The inserted item gets a copy ([g_strdup]) of the domain string, which
    is the same value. *)
Definition nm_ndisc_add_dns_domain (priv : NMNDiscPrivate) (new : NMNDiscDNSDomain)
    : NMNDiscPrivate * bool :=
  let arr := get_dns_domains priv in
  match list_find (fun item => g_strcmp0_equal (dom_domain item) (dom_domain new) = true) arr with
  | Some (i, item) =>
      if dom_lifetime new =? 0 then (set_dns_domains (delete i arr) priv, true)
      else
        let changed := negb (dom_timestamp item =? dom_timestamp new)
                       || negb (dom_lifetime item =? dom_lifetime new) in
        let priv := if changed
                    then set_dns_domains
                           (<[i:=set_dom_times (dom_timestamp new) (dom_lifetime new) item]> arr) priv
                    else priv in
        (priv, changed)
  | None =>
      let i := length arr in
      let priv := if negb (dom_lifetime new =? 0)
                  then set_dns_domains (g_array_insert_val arr i new) priv
                  else priv in
      (priv, negb (dom_lifetime new =? 0))
  end.

(** ** Solicitation pacer *)

(** [send_rs_timeout], the callback of the source [send_rs_id].  [netns_ok]
    is the result of [nm_ndisc_netns_push], [result] that of the transport's
    [send_rs], [clock] the reading of [nm_utils_get_monotonic_timestamp_s]. *)
Definition send_rs_timeout (priv : NMNDiscPrivate)
    (netns_ok : bool) (result : send_rs_result) (clock : Z) : NMNDiscPrivate :=
  let priv := set_send_rs_id None priv in
  if negb netns_ok then priv
  else
    let priv := emit (KLASS_SEND_RS result) priv in
    let priv :=
      match result with
      | SendRsOk =>
          let priv := set_solicitations_left (to_gint32 (solicitations_left priv - 1)) priv in
          set_last_send_rs_error None priv
      | SendRsError message =>
          let different_message :=
            negb (g_strcmp0_equal (last_send_rs_error priv) (Some message)) in
          if different_message then set_last_send_rs_error (Some message) priv else priv
      end in
    let priv := set_last_rs clock priv in
    if solicitations_left priv >? 0
    then set_send_rs_id (Some (to_guint32 (router_solicitation_interval priv))) priv
    else priv.

Definition solicit (priv : NMNDiscPrivate) (clock : Z) : NMNDiscPrivate :=
  match send_rs_id priv with
  | Some _ => priv
  | None =>
      let now := clock in
      let priv := set_solicitations_left (router_solicitations priv) priv in
      let next := to_gint64 (to_gint64 (last_rs priv + router_solicitation_interval priv) - now) in
      let next := CLAMP next 0 G_MAXINT32 in
      set_send_rs_id (Some (to_guint32 next)) priv
  end.

(** One firing of the send timer, as the environment decides it. *)
Record send_tick := {
  tick_netns_ok : bool;
  tick_result : send_rs_result;
  tick_clock : Z
}.

(** A burst of router solicitations: the send timer fires once per tick for
    as long as it is pending; the burst is over when no source is pending. *)
Fixpoint rs_burst (ticks : list send_tick) (priv : NMNDiscPrivate) : NMNDiscPrivate :=
  match ticks with
  | [] => priv
  | t :: ticks =>
      match send_rs_id priv with
      | None => priv
      | Some _ =>
          rs_burst ticks (send_rs_timeout priv (tick_netns_ok t) (tick_result t) (tick_clock t))
      end
  end.

Definition is_send_rs (e : event) : bool :=
  match e with KLASS_SEND_RS _ => true | _ => false end.

Definition is_send_rs_ok (e : event) : bool :=
  match e with KLASS_SEND_RS SendRsOk => true | _ => false end.

Definition is_send_rs_error (e : event) : bool :=
  match e with KLASS_SEND_RS (SendRsError _) => true | _ => false end.

Definition count_events (f : event -> bool) (tr : list event) : Z :=
  Z.of_nat (length (filter (fun e => f e = true) tr)).

Definition result_is_error (r : send_rs_result) : bool :=
  match r with SendRsOk => false | SendRsError _ => true end.

(** The ticks at which the transport reports an error. *)
Definition count_error_ticks (ticks : list send_tick) : Z :=
  Z.of_nat (length (filter (fun t => result_is_error (tick_result t) = true) ticks)).

(** ** Expiry sweeper

    The five [clean_*] functions are two loops: the one of gateways,
    addresses and routes, and the one of DNS servers and domains, which also
    looks at the midpoint of the lifetime.  Each is written once over the
    array it walks ([get], [set]), the accessors of its items and the bit it
    sets in [*changed].  [guint i] with [g_array_remove_index (arr, i--)]
    and the [i++] of the loop header leaves [i] where it is (from 0 it wraps
    to [G_MAXUINT] and back).  The result is the structure with the updated
    [*changed] and [*nextevent]. *)

Section Clean.
Context {T : Type}.
Variable get : NMNDiscPrivate -> list T.
Variable set : list T -> NMNDiscPrivate -> NMNDiscPrivate.
Variable timestamp : T -> Z.
Variable lifetime : T -> Z.
Variable config_bit : Z.

Definition item_expiry (item : T) : Z := to_guint64 (timestamp item + lifetime item).
Definition item_refresh (item : T) : Z := to_guint64 (timestamp item + lifetime item / 2).

Fixpoint clean_loop (fuel : nat) (priv : NMNDiscPrivate) (now : Z) (i : nat)
    (changed nextevent : Z) {struct fuel} : NMNDiscPrivate * Z * Z :=
  match fuel with
  | O => (priv, changed, nextevent)
  | S fuel =>
      match get priv !! i with
      | None => (priv, changed, nextevent)
      | Some item =>
          let expiry := item_expiry item in
          if lifetime item =? G_MAXUINT32
          then clean_loop fuel priv now (S i) changed nextevent
          else if now >=? expiry
          then clean_loop fuel (set (delete i (get priv)) priv) now i
                 (Z.lor changed config_bit) nextevent
          else if nextevent >? expiry
          then clean_loop fuel priv now (S i) changed (to_guint32 expiry)
          else clean_loop fuel priv now (S i) changed nextevent
      end
  end.

Fixpoint clean_refresh_loop (fuel : nat) (priv : NMNDiscPrivate) (clock now : Z) (i : nat)
    (changed nextevent : Z) {struct fuel} : NMNDiscPrivate * Z * Z :=
  match fuel with
  | O => (priv, changed, nextevent)
  | S fuel =>
      match get priv !! i with
      | None => (priv, changed, nextevent)
      | Some item =>
          let expiry := item_expiry item in
          let refresh := item_refresh item in
          if lifetime item =? G_MAXUINT32
          then clean_refresh_loop fuel priv clock now (S i) changed nextevent
          else if now >=? expiry
          then clean_refresh_loop fuel (set (delete i (get priv)) priv) clock now i
                 (Z.lor changed config_bit) nextevent
          else if now >=? refresh
          then clean_refresh_loop fuel (solicit priv clock) clock now (S i) changed nextevent
          else if nextevent >? refresh
          then clean_refresh_loop fuel priv clock now (S i) changed (to_guint32 refresh)
          else clean_refresh_loop fuel priv clock now (S i) changed nextevent
      end
  end.
End Clean.

Definition clean_gateways (priv : NMNDiscPrivate) (now changed nextevent : Z) :=
  clean_loop get_gateways set_gateways gw_timestamp gw_lifetime NM_NDISC_CONFIG_GATEWAYS
    (length (get_gateways priv)) priv now 0%nat changed nextevent.

Definition clean_addresses (priv : NMNDiscPrivate) (now changed nextevent : Z) :=
  clean_loop get_addresses set_addresses addr_timestamp addr_lifetime NM_NDISC_CONFIG_ADDRESSES
    (length (get_addresses priv)) priv now 0%nat changed nextevent.

Definition clean_routes (priv : NMNDiscPrivate) (now changed nextevent : Z) :=
  clean_loop get_routes set_routes rt_timestamp rt_lifetime NM_NDISC_CONFIG_ROUTES
    (length (get_routes priv)) priv now 0%nat changed nextevent.

Definition clean_dns_servers (priv : NMNDiscPrivate) (clock now changed nextevent : Z) :=
  clean_refresh_loop get_dns_servers set_dns_servers dns_timestamp dns_lifetime
    NM_NDISC_CONFIG_DNS_SERVERS
    (length (get_dns_servers priv)) priv clock now 0%nat changed nextevent.

Definition clean_dns_domains (priv : NMNDiscPrivate) (clock now changed nextevent : Z) :=
  clean_refresh_loop get_dns_domains set_dns_domains dom_timestamp dom_lifetime
    NM_NDISC_CONFIG_DNS_DOMAINS
    (length (get_dns_domains priv)) priv clock now 0%nat changed nextevent.

(** The five passes of [check_timestamps], before the signal and the timer:
    the structure, [changed] and [nextevent] after them. *)
Definition never : Z := to_guint32 G_MAXINT32.

Definition clean_all (priv : NMNDiscPrivate) (clock now changed : Z) : NMNDiscPrivate * Z * Z :=
  let nextevent := never in
  let '(priv, changed, nextevent) := clean_gateways priv now changed nextevent in
  let '(priv, changed, nextevent) := clean_addresses priv now changed nextevent in
  let '(priv, changed, nextevent) := clean_routes priv now changed nextevent in
  let '(priv, changed, nextevent) := clean_dns_servers priv clock now changed nextevent in
  clean_dns_domains priv clock now changed nextevent.

(** [g_return_if_fail (nextevent > now)] leaves the function before the
    timer is armed. *)
Definition check_timestamps (priv : NMNDiscPrivate) (clock now changed : Z) : NMNDiscPrivate :=
  let priv := set_timeout_id None priv in
  let '(priv, changed, nextevent) := clean_all priv clock now changed in
  let priv := if negb (changed =? 0) then _emit_config_change priv changed else priv in
  if negb (nextevent =? never) then
    if nextevent >? now
    then set_timeout_id (Some (to_guint32 (nextevent - now))) priv
    else priv
  else priv.

(** [timeout_cb]: the clock reading is converted to the [guint32 now]. *)
Definition timeout_cb (priv : NMNDiscPrivate) (clock : Z) : NMNDiscPrivate :=
  let priv := set_timeout_id None priv in
  check_timestamps priv clock (to_guint32 clock) 0.

Definition nm_ndisc_ra_received (priv : NMNDiscPrivate) (clock now changed : Z) : NMNDiscPrivate :=
  let priv := set_ra_timeout_id None priv in
  let priv := set_send_rs_id None priv in
  let priv := set_last_send_rs_error None priv in
  check_timestamps priv clock now changed.

(** ** Engine facade *)

Definition nm_ndisc_set_iid (priv : NMNDiscPrivate) (new_iid : NMUtilsIPv6IfaceId) (clock : Z)
    : NMNDiscPrivate * bool :=
  if negb (iid_id_eqb (iid priv) new_iid) then
    let priv := set_iid new_iid priv in
    match addr_gen_mode priv with
    | NM_SETTING_IP6_CONFIG_ADDR_GEN_MODE_STABLE_PRIVACY => (priv, false)
    | NM_SETTING_IP6_CONFIG_ADDR_GEN_MODE_EUI64 =>
        let priv :=
          if negb (length (get_addresses priv) =? 0)%nat then
            (* g_array_remove_range (addresses, 0, addresses->len) *)
            let priv := set_addresses (drop (length (get_addresses priv)) (get_addresses priv)) priv in
            let priv := _emit_config_change priv NM_NDISC_CONFIG_ADDRESSES in
            solicit priv clock
          else priv in
        (priv, true)
    end
  else (priv, false).

Definition ndisc_ra_timeout_cb (priv : NMNDiscPrivate) : NMNDiscPrivate :=
  let priv := set_ra_timeout_id None priv in
  emit RA_TIMEOUT priv.

(** [g_return_if_fail (!priv->ra_timeout_id)] and the failure to enter the
    network namespace leave the function at once.  [klass->start] is taken
    to be present. *)
Definition nm_ndisc_start (priv : NMNDiscPrivate) (netns_ok : bool) (clock : Z) : NMNDiscPrivate :=
  match ra_timeout_id priv with
  | Some _ => priv
  | None =>
      if negb netns_ok then priv
      else
        let ra_wait_secs :=
          to_gint64 (to_gint64 (router_solicitations priv * router_solicitation_interval priv) + 1) in
        let ra_wait_secs := CLAMP ra_wait_secs 30 120 in
        let priv := set_ra_timeout_id (Some (to_guint32 ra_wait_secs)) priv in
        let priv := emit KLASS_START priv in
        solicit priv clock
  end.

(** [nm_ndisc_init] after the construct-only properties have been set. *)
Definition nm_ndisc_new (ifname_ network_id_ : string)
    (addr_gen_mode_ : NMSettingIP6ConfigAddrGenMode)
    (stable_type_ max_addresses_ router_solicitations_ router_solicitation_interval_ : Z)
    : NMNDiscPrivate :=
  {| rdata := {| gateways := []; addresses := []; routes := [];
                 dns_servers := []; dns_domains := [] |};
     solicitations_left := 0;
     send_rs_id := None;
     last_rs := G_MININT32;
     ra_timeout_id := None;
     timeout_id := None;
     last_send_rs_error := None;
     iid := {| id_lo32 := 0; id_hi32 := 0 |};
     ifname := ifname_;
     network_id := network_id_;
     addr_gen_mode := addr_gen_mode_;
     stable_type := stable_type_;
     max_addresses := max_addresses_;
     router_solicitations := router_solicitations_;
     router_solicitation_interval := router_solicitation_interval_;
     trace := [] |}.

(** ** Sample data for the examples *)

Definition in6 (w0 w1 w2 w3 : Z) : in6_addr :=
  {| s6_addr32_0 := w0; s6_addr32_1 := w1; s6_addr32_2 := w2; s6_addr32_3 := w3 |}.

(** A stand-in for the stable-privacy derivation: it refuses a DAD counter
    of 3 or more and otherwise writes words that depend on the counter into
    the low 64 bits. *)
Definition sample_stable_privacy (stable_type_ : Z) (addr : in6_addr)
    (ifname_ network_id_ : string) (dad_counter : Z) : bool * in6_addr :=
  if dad_counter >=? 3 then (false, addr)
  else (true, in6 (s6_addr32_0 addr) (s6_addr32_1 addr) (1000 + dad_counter) (stable_type_ + 1)).

Definition sample_iid : NMUtilsIPv6IfaceId := {| id_lo32 := 0x02001122; id_hi32 := 0x33445566 |}.

Definition sample_prefix : in6_addr := in6 0x20010db8 0 0 0.

Definition sample_address (dad_counter lifetime : Z) : NMNDiscAddress :=
  {| addr_address := sample_prefix; addr_dad_counter := dad_counter;
     addr_timestamp := 1; addr_lifetime := lifetime; addr_preferred := lifetime |}.

Definition sample_gateway (w3 preference lifetime : Z) : NMNDiscGateway :=
  {| gw_address := in6 0xfe800000 0 0 w3; gw_timestamp := 1;
     gw_lifetime := lifetime; gw_preference := preference |}.

Definition sample_route (w1 plen preference lifetime : Z) : NMNDiscRoute :=
  {| rt_network := in6 0x20010db8 w1 0 0; rt_plen := plen;
     rt_gateway := in6 0xfe800000 0 0 1; rt_timestamp := 1;
     rt_lifetime := lifetime; rt_preference := preference |}.

Definition sample_dns_server (w3 timestamp lifetime : Z) : NMNDiscDNSServer :=
  {| dns_address := in6 0x20010db8 0 0 w3; dns_timestamp := timestamp;
     dns_lifetime := lifetime |}.

Definition sample_dns_domain (name : string) (timestamp lifetime : Z) : NMNDiscDNSDomain :=
  {| dom_domain := Some name; dom_timestamp := timestamp; dom_lifetime := lifetime |}.

(** Modelled from the spec: the values of [NMNDiscPreference] (nm-ndisc.h,
    not part of the sources at hand), ordered low < medium < high. *)
Definition NM_NDISC_PREFERENCE_LOW : Z := 1.
Definition NM_NDISC_PREFERENCE_MEDIUM : Z := 2.
Definition NM_NDISC_PREFERENCE_HIGH : Z := 3.

(** An engine with three solicitations per burst, four seconds apart. *)
Definition sample_ndisc (mode : NMSettingIP6ConfigAddrGenMode) (max_addresses_ : Z)
    : NMNDiscPrivate :=
  nm_ndisc_new "eth0" "net" mode 0 max_addresses_ 3 4.

(** The engine of scenario 1 of the specification, before [start]. *)
Definition sample_engine : NMNDiscPrivate :=
  sample_ndisc NM_SETTING_IP6_CONFIG_ADDR_GEN_MODE_EUI64 16.

(** An engine that sends one solicitation per burst, and two ticks at which
    the transport fails. *)
Definition sample_pacer : NMNDiscPrivate :=
  nm_ndisc_new "eth0" "net" NM_SETTING_IP6_CONFIG_ADDR_GEN_MODE_EUI64 0 16 1 4.

Definition sample_error_ticks : list send_tick :=
  [ {| tick_netns_ok := true; tick_result := SendRsError "no link-local"; tick_clock := 1 |};
    {| tick_netns_ok := true; tick_result := SendRsError "no link-local"; tick_clock := 5 |} ].

(** Five ticks: the transport succeeds, fails once, then succeeds. *)
Definition sample_mixed_ticks : list send_tick :=
  [ {| tick_netns_ok := true; tick_result := SendRsOk; tick_clock := 0 |};
    {| tick_netns_ok := true; tick_result := SendRsError "busy"; tick_clock := 4 |};
    {| tick_netns_ok := true; tick_result := SendRsOk; tick_clock := 8 |};
    {| tick_netns_ok := true; tick_result := SendRsOk; tick_clock := 12 |};
    {| tick_netns_ok := true; tick_result := SendRsOk; tick_clock := 16 |} ].

(** An engine that has learned a gateway and a DNS server at time 1. *)
Definition sample_tracking : NMNDiscPrivate :=
  set_dns_servers [sample_dns_server 53 1 600]
    (set_gateways [sample_gateway 1 NM_NDISC_PREFERENCE_MEDIUM 1800] sample_engine).

(** An engine in EUI-64 mode that has an interface identifier and one
    address that is still to be completed. *)
Definition sample_with_address : NMNDiscPrivate :=
  set_addresses [sample_address 0 3600] (set_iid sample_iid sample_engine).

(** Three ticks at which the transport succeeds. *)
Definition sample_ok_ticks : list send_tick :=
  [ {| tick_netns_ok := true; tick_result := SendRsOk; tick_clock := 0 |};
    {| tick_netns_ok := true; tick_result := SendRsOk; tick_clock := 4 |};
    {| tick_netns_ok := true; tick_result := SendRsOk; tick_clock := 8 |} ].

(** ** Address completer and the operations on addresses *)

Section Engine.

(** [nm_utils_ipv6_addr_set_stable_privacy] (nm-core-utils.c) is not part
    of the sources at hand.  It is a parameter: from the stable type, the
    address, the interface name, the network id and the DAD counter it gives
    whether it succeeded and the address it leaves behind. *)
Variable nm_utils_ipv6_addr_set_stable_privacy :
  Z -> in6_addr -> string -> string -> Z -> bool * in6_addr.

(** The width of the unsigned field [dad_counter] of [NMNDiscAddress]
    (nm-ndisc.h is not part of the sources at hand). *)
Variable dad_counter_bits : Z.

(** [complete_address] works on the address record through a pointer: the
    result is its return value and the record afterwards.  The argument
    [addr->dad_counter++] passes the old counter and stores the new one
    before the call. *)
Definition complete_address (priv : NMNDiscPrivate) (addr : NMNDiscAddress)
    : bool * NMNDiscAddress :=
  match addr_gen_mode priv with
  | NM_SETTING_IP6_CONFIG_ADDR_GEN_MODE_STABLE_PRIVACY =>
      let dad_counter := addr_dad_counter addr in
      let addr := set_addr_dad_counter (wrap_unsigned dad_counter_bits (dad_counter + 1)) addr in
      let '(ok, address) :=
        nm_utils_ipv6_addr_set_stable_privacy (stable_type priv) (addr_address addr)
          (ifname priv) (network_id priv) dad_counter in
      let addr := set_addr_address address addr in
      if negb ok then (false, addr) else (true, addr)
  | NM_SETTING_IP6_CONFIG_ADDR_GEN_MODE_EUI64 =>
      if iid_id_is_zero (iid priv) then (false, addr)
      else if (s6_addr32_2 (addr_address addr) =? 0) && (s6_addr32_3 (addr_address addr) =? 0)
      then (true, set_addr_address
                    (nm_utils_ipv6_addr_set_interface_identifier (addr_address addr) (iid priv))
                    addr)
      else (false, addr)
  end.

(** The result is the structure, the record [*new] afterwards and the
    return value.  The loop returns at the first item with the completed
    address, so it is [list_find]; [len >= max_addresses] compares a
    [guint] with a [gint32], in unsigned arithmetic. *)
Definition nm_ndisc_complete_and_add_address (priv : NMNDiscPrivate) (new : NMNDiscAddress)
    : NMNDiscPrivate * NMNDiscAddress * bool :=
  let '(ok, new) := complete_address priv new in
  if negb ok then (priv, new, false)
  else
    let arr := get_addresses priv in
    match list_find (fun item => IN6_ARE_ADDR_EQUAL (addr_address item) (addr_address new) = true) arr with
    | Some (i, item) =>
        if addr_lifetime new =? 0 then (set_addresses (delete i arr) priv, new, true)
        else
          let changed :=
            negb (to_guint32 (addr_timestamp item + addr_lifetime item)
                  =? to_guint32 (addr_timestamp new + addr_lifetime new))
            || negb (to_guint32 (addr_timestamp item + addr_preferred item)
                     =? to_guint32 (addr_timestamp new + addr_preferred new)) in
          (set_addresses (<[i:=new]> arr) priv, new, changed)
    | None =>
        let i := length arr in
        if negb (max_addresses priv =? 0)
           && (Z.of_nat (length arr) >=? to_guint32 (max_addresses priv))
        then (priv, new, false)
        else
          let priv := if negb (addr_lifetime new =? 0)
                      then set_addresses (g_array_insert_val arr i new) priv
                      else priv in
          (priv, new, negb (addr_lifetime new =? 0))
    end.

(** The loop of [nm_ndisc_dad_failed]: [complete_address] works on the
    item in the array; the item is removed when it fails. *)
Fixpoint dad_failed_loop (fuel : nat) (priv : NMNDiscPrivate) (address : in6_addr)
    (i : nat) (changed : bool) {struct fuel} : NMNDiscPrivate * bool :=
  match fuel with
  | O => (priv, changed)
  | S fuel =>
      match get_addresses priv !! i with
      | None => (priv, changed)
      | Some item =>
          if negb (IN6_ARE_ADDR_EQUAL (addr_address item) address)
          then dad_failed_loop fuel priv address (S i) changed
          else
            let '(ok, item) := complete_address priv item in
            let priv := set_addresses (<[i:=item]> (get_addresses priv)) priv in
            if negb ok
            then dad_failed_loop fuel (set_addresses (delete i (get_addresses priv)) priv)
                   address i true
            else dad_failed_loop fuel priv address (S i) true
      end
  end.

Definition nm_ndisc_dad_failed (priv : NMNDiscPrivate) (address : in6_addr) : NMNDiscPrivate :=
  let '(priv, changed) :=
    dad_failed_loop (length (get_addresses priv)) priv address 0%nat false in
  if changed then _emit_config_change priv NM_NDISC_CONFIG_ADDRESSES else priv.

(** ** The engine as a whole

    What can happen to an engine: a call of one of its public functions, or
    one of its three timers firing.  A timer fires only while its source is
    pending. *)
Inductive call :=
| Call_start (netns_ok : bool) (clock : Z)
| Call_add_gateway (new : NMNDiscGateway)
| Call_complete_and_add_address (new : NMNDiscAddress)
| Call_add_route (new : NMNDiscRoute)
| Call_add_dns_server (new : NMNDiscDNSServer)
| Call_add_dns_domain (new : NMNDiscDNSDomain)
| Call_ra_received (clock now changed : Z)
| Call_dad_failed (address : in6_addr)
| Call_set_iid (new_iid : NMUtilsIPv6IfaceId) (clock : Z)
| Fire_send_rs_timeout (netns_ok : bool) (result : send_rs_result) (clock : Z)
| Fire_ra_timeout
| Fire_timeout (clock : Z).

Definition step (priv : NMNDiscPrivate) (c : call) : NMNDiscPrivate :=
  match c with
  | Call_start netns_ok clock => nm_ndisc_start priv netns_ok clock
  | Call_add_gateway new => fst (nm_ndisc_add_gateway priv new)
  | Call_complete_and_add_address new => fst (fst (nm_ndisc_complete_and_add_address priv new))
  | Call_add_route new => fst (nm_ndisc_add_route priv new)
  | Call_add_dns_server new => fst (nm_ndisc_add_dns_server priv new)
  | Call_add_dns_domain new => fst (nm_ndisc_add_dns_domain priv new)
  | Call_ra_received clock now changed => nm_ndisc_ra_received priv clock now changed
  | Call_dad_failed address => nm_ndisc_dad_failed priv address
  | Call_set_iid new_iid clock => fst (nm_ndisc_set_iid priv new_iid clock)
  | Fire_send_rs_timeout netns_ok result clock =>
      match send_rs_id priv with
      | Some _ => send_rs_timeout priv netns_ok result clock
      | None => priv
      end
  | Fire_ra_timeout =>
      match ra_timeout_id priv with
      | Some _ => ndisc_ra_timeout_cb priv
      | None => priv
      end
  | Fire_timeout clock =>
      match timeout_id priv with
      | Some _ => timeout_cb priv clock
      | None => priv
      end
  end.

Definition run (calls : list call) (priv : NMNDiscPrivate) : NMNDiscPrivate :=
  fold_left step calls priv.

(** ** The scenarios of the specification *)

(** Scenario 1: the identifier is set, the engine is started at time 0 and
    sends a solicitation; at time 1 the transport hands over what the
    advertisement carried and reports it. *)
Definition scenario1_calls : list call :=
  [ Call_set_iid sample_iid 0;
    Call_start true 0;
    Fire_send_rs_timeout true SendRsOk 0;
    Call_add_gateway (sample_gateway 1 NM_NDISC_PREFERENCE_MEDIUM 1800);
    Call_complete_and_add_address (sample_address 0 3600);
    Call_add_dns_server (sample_dns_server 0x53 1 600);
    Call_ra_received 1 1
      (Z.lor NM_NDISC_CONFIG_GATEWAYS
         (Z.lor NM_NDISC_CONFIG_ADDRESSES NM_NDISC_CONFIG_DNS_SERVERS)) ].

(** Scenario 2: at time 100 the gateway is advertised with lifetime 0. *)
Definition scenario2_calls : list call :=
  scenario1_calls ++ [ Call_add_gateway (sample_gateway 1 NM_NDISC_PREFERENCE_MEDIUM 0) ].

(** Scenario 3: at time 5 duplicate address detection fails for the
    address that scenario 1 configured. *)
Definition scenario3_calls : list call :=
  scenario1_calls ++ [ Call_dad_failed (in6 0x20010db8 0 0x02001122 0x33445566) ].

(** Scenario 6: a DNS server learned at time 0 with lifetime 600 is swept
    at time 300, the send timer fires, and the server is swept at 601. *)
Definition scenario6_calls : list call :=
  [ Call_add_dns_server (sample_dns_server 0x53 0 600);
    Call_ra_received 0 0 NM_NDISC_CONFIG_DNS_SERVERS;
    Fire_timeout 300;
    Fire_send_rs_timeout true SendRsOk 300;
    Call_ra_received 601 601 0 ].

(** ** Predicates of the properties *)

(** Non-increasing preference along an array. *)
Definition preference_ordered {T : Type} (preference : T -> Z) (arr : list T) : Prop :=
  forall (i j : nat) (x y : T),
    (i < j)%nat -> arr !! i = Some x -> arr !! j = Some y -> preference x >= preference y.

(** An item that a sweep at [now] leaves in place. *)
Definition unexpired (now timestamp lifetime : Z) : Prop :=
  lifetime = G_MAXUINT32 \/ to_guint64 (timestamp + lifetime) > now.

Definition kept {T : Type} (timestamp lifetime : T -> Z) (now : Z) (item : T) : Prop :=
  unexpired now (timestamp item) (lifetime item).

Definition all_unexpired (now : Z) (d : NMNDiscDataInternal) : Prop :=
  Forall (kept gw_timestamp gw_lifetime now) (gateways d) /\
  Forall (kept addr_timestamp addr_lifetime now) (addresses d) /\
  Forall (kept rt_timestamp rt_lifetime now) (routes d) /\
  Forall (kept dns_timestamp dns_lifetime now) (dns_servers d) /\
  Forall (kept dom_timestamp dom_lifetime now) (dns_domains d).

(** Every stored item has a non-zero lifetime. *)
Definition lifetimes_positive (d : NMNDiscDataInternal) : Prop :=
  Forall (fun x => gw_lifetime x <> 0) (gateways d) /\
  Forall (fun x => addr_lifetime x <> 0) (addresses d) /\
  Forall (fun x => rt_lifetime x <> 0) (routes d) /\
  Forall (fun x => dns_lifetime x <> 0) (dns_servers d) /\
  Forall (fun x => dom_lifetime x <> 0) (dns_domains d).

(** [i] is the first index of [arr] whose item passes [test]. *)
Definition first_match {T : Type} (test : T -> bool) (arr : list T) (i : nat) : Prop :=
  (exists item, arr !! i = Some item /\ test item = true) /\
  forall (j : nat) (x : T), (j < i)%nat -> arr !! j = Some x -> test x = false.

Definition no_match {T : Type} (test : T -> bool) (arr : list T) : Prop :=
  forall x, x ∈ arr -> test x = false.

(** What an add operation does with an item of lifetime 0: it removes the
    first item with the identity of the new one and reports a change, or
    finds none, leaves the array alone and reports no change. *)
Definition withdraws {T : Type} (test : T -> bool) (arr arr' : list T) (changed : bool) : Prop :=
  (exists i, first_match test arr i /\ arr' = delete i arr /\ changed = true) \/
  (no_match test arr /\ arr' = arr /\ changed = false).

(** The prefix lengths that [nm_ndisc_add_route] lets through; for the
    unsigned field these are 1 to 128. *)
Definition valid_plen (r : NMNDiscRoute) : Prop := rt_plen r <> 0 /\ rt_plen r <= 128.

(** The deadline that the passes of a sweep at [now] may hand on. *)
Definition nextevent_ok (now nextevent : Z) : Prop :=
  nextevent <= never /\ (nextevent <> never -> now < nextevent).

(** What every call keeps true of the store of an engine whose cap on
    addresses is [cap]. *)
Definition store_ok (cap : Z) (priv : NMNDiscPrivate) : Prop :=
  lifetimes_positive (rdata priv) /\
  Forall valid_plen (get_routes priv) /\
  max_addresses priv = cap /\
  (0 < cap <= G_MAXINT32 -> Z.of_nat (length (get_addresses priv)) <= cap).

(** Modelled from the spec: what [nm_utils_ipv6_addr_set_stable_privacy]
    (nm-core-utils.c, not part of the sources at hand) does to the address.
    It writes the derived identifier into the low 64 bits, so the high 64
    bits stay, and when the derivation fails it has written nothing. *)
Definition stable_privacy_contract
    (set_stable_privacy : Z -> in6_addr -> string -> string -> Z -> bool * in6_addr) : Prop :=
  forall stable_type_ addr ifname_ network_id_ dad_counter,
    let r := set_stable_privacy stable_type_ addr ifname_ network_id_ dad_counter in
    s6_addr32_0 (snd r) = s6_addr32_0 addr /\
    s6_addr32_1 (snd r) = s6_addr32_1 addr /\
    (fst r = false -> snd r = addr).

(** The calls of the transport's [send_rs], and the successful ones, in the
    burst that [solicit] starts on [priv] and that the [ticks] drive. *)
Definition burst_sends (priv : NMNDiscPrivate) (clock : Z) (ticks : list send_tick) : Z :=
  count_events is_send_rs (trace (rs_burst ticks (solicit priv clock)))
  - count_events is_send_rs (trace priv).

Definition burst_successes (priv : NMNDiscPrivate) (clock : Z) (ticks : list send_tick) : Z :=
  count_events is_send_rs_ok (trace (rs_burst ticks (solicit priv clock)))
  - count_events is_send_rs_ok (trace priv).

(** ** Further functions of the file *)

(** [config_map_to_string] writes one letter per bit that is set and then
    the terminating NUL into a buffer of [CONFIG_MAP_MAX_STR] bytes; the
    result is the string in front of the NUL. *)
Definition CONFIG_MAP_MAX_STR : Z := 7.

Definition config_map_letter (map bit : Z) (letter : Ascii.ascii) (rest : string) : string :=
  if negb (Z.land map bit =? 0) then String letter rest else rest.

Definition config_map_to_string (map : Z) : string :=
  config_map_letter map NM_NDISC_CONFIG_DHCP_LEVEL "d"%char
    (config_map_letter map NM_NDISC_CONFIG_GATEWAYS "G"%char
       (config_map_letter map NM_NDISC_CONFIG_ADDRESSES "A"%char
          (config_map_letter map NM_NDISC_CONFIG_ROUTES "R"%char
             (config_map_letter map NM_NDISC_CONFIG_DNS_SERVERS "S"%char
                (config_map_letter map NM_NDISC_CONFIG_DNS_DOMAINS "D"%char ""))))).

Fixpoint string_mem (c : Ascii.ascii) (s : string) : bool :=
  match s with
  | EmptyString => false
  | String c' s => Ascii.eqb c c' || string_mem c s
  end.

(** [dispose], up to the call of the parent class. *)
Definition dispose (priv : NMNDiscPrivate) : NMNDiscPrivate :=
  let priv := set_ra_timeout_id None priv in
  let priv := set_send_rs_id None priv in
  let priv := set_last_send_rs_error None priv in
  set_timeout_id None priv.

Definition is_timer (c : call) : bool :=
  match c with
  | Fire_send_rs_timeout _ _ _ | Fire_ra_timeout | Fire_timeout _ => true
  | _ => false
  end.

(** ** Further predicates *)

(** The tests of the sweeper's loops on one item: it stays, and (for DNS
    servers and domains) it stays and has reached the midpoint of its
    lifetime. *)
Definition keptb {T : Type} (timestamp lifetime : T -> Z) (now : Z) (item : T) : bool :=
  (lifetime item =? G_MAXUINT32) || negb (now >=? item_expiry timestamp lifetime item).

Definition refresh_dueb {T : Type} (timestamp lifetime : T -> Z) (now : Z) (item : T) : bool :=
  negb (lifetime item =? G_MAXUINT32)
  && negb (now >=? item_expiry timestamp lifetime item)
  && (now >=? item_refresh timestamp lifetime item).

Definition dns_refresh_due (now : Z) (d : NMNDiscDataInternal) : bool :=
  existsb (refresh_dueb dns_timestamp dns_lifetime now) (dns_servers d)
  || existsb (refresh_dueb dom_timestamp dom_lifetime now) (dns_domains d).

(** The store after a sweep at [now]: the items that stay, in their order. *)
Definition swept (now : Z) (d : NMNDiscDataInternal) : NMNDiscDataInternal :=
  {| gateways := filter (fun x => keptb gw_timestamp gw_lifetime now x = true) (gateways d);
     addresses := filter (fun x => keptb addr_timestamp addr_lifetime now x = true) (addresses d);
     routes := filter (fun x => keptb rt_timestamp rt_lifetime now x = true) (routes d);
     dns_servers := filter (fun x => keptb dns_timestamp dns_lifetime now x = true) (dns_servers d);
     dns_domains := filter (fun x => keptb dom_timestamp dom_lifetime now x = true) (dns_domains d) |}.

Definition mark_expired {T : Type} (timestamp lifetime : T -> Z) (now : Z) (arr : list T)
    (config_bit changed : Z) : Z :=
  if forallb (keptb timestamp lifetime now) arr then changed else Z.lor changed config_bit.

(** The change mask after a sweep: one more bit for every array that lost
    an item. *)
Definition swept_mask (now : Z) (d : NMNDiscDataInternal) (changed : Z) : Z :=
  mark_expired dom_timestamp dom_lifetime now (dns_domains d) NM_NDISC_CONFIG_DNS_DOMAINS
    (mark_expired dns_timestamp dns_lifetime now (dns_servers d) NM_NDISC_CONFIG_DNS_SERVERS
       (mark_expired rt_timestamp rt_lifetime now (routes d) NM_NDISC_CONFIG_ROUTES
          (mark_expired addr_timestamp addr_lifetime now (addresses d) NM_NDISC_CONFIG_ADDRESSES
             (mark_expired gw_timestamp gw_lifetime now (gateways d) NM_NDISC_CONFIG_GATEWAYS
                changed)))).

(** The deadlines that a sweep at [now] folds into [nextevent]: the expiry
    of every item of finite lifetime that stays in the first three arrays,
    and the midpoint of every DNS item of finite lifetime that stays and has
    not reached it. *)
Definition expiry_deadlines {T : Type} (timestamp lifetime : T -> Z) (now : Z) (arr : list T)
    : list Z :=
  item_expiry timestamp lifetime
    <$> filter (fun x => negb (lifetime x =? G_MAXUINT32)
                         && negb (now >=? item_expiry timestamp lifetime x) = true) arr.

Definition refresh_deadlines {T : Type} (timestamp lifetime : T -> Z) (now : Z) (arr : list T)
    : list Z :=
  item_refresh timestamp lifetime
    <$> filter (fun x => negb (lifetime x =? G_MAXUINT32)
                         && negb (now >=? item_expiry timestamp lifetime x)
                         && negb (now >=? item_refresh timestamp lifetime x) = true) arr.

Definition deadlines (now : Z) (d : NMNDiscDataInternal) : list Z :=
  expiry_deadlines gw_timestamp gw_lifetime now (gateways d)
  ++ expiry_deadlines addr_timestamp addr_lifetime now (addresses d)
  ++ expiry_deadlines rt_timestamp rt_lifetime now (routes d)
  ++ refresh_deadlines dns_timestamp dns_lifetime now (dns_servers d)
  ++ refresh_deadlines dom_timestamp dom_lifetime now (dns_domains d).


Definition is_ra_timeout (e : event) : bool :=
  match e with RA_TIMEOUT => true | _ => false end.

Definition is_klass_start (e : event) : bool :=
  match e with KLASS_START => true | _ => false end.

(** Every [ra_timeout] that was emitted, and the one that is still to come
    while the first-RA timer is pending, belongs to a start of its own. *)
Definition ra_timeouts_accounted (p : NMNDiscPrivate) : Prop :=
  count_events is_ra_timeout (trace p)
  + match ra_timeout_id p with Some _ => 1 | None => 0 end
  <= count_events is_klass_start (trace p).

Definition tick_succeeds (t : send_tick) : bool :=
  tick_netns_ok t && negb (result_is_error (tick_result t)).

(** The fields that [solicit] and [send_rs_timeout] work on. *)
Definition pacer_of (p : NMNDiscPrivate) : Z * option Z * Z * Z * Z :=
  (solicitations_left p, send_rs_id p, last_rs p,
   router_solicitations p, router_solicitation_interval p).

(** What the change flag of an address looks at: the address and the two
    expiry times, as the [guint32] sums of the code. *)
Definition addr_expiries (a : NMNDiscAddress) : in6_addr * Z * Z :=
  (addr_address a, to_guint32 (addr_timestamp a + addr_lifetime a),
   to_guint32 (addr_timestamp a + addr_preferred a)).

(** No two items of an array have the same identity (for gateways, routes,
    DNS servers and DNS domains). *)
Definition rt_identity (r : NMNDiscRoute) : in6_addr * Z := (rt_network r, rt_plen r).

Definition identities_unique (d : NMNDiscDataInternal) : Prop :=
  NoDup (gw_address <$> gateways d) /\
  NoDup (rt_identity <$> routes d) /\
  NoDup (dns_address <$> dns_servers d) /\
  NoDup (dom_domain <$> dns_domains d).

(** The index of the first item that is less preferable than [new], or -1:
    the value of [insert_idx] after a loop that removed nothing. *)
Definition first_less_preferable {T : Type} (preference : T -> Z) (new : T) (arr : list T) : Z :=
  match list_find (fun x => (preference x <? preference new) = true) arr with
  | Some (k, _) => Z.of_nat k
  | None => -1
  end.

Definition without_identity {T : Type} (same_identity : T -> T -> bool) (new : T)
    (arr : list T) : list T :=
  filter (fun x => same_identity x new = false) arr.

(** ** Machine integers: values in range are not changed *)

Lemma to_guint32_small z : 0 <= z <= G_MAXUINT32 -> to_guint32 z = z.
Proof.
  intros H. unfold to_guint32, wrap_unsigned, G_MAXUINT32 in *.
  apply Z.mod_small. lia.
Qed.

Lemma to_guint64_small z : 0 <= z < 2 ^ 64 -> to_guint64 z = z.
Proof. intros H. unfold to_guint64, wrap_unsigned. apply Z.mod_small. lia. Qed.

Lemma to_guint64_nonneg z : 0 <= to_guint64 z.
Proof. unfold to_guint64, wrap_unsigned. apply Z.mod_pos_bound. lia. Qed.

Lemma to_gint32_small z : G_MININT32 <= z <= G_MAXINT32 -> to_gint32 z = z.
Proof.
  intros H. unfold to_gint32, wrap_signed, G_MININT32, G_MAXINT32 in *.
  rewrite Z.mod_small; lia.
Qed.

Lemma to_gint64_small z : - 2 ^ 63 <= z < 2 ^ 63 -> to_gint64 z = z.
Proof.
  intros H. unfold to_gint64, wrap_signed.
  change (2 ^ (64 - 1)) with (2 ^ 63). rewrite Z.mod_small; lia.
Qed.

Lemma CLAMP_spec x low high : low <= high -> CLAMP x low high = Z.max low (Z.min high x).
Proof. intros H. unfold CLAMP. destruct (Z.gtb_spec x high), (Z.ltb_spec x low); lia. Qed.

(** For fields that hold 32-bit unsigned values the 64-bit sum does not
    wrap, and an unexpired item is one whose expiry lies after [now]. *)
Lemma unexpired_in_range now timestamp lifetime :
  0 <= timestamp <= G_MAXUINT32 -> 0 <= lifetime <= G_MAXUINT32 ->
  unexpired now timestamp lifetime <-> lifetime = G_MAXUINT32 \/ timestamp + lifetime > now.
Proof.
  intros Ht Hl. unfold unexpired.
  rewrite to_guint64_small by (unfold G_MAXUINT32 in *; lia). done.
Qed.

(** ** The sweeper's loops *)

Section CleanFacts.
Context {T : Type}.
Variable get : NMNDiscPrivate -> list T.
Variable set : list T -> NMNDiscPrivate -> NMNDiscPrivate.
Variable timestamp : T -> Z.
Variable lifetime : T -> Z.
Variable config_bit : Z.
Hypothesis get_set : forall l p, get (set l p) = l.
Hypothesis get_solicit : forall p clock, get (solicit p clock) = get p.

Lemma nextevent_ok_assign now n v :
  nextevent_ok now n -> now < to_guint64 v -> to_guint64 v < n ->
  nextevent_ok now (to_guint32 (to_guint64 v)).
Proof.
  intros [Hle _] Hnow Hlt.
  assert (Hn : never = G_MAXINT32) by reflexivity.
  pose proof (to_guint64_nonneg v) as H0.
  rewrite to_guint32_small by (unfold G_MAXUINT32, G_MAXINT32 in *; lia).
  split; [lia | intros _; lia].
Qed.

(** Both loops, started at [i] with enough fuel and every item below
    [i] unexpired, end with an array of unexpired items that is a
    sub-array of the one they started from, hand on a sound deadline,
    and change nothing that the array update (and, for the second loop,
    [solicit]) leaves alone. *)
Lemma clean_loop_spec now fuel : forall p i c n p' c' n',
  (length (get p) <= i + fuel)%nat ->
  clean_loop get set timestamp lifetime config_bit fuel p now i c n = (p', c', n') ->
  Forall (kept timestamp lifetime now) (take i (get p)) ->
  Forall (kept timestamp lifetime now) (get p') /\
  get p' `sublist_of` get p /\
  (nextevent_ok now n -> nextevent_ok now n') /\
  (forall (A : Type) (f : NMNDiscPrivate -> A),
      (forall l q, f (set l q) = f q) -> f p' = f p).
Proof.
  induction fuel as [|fuel IH]; intros p i c n p' c' n' Hlen Hrun Hpre.
  - simpl in Hrun. injection Hrun as <- <- <-.
    rewrite take_ge in Hpre by lia. split4; auto.
  - simpl in Hrun. destruct (get p !! i) as [item|] eqn:Hi.
    2:{ injection Hrun as <- <- <-. apply lookup_ge_None in Hi.
        rewrite take_ge in Hpre by lia. split4; auto. }
    assert (Hnext : Forall (kept timestamp lifetime now) (take i (get p)) -> kept timestamp lifetime now item ->
                    Forall (kept timestamp lifetime now) (take (S i) (get p))).
    { intros H1 H2. rewrite (take_S_r _ _ _ Hi). apply Forall_app. split; auto. }
    destruct (Z.eqb_spec (lifetime item) G_MAXUINT32) as [Hinf|Hfin].
    { apply IH in Hrun; [exact Hrun | lia |].
      apply Hnext; auto. left; exact Hinf. }
    destruct (Z.geb_spec now (item_expiry timestamp lifetime item)) as [Hexp|Hlive].
    { apply IH in Hrun.
      - destruct Hrun as (H1 & H2 & H3 & H4). rewrite get_set in H2.
        split4; auto.
        + etrans; [exact H2 | apply sublist_delete].
        + intros A f Hf. rewrite (H4 A f Hf). apply Hf.
      - rewrite get_set, length_delete by eauto.
        apply lookup_lt_Some in Hi. lia.
      - rewrite get_set, delete_take_drop, take_app_le, take_take, Nat.min_id.
        + exact Hpre.
        + rewrite length_take. apply lookup_lt_Some in Hi. lia. }
    assert (Hkept : kept timestamp lifetime now item).
    { right. unfold item_expiry in Hlive. lia. }
    destruct (Z.gtb_spec n (item_expiry timestamp lifetime item)) as [Hsooner|Hlater].
    { apply IH in Hrun; [| lia | auto].
      destruct Hrun as (H1 & H2 & H3 & H4). split4; auto.
      intros Hn. apply H3. unfold item_expiry in *.
      apply (nextevent_ok_assign now n); auto; lia. }
    apply IH in Hrun; [exact Hrun | lia | auto].
Qed.

Lemma clean_refresh_loop_spec clock now fuel : forall p i c n p' c' n',
  (length (get p) <= i + fuel)%nat ->
  clean_refresh_loop get set timestamp lifetime config_bit fuel p clock now i c n
    = (p', c', n') ->
  Forall (kept timestamp lifetime now) (take i (get p)) ->
  Forall (kept timestamp lifetime now) (get p') /\
  get p' `sublist_of` get p /\
  (nextevent_ok now n -> nextevent_ok now n') /\
  (forall (A : Type) (f : NMNDiscPrivate -> A),
      (forall l q, f (set l q) = f q) -> (forall q k, f (solicit q k) = f q) -> f p' = f p).
Proof.
  induction fuel as [|fuel IH]; intros p i c n p' c' n' Hlen Hrun Hpre.
  - simpl in Hrun. injection Hrun as <- <- <-.
    rewrite take_ge in Hpre by lia. split4; auto.
  - simpl in Hrun. destruct (get p !! i) as [item|] eqn:Hi.
    2:{ injection Hrun as <- <- <-. apply lookup_ge_None in Hi.
        rewrite take_ge in Hpre by lia. split4; auto. }
    assert (Hnext : forall q, get q = get p -> kept timestamp lifetime now item ->
                    Forall (kept timestamp lifetime now) (take (S i) (get q))).
    { intros q -> H2. rewrite (take_S_r _ _ _ Hi). apply Forall_app. split; auto. }
    destruct (Z.eqb_spec (lifetime item) G_MAXUINT32) as [Hinf|Hfin].
    { apply IH in Hrun; [exact Hrun | lia |].
      apply Hnext; auto. left; exact Hinf. }
    destruct (Z.geb_spec now (item_expiry timestamp lifetime item)) as [Hexp|Hlive].
    { apply IH in Hrun.
      - destruct Hrun as (H1 & H2 & H3 & H4). rewrite get_set in H2.
        split4; auto.
        + etrans; [exact H2 | apply sublist_delete].
        + intros A f Hf Hs. rewrite (H4 A f Hf Hs). apply Hf.
      - rewrite get_set, length_delete by eauto.
        apply lookup_lt_Some in Hi. lia.
      - rewrite get_set, delete_take_drop, take_app_le, take_take, Nat.min_id.
        + exact Hpre.
        + rewrite length_take. apply lookup_lt_Some in Hi. lia. }
    assert (Hkept : kept timestamp lifetime now item).
    { right. unfold item_expiry in Hlive. lia. }
    destruct (Z.geb_spec now (item_refresh timestamp lifetime item)) as [Hmid|Hearly].
    { apply IH in Hrun.
      - destruct Hrun as (H1 & H2 & H3 & H4). rewrite get_solicit in H2.
        split4; auto.
        intros A f Hf Hs. rewrite (H4 A f Hf Hs). apply Hs.
      - rewrite get_solicit. lia.
      - apply Hnext; auto. }
    destruct (Z.gtb_spec n (item_refresh timestamp lifetime item)) as [Hsooner|Hlater].
    { apply IH in Hrun; [| lia | auto].
      destruct Hrun as (H1 & H2 & H3 & H4). split4; auto.
      intros Hn. apply H3. unfold item_refresh in *.
      apply (nextevent_ok_assign now n); auto; lia. }
    apply IH in Hrun; [exact Hrun | lia | auto].
Qed.
(** The fuel that the callers give is enough: from [length (get p) - i]
    units on, more fuel does not change what the loops return. *)
Lemma clean_loop_fuel now fuel : forall extra p i c n,
  (length (get p) <= i + fuel)%nat ->
  clean_loop get set timestamp lifetime config_bit (fuel + extra) p now i c n
  = clean_loop get set timestamp lifetime config_bit fuel p now i c n.
Proof.
  induction fuel as [|fuel IH]; intros extra p i c n Hlen.
  - destruct extra as [|extra]; [done|]. simpl.
    by rewrite (proj2 (lookup_ge_None (get p) i)) by lia.
  - simpl. destruct (get p !! i) as [item|] eqn:Hi; [|done].
    destruct (lifetime item =? G_MAXUINT32); [apply IH; lia|].
    destruct (now >=? item_expiry timestamp lifetime item).
    { apply IH. rewrite get_set, length_delete by eauto. lia. }
    destruct (n >? item_expiry timestamp lifetime item); apply IH; lia.
Qed.

Lemma clean_refresh_loop_fuel clock now fuel : forall extra p i c n,
  (length (get p) <= i + fuel)%nat ->
  clean_refresh_loop get set timestamp lifetime config_bit (fuel + extra) p clock now i c n
  = clean_refresh_loop get set timestamp lifetime config_bit fuel p clock now i c n.
Proof.
  induction fuel as [|fuel IH]; intros extra p i c n Hlen.
  - destruct extra as [|extra]; [done|]. simpl.
    by rewrite (proj2 (lookup_ge_None (get p) i)) by lia.
  - simpl. destruct (get p !! i) as [item|] eqn:Hi; [|done].
    destruct (lifetime item =? G_MAXUINT32); [apply IH; lia|].
    destruct (now >=? item_expiry timestamp lifetime item).
    { apply IH. rewrite get_set, length_delete by eauto. lia. }
    destruct (now >=? item_refresh timestamp lifetime item).
    { apply IH. rewrite get_solicit. lia. }
    destruct (n >? item_refresh timestamp lifetime item); apply IH; lia.
Qed.
End CleanFacts.

(** ** The loop of the preference-ordered arrays *)

Section PreferenceFacts.
Context {T : Type}.
Variable same_identity : T -> T -> bool.
Variable lifetime : T -> Z.
Variable preference : T -> Z.
Variable position : Z -> Z.

Lemma Forall_g_array_insert_val (P : T -> Prop) (arr : list T) (i : nat) (v : T) :
  Forall P arr -> P v -> Forall P (g_array_insert_val arr i v).
Proof.
  intros Harr Hv. unfold g_array_insert_val. apply Forall_app. split.
  - by apply Forall_take.
  - constructor; [exact Hv | by apply Forall_drop].
Qed.

(** Whatever holds of the stored items and of a new item with a non-zero
    lifetime holds of the items stored afterwards. *)
Lemma add_loop_Forall (P : T -> Prop) new fuel : forall arr i insert_idx,
  Forall P arr -> (lifetime new <> 0 -> P new) ->
  Forall P (fst (add_loop same_identity lifetime preference position fuel new arr i insert_idx)).
Proof.
  assert (Hafter : forall arr insert_idx, Forall P arr -> (lifetime new <> 0 -> P new) ->
            Forall P (fst (add_after_loop lifetime position new arr insert_idx))).
  { intros arr insert_idx Harr Hnew. unfold add_after_loop. simpl.
    destruct (Z.eqb_spec (lifetime new) 0); simpl; auto.
    apply Forall_g_array_insert_val; auto. }
  induction fuel as [|fuel IH]; intros arr i insert_idx Harr Hnew; simpl; [by apply Hafter|].
  destruct (arr !! i) as [item|] eqn:Hi; [|by apply Hafter].
  destruct (same_identity item new).
  - destruct (Z.eqb_spec (lifetime new) 0) as [Hz|Hnz]; simpl.
    + by apply Forall_delete.
    + destruct (negb (preference item =? preference new)); simpl.
      * apply IH; auto. by apply Forall_delete.
      * apply Forall_insert; auto.
  - apply IH; auto.
Qed.

(** With a lifetime of 0 the loop removes the first item that has the
    identity of the new one, or finds none and leaves the array alone. *)
Lemma add_loop_withdraws new fuel : forall arr i insert_idx,
  lifetime new = 0 ->
  (length arr <= i + fuel)%nat ->
  (forall (j : nat) (x : T), (j < i)%nat -> arr !! j = Some x -> same_identity x new = false) ->
  let r := add_loop same_identity lifetime preference position fuel new arr i insert_idx in
  withdraws (fun x => same_identity x new) arr (fst r) (snd r).
Proof.
  intros arr i insert_idx Hz. revert arr i insert_idx.
  assert (Hafter : forall arr (i : nat) insert_idx, (length arr <= i)%nat ->
            (forall (j : nat) (x : T), (j < i)%nat -> arr !! j = Some x ->
                                       same_identity x new = false) ->
            let r := add_after_loop lifetime position new arr insert_idx in
            withdraws (fun x => same_identity x new) arr (fst r) (snd r)).
  { intros arr i insert_idx Hlen Hpre. unfold add_after_loop. rewrite Hz. simpl.
    right. split; [|done]. intros x [j Hj]%list_elem_of_lookup.
    apply (Hpre j x); [|done]. apply lookup_lt_Some in Hj. lia. }
  induction fuel as [|fuel IH]; intros arr i insert_idx Hlen Hpre; simpl.
  { apply (Hafter arr i); [lia | done]. }
  destruct (arr !! i) as [item|] eqn:Hi.
  2:{ apply lookup_ge_None in Hi. by apply (Hafter arr i). }
  destruct (same_identity item new) eqn:Hid.
  - rewrite Hz. simpl. left. exists i. split; [|done].
    split; [by exists item | exact Hpre].
  - apply IH; [lia|]. intros j x Hj Hx.
    destruct (decide (j = i)) as [->|Hne]; [congruence|].
    apply (Hpre j x); [lia | done].
Qed.

(** When the first item with the identity of the new one has its
    preference, and the lifetime is not 0, the item is overwritten where it
    is and no change is reported. *)
Lemma add_loop_in_place new item (k : nat) fuel : forall arr i insert_idx,
  lifetime new <> 0 ->
  (length arr <= i + fuel)%nat -> (i <= k)%nat ->
  arr !! k = Some item -> same_identity item new = true ->
  preference item = preference new ->
  (forall (j : nat) (x : T), (i <= j < k)%nat -> arr !! j = Some x ->
                             same_identity x new = false) ->
  add_loop same_identity lifetime preference position fuel new arr i insert_idx
    = (<[k:=new]> arr, false).
Proof.
  induction fuel as [|fuel IH]; intros arr i insert_idx Hnz Hlen Hik Hk Hid Hpref Hpre.
  { apply lookup_lt_Some in Hk. lia. }
  simpl. destruct (arr !! i) as [x|] eqn:Hi.
  2:{ apply lookup_ge_None in Hi. apply lookup_lt_Some in Hk. lia. }
  destruct (decide (i = k)) as [->|Hne].
  - assert (x = item) as -> by congruence. rewrite Hid.
    destruct (Z.eqb_spec (lifetime new) 0); [done|].
    rewrite Hpref, Z.eqb_refl. done.
  - rewrite (Hpre i x) by (done || lia).
    apply IH; auto; try lia. intros j y Hj Hy. apply (Hpre j y); [lia | done].
Qed.
(** The fuel that [add_by_preference] gives is enough: from
    [length arr - i] units on, more fuel does not change the result. *)
Lemma add_loop_fuel new fuel : forall extra arr i insert_idx,
  (length arr <= i + fuel)%nat ->
  add_loop same_identity lifetime preference position (fuel + extra) new arr i insert_idx
  = add_loop same_identity lifetime preference position fuel new arr i insert_idx.
Proof.
  induction fuel as [|fuel IH]; intros extra arr i insert_idx Hlen.
  - destruct extra as [|extra]; [done|]. simpl.
    by rewrite (proj2 (lookup_ge_None arr i)) by lia.
  - simpl. destruct (arr !! i) as [item|] eqn:Hi; [|done].
    destruct (same_identity item new); [|apply IH; lia].
    destruct (lifetime new =? 0); [done|].
    destruct (negb (preference item =? preference new)); [|done].
    apply IH. rewrite length_delete by eauto. lia.
Qed.
End PreferenceFacts.

(** ** What the pacer and the timers leave alone *)

Lemma Forall_sublist {T : Type} (P : T -> Prop) (l1 l2 : list T) :
  l1 `sublist_of` l2 -> Forall P l2 -> Forall P l1.
Proof.
  induction 1 as [|x l1 l2 _ IH|x l1 l2 _ IH]; intros H; [done|..];
    inversion H; subst; auto.
Qed.

Lemma solicit_rdata p clock : rdata (solicit p clock) = rdata p.
Proof. unfold solicit. by destruct (send_rs_id p). Qed.

Lemma solicit_max_addresses p clock : max_addresses (solicit p clock) = max_addresses p.
Proof. unfold solicit. by destruct (send_rs_id p). Qed.

Lemma solicit_ra_timeout_id p clock : ra_timeout_id (solicit p clock) = ra_timeout_id p.
Proof. unfold solicit. by destruct (send_rs_id p). Qed.

Lemma solicit_trace p clock : trace (solicit p clock) = trace p.
Proof. unfold solicit. by destruct (send_rs_id p). Qed.

Lemma send_rs_timeout_rdata p netns_ok result clock :
  rdata (send_rs_timeout p netns_ok result clock) = rdata p /\
  max_addresses (send_rs_timeout p netns_ok result clock) = max_addresses p.
Proof.
  unfold send_rs_timeout. destruct netns_ok; simpl; [|done].
  destruct result as [|message]; simpl.
  - by destruct (_ >? 0).
  - destruct (negb _); simpl; by destruct (_ >? 0).
Qed.

Lemma nm_ndisc_start_rdata p netns_ok clock :
  rdata (nm_ndisc_start p netns_ok clock) = rdata p /\
  max_addresses (nm_ndisc_start p netns_ok clock) = max_addresses p.
Proof.
  unfold nm_ndisc_start. destruct (ra_timeout_id p); [done|].
  destruct netns_ok; simpl; [|done].
  by rewrite solicit_rdata, solicit_max_addresses.
Qed.

Lemma store_ok_same cap p p' :
  rdata p' = rdata p -> max_addresses p' = max_addresses p ->
  store_ok cap p -> store_ok cap p'.
Proof.
  unfold store_ok, get_routes, get_addresses. intros -> ->. done.
Qed.

(** ** The sweep *)

Lemma clean_all_spec p clock now c p' c' n' :
  clean_all p clock now c = (p', c', n') ->
  all_unexpired now (rdata p') /\
  nextevent_ok now n' /\
  (get_gateways p' `sublist_of` get_gateways p /\
   get_addresses p' `sublist_of` get_addresses p /\
   get_routes p' `sublist_of` get_routes p /\
   get_dns_servers p' `sublist_of` get_dns_servers p /\
   get_dns_domains p' `sublist_of` get_dns_domains p) /\
  max_addresses p' = max_addresses p.
Proof.
  unfold clean_all. intros H.
  destruct (clean_gateways p now c never) as [[p1 c1] n1] eqn:E1.
  destruct (clean_addresses p1 now c1 n1) as [[p2 c2] n2] eqn:E2.
  destruct (clean_routes p2 now c2 n2) as [[p3 c3] n3] eqn:E3.
  destruct (clean_dns_servers p3 clock now c3 n3) as [[p4 c4] n4] eqn:E4.
  apply clean_refresh_loop_spec in H; [| done | intros; unfold get_dns_domains; by rewrite solicit_rdata | lia | by rewrite take_0].
  apply clean_refresh_loop_spec in E4; [| done | intros; unfold get_dns_servers; by rewrite solicit_rdata | lia | by rewrite take_0].
  apply clean_loop_spec in E3; [| done | lia | by rewrite take_0].
  apply clean_loop_spec in E2; [| done | lia | by rewrite take_0].
  apply clean_loop_spec in E1; [| done | lia | by rewrite take_0].
  destruct H as (K5 & S5 & N5 & F5), E4 as (K4 & S4 & N4 & F4),
           E3 as (K3 & S3 & N3 & F3), E2 as (K2 & S2 & N2 & F2),
           E1 as (K1 & S1 & N1 & F1).
  assert (Hs : forall A (f : NMNDiscDataInternal -> A) q k,
            f (rdata (solicit q k)) = f (rdata q)).
  { intros. by rewrite solicit_rdata. }
  assert (G5 : get_gateways p' = get_gateways p4) by (apply F5; [done | apply (Hs _ gateways)]).
  assert (G4 : get_gateways p4 = get_gateways p3) by (apply F4; [done | apply (Hs _ gateways)]).
  assert (G3 : get_gateways p3 = get_gateways p2) by (by apply F3).
  assert (G2 : get_gateways p2 = get_gateways p1) by (by apply F2).
  assert (A5 : get_addresses p' = get_addresses p4) by (apply F5; [done | apply (Hs _ addresses)]).
  assert (A4 : get_addresses p4 = get_addresses p3) by (apply F4; [done | apply (Hs _ addresses)]).
  assert (A3 : get_addresses p3 = get_addresses p2) by (by apply F3).
  assert (A1 : get_addresses p1 = get_addresses p) by (by apply F1).
  assert (R5 : get_routes p' = get_routes p4) by (apply F5; [done | apply (Hs _ routes)]).
  assert (R4 : get_routes p4 = get_routes p3) by (apply F4; [done | apply (Hs _ routes)]).
  assert (R2 : get_routes p2 = get_routes p1) by (by apply F2).
  assert (R1 : get_routes p1 = get_routes p) by (by apply F1).
  assert (D5 : get_dns_servers p' = get_dns_servers p4)
    by (apply F5; [done | apply (Hs _ dns_servers)]).
  assert (D3 : get_dns_servers p3 = get_dns_servers p2) by (by apply F3).
  assert (D2 : get_dns_servers p2 = get_dns_servers p1) by (by apply F2).
  assert (D1 : get_dns_servers p1 = get_dns_servers p) by (by apply F1).
  assert (O4 : get_dns_domains p4 = get_dns_domains p3)
    by (apply F4; [done | apply (Hs _ dns_domains)]).
  assert (O3 : get_dns_domains p3 = get_dns_domains p2) by (by apply F3).
  assert (O2 : get_dns_domains p2 = get_dns_domains p1) by (by apply F2).
  assert (O1 : get_dns_domains p1 = get_dns_domains p) by (by apply F1).
  assert (M : max_addresses p' = max_addresses p).
  { rewrite (F5 _ max_addresses), (F4 _ max_addresses), (F3 _ max_addresses),
      (F2 _ max_addresses), (F1 _ max_addresses);
      auto using solicit_max_addresses. }
  split4; [| | | exact M].
  - unfold all_unexpired. fold (get_gateways p') (get_addresses p') (get_routes p')
      (get_dns_servers p') (get_dns_domains p').
    rewrite G5, G4, G3, G2, A5, A4, A3, R5, R4, D5. done.
  - apply N5, N4, N3, N2, N1. split; [done|]. intros Hn. by destruct Hn.
  - rewrite G5, G4, G3, G2, A5, A4, A3, R5, R4, D5.
    rewrite <- A1, <- R1, <- R2, <- D1, <- D2, <- D3, <- O1, <- O2, <- O3, <- O4. done.
Qed.

Lemma check_timestamps_rdata p clock now c :
  exists p' c' n', clean_all (set_timeout_id None p) clock now c = (p', c', n') /\
    rdata (check_timestamps p clock now c) = rdata p' /\
    max_addresses (check_timestamps p clock now c) = max_addresses p'.
Proof.
  unfold check_timestamps.
  destruct (clean_all (set_timeout_id None p) clock now c) as [[p' c'] n'].
  exists p', c', n'. split; [done|].
  destruct (negb (c' =? 0)), (negb (n' =? never)), (n' >? now); done.
Qed.

Lemma check_timestamps_store_ok cap p clock now c :
  store_ok cap p -> store_ok cap (check_timestamps p clock now c).
Proof.
  intros (L & V & M & C).
  destruct (check_timestamps_rdata p clock now c) as (p' & c' & n' & E & Hr & Hm).
  apply clean_all_spec in E. destruct E as (_ & _ & (S1 & S2 & S3 & S4 & S5) & M').
  unfold store_ok, lifetimes_positive, get_routes, get_addresses in *.
  rewrite Hr, Hm, M'. simpl in *.
  destruct L as (L1 & L2 & L3 & L4 & L5).
  repeat split; eauto using Forall_sublist.
  intros Hcap. apply sublist_length in S2. unfold get_addresses in S2. simpl in S2.
  specialize (C Hcap). lia.
Qed.

(** ** The address completer *)

Lemma complete_address_times priv addr ok addr' :
  complete_address priv addr = (ok, addr') ->
  addr_timestamp addr' = addr_timestamp addr /\
  addr_lifetime addr' = addr_lifetime addr /\
  addr_preferred addr' = addr_preferred addr.
Proof.
  unfold complete_address. intros H.
  destruct (addr_gen_mode priv).
  - destruct (iid_id_is_zero (iid priv)); [by injection H as <- <-|].
    destruct (_ && _); by injection H as <- <-.
  - destruct (nm_utils_ipv6_addr_set_stable_privacy _ _ _ _ _) as [ok' address].
    destruct ok'; by injection H as <- <-.
Qed.

(** ** The add operations keep the store well formed *)

Lemma nm_ndisc_add_gateway_eq priv new :
  nm_ndisc_add_gateway priv new =
  (set_gateways
     (fst (add_by_preference gateway_same_identity gw_lifetime gw_preference
             (fun insert_idx => MAX insert_idx 0) new (get_gateways priv))) priv,
   snd (add_by_preference gateway_same_identity gw_lifetime gw_preference
          (fun insert_idx => MAX insert_idx 0) new (get_gateways priv))).
Proof. unfold nm_ndisc_add_gateway. by destruct (add_by_preference _ _ _ _ _ _). Qed.

Lemma nm_ndisc_add_route_eq priv new :
  (rt_plen new =? 0) || (rt_plen new >? 128) = false ->
  nm_ndisc_add_route priv new =
  (set_routes
     (fst (add_by_preference route_same_identity rt_lifetime rt_preference
             (fun insert_idx => CLAMP insert_idx 0 G_MAXINT) new (get_routes priv))) priv,
   snd (add_by_preference route_same_identity rt_lifetime rt_preference
          (fun insert_idx => CLAMP insert_idx 0 G_MAXINT) new (get_routes priv))).
Proof.
  intros H. unfold nm_ndisc_add_route. rewrite H.
  by destruct (add_by_preference _ _ _ _ _ _).
Qed.

Lemma nm_ndisc_add_gateway_store_ok cap priv new :
  store_ok cap priv -> store_ok cap (fst (nm_ndisc_add_gateway priv new)).
Proof.
  intros ((L1 & L2 & L3 & L4 & L5) & V & M & C). rewrite nm_ndisc_add_gateway_eq.
  unfold store_ok, lifetimes_positive, get_routes, get_addresses in *. simpl.
  repeat split; auto. by apply add_loop_Forall.
Qed.

Lemma nm_ndisc_add_route_store_ok cap priv new :
  store_ok cap priv -> store_ok cap (fst (nm_ndisc_add_route priv new)).
Proof.
  intros H. destruct ((rt_plen new =? 0) || (rt_plen new >? 128)) eqn:E.
  { unfold nm_ndisc_add_route. by rewrite E. }
  destruct H as ((L1 & L2 & L3 & L4 & L5) & V & M & C). rewrite nm_ndisc_add_route_eq by done.
  unfold store_ok, lifetimes_positive, get_routes, get_addresses in *. simpl.
  repeat split; auto.
  - by apply add_loop_Forall.
  - apply add_loop_Forall; [done|]. intros _. apply orb_false_elim in E.
    unfold valid_plen. lia.
Qed.

Lemma nm_ndisc_add_dns_server_store_ok cap priv new :
  store_ok cap priv -> store_ok cap (fst (nm_ndisc_add_dns_server priv new)).
Proof.
  intros ((L1 & L2 & L3 & L4 & L5) & V & M & C). unfold nm_ndisc_add_dns_server.
  unfold store_ok, lifetimes_positive, get_routes, get_addresses, get_dns_servers in *.
  destruct (list_find _ _) as [[i item]|].
  - destruct (Z.eqb_spec (dns_lifetime new) 0); simpl.
    + repeat split; auto. by apply Forall_delete.
    + destruct (_ || _); simpl; repeat split; auto. by apply Forall_insert.
  - destruct (Z.eqb_spec (dns_lifetime new) 0); simpl; repeat split; auto.
    by apply Forall_g_array_insert_val.
Qed.

Lemma nm_ndisc_add_dns_domain_store_ok cap priv new :
  store_ok cap priv -> store_ok cap (fst (nm_ndisc_add_dns_domain priv new)).
Proof.
  intros ((L1 & L2 & L3 & L4 & L5) & V & M & C). unfold nm_ndisc_add_dns_domain.
  unfold store_ok, lifetimes_positive, get_routes, get_addresses, get_dns_domains in *.
  destruct (list_find _ _) as [[i item]|].
  - destruct (Z.eqb_spec (dom_lifetime new) 0); simpl.
    + repeat split; auto. by apply Forall_delete.
    + destruct (_ || _); simpl; repeat split; auto. by apply Forall_insert.
  - destruct (Z.eqb_spec (dom_lifetime new) 0); simpl; repeat split; auto.
    by apply Forall_g_array_insert_val.
Qed.

Lemma length_g_array_insert_val {T : Type} (arr : list T) (v : T) :
  length (g_array_insert_val arr (length arr) v) = S (length arr).
Proof.
  unfold g_array_insert_val. rewrite take_ge, drop_all by lia.
  rewrite length_app. simpl. lia.
Qed.

Lemma nm_ndisc_complete_and_add_address_store_ok cap priv new :
  store_ok cap priv -> store_ok cap (fst (fst (nm_ndisc_complete_and_add_address priv new))).
Proof.
  intros ((L1 & L2 & L3 & L4 & L5) & V & M & C).
  unfold nm_ndisc_complete_and_add_address.
  destruct (complete_address priv new) as [ok completed] eqn:Hc.
  apply complete_address_times in Hc. destruct Hc as (_ & Hl & _).
  unfold store_ok, lifetimes_positive, get_routes, get_addresses in *.
  destruct ok; simpl; [|done].
  destruct (list_find _ _) as [[i item]|].
  - destruct (Z.eqb_spec (addr_lifetime completed) 0); simpl.
    + repeat split; auto; [by apply Forall_delete|].
      intros H. specialize (C H).
      pose proof (sublist_length _ _ (sublist_delete (addresses (rdata priv)) i)). lia.
    + repeat split; auto; [by apply Forall_insert|].
      intros H. rewrite length_insert. auto.
  - destruct (negb (max_addresses priv =? 0) &&
              (Z.of_nat (length (addresses (rdata priv))) >=? to_guint32 (max_addresses priv)))
      eqn:Hfull; simpl; [done|].
    destruct (Z.eqb_spec (addr_lifetime completed) 0); simpl; [done|].
    repeat split; auto; [by apply Forall_g_array_insert_val|].
    intros H. specialize (C H). rewrite length_g_array_insert_val.
    rewrite M, to_guint32_small in Hfull by (unfold G_MAXINT32, G_MAXUINT32 in *; lia).
    apply andb_false_iff in Hfull. destruct Hfull as [Hfull|Hfull].
    + apply negb_false_iff, Z.eqb_eq in Hfull. lia.
    + destruct (Z.geb_spec (Z.of_nat (length (addresses (rdata priv)))) cap); [done | lia].
Qed.

Lemma dad_failed_loop_store address fuel : forall p i changed,
  Forall (fun x => addr_lifetime x <> 0) (get_addresses p) ->
  let r := dad_failed_loop fuel p address i changed in
  Forall (fun x => addr_lifetime x <> 0) (get_addresses (fst r)) /\
  (length (get_addresses (fst r)) <= length (get_addresses p))%nat /\
  fst r = set_addresses (get_addresses (fst r)) p.
Proof.
  assert (Hid : forall p, p = set_addresses (get_addresses p) p).
  { by intros [[] ]. }
  induction fuel as [|fuel IH]; intros p i changed HL; simpl; [by auto|].
  destruct (get_addresses p !! i) as [item|] eqn:Hi; [|by auto].
  destruct (negb (IN6_ARE_ADDR_EQUAL (addr_address item) address)); [by apply IH|].
  destruct (complete_address p item) as [ok item'] eqn:Hc.
  apply complete_address_times in Hc. destruct Hc as (_ & Hl & _).
  assert (HL' : Forall (fun x => addr_lifetime x <> 0) (<[i:=item']> (get_addresses p))).
  { apply Forall_insert; [done|]. rewrite Hl. by apply (Forall_lookup_1 _ _ _ _ HL Hi). }
  destruct ok; simpl.
  - edestruct (IH (set_addresses (<[i:=item']> (get_addresses p)) p) (S i) true)
      as (H1 & H2 & H3); [exact HL'|].
    split; [exact H1|]. split; [|exact H3].
    etrans; [exact H2|]. unfold get_addresses. simpl. by rewrite length_insert.
  - edestruct (IH (set_addresses
                     (delete i (get_addresses (set_addresses (<[i:=item']> (get_addresses p)) p)))
                     (set_addresses (<[i:=item']> (get_addresses p)) p)) i true)
      as (H1 & H2 & H3); [by apply Forall_delete|].
    split; [exact H1|]. split; [|exact H3].
    etrans; [exact H2|]. unfold get_addresses. simpl.
    etrans; [apply sublist_length, sublist_delete|]. by rewrite length_insert.
Qed.

Lemma dad_failed_loop_fuel address fuel : forall extra p i changed,
  (length (get_addresses p) <= i + fuel)%nat ->
  dad_failed_loop (fuel + extra) p address i changed
  = dad_failed_loop fuel p address i changed.
Proof.
  induction fuel as [|fuel IH]; intros extra p i changed Hlen.
  - destruct extra as [|extra]; [done|]. simpl.
    by rewrite (proj2 (lookup_ge_None (get_addresses p) i)) by lia.
  - simpl. destruct (get_addresses p !! i) as [item|] eqn:Hi; [|done].
    destruct (negb (IN6_ARE_ADDR_EQUAL (addr_address item) address)); [apply IH; lia|].
    destruct (complete_address p item) as [ok item'].
    destruct ok; simpl; apply IH; unfold get_addresses; simpl.
    + rewrite length_insert. unfold get_addresses in Hlen. lia.
    + rewrite length_delete, length_insert.
      * unfold get_addresses in Hlen. lia.
      * apply lookup_lt_is_Some. rewrite length_insert.
        apply lookup_lt_Some in Hi. exact Hi.
Qed.

Lemma nm_ndisc_dad_failed_store_ok cap priv address :
  store_ok cap priv -> store_ok cap (nm_ndisc_dad_failed priv address).
Proof.
  intros ((L1 & L2 & L3 & L4 & L5) & V & M & C). unfold nm_ndisc_dad_failed.
  pose proof (dad_failed_loop_store address (length (get_addresses priv)) priv 0%nat false L2)
    as (H1 & H2 & H3).
  destruct (dad_failed_loop _ _ _ _ _) as [p' changed]. simpl in H1, H2, H3.
  apply (store_ok_same cap (set_addresses (get_addresses p') priv)).
  - rewrite <- H3. by destruct changed.
  - rewrite <- H3. by destruct changed.
  - unfold store_ok, lifetimes_positive, get_routes, get_addresses in *. simpl.
    repeat split; auto. intros H. specialize (C H). lia.
Qed.

Lemma nm_ndisc_set_iid_store_ok cap priv new_iid clock :
  store_ok cap priv -> store_ok cap (fst (nm_ndisc_set_iid priv new_iid clock)).
Proof.
  intros H. unfold nm_ndisc_set_iid.
  destruct (negb (iid_id_eqb (iid priv) new_iid)); [|done].
  simpl. destruct (addr_gen_mode priv); simpl; [|by apply (store_ok_same cap priv)].
  destruct (negb (length _ =? 0)%nat); [|by apply (store_ok_same cap priv)].
  eapply store_ok_same; [apply solicit_rdata | apply solicit_max_addresses |].
  destruct H as ((L1 & L2 & L3 & L4 & L5) & V & M & C).
  unfold store_ok, lifetimes_positive, get_routes, get_addresses in *. simpl.
  rewrite drop_all. repeat split; auto. simpl. lia.
Qed.

Lemma step_store_ok cap priv c :
  store_ok cap priv -> store_ok cap (step priv c).
Proof.
  intros H. destruct c; simpl.
  - eapply store_ok_same; [apply nm_ndisc_start_rdata.. | done].
  - by apply nm_ndisc_add_gateway_store_ok.
  - by apply nm_ndisc_complete_and_add_address_store_ok.
  - by apply nm_ndisc_add_route_store_ok.
  - by apply nm_ndisc_add_dns_server_store_ok.
  - by apply nm_ndisc_add_dns_domain_store_ok.
  - by apply check_timestamps_store_ok.
  - by apply nm_ndisc_dad_failed_store_ok.
  - by apply nm_ndisc_set_iid_store_ok.
  - destruct (send_rs_id priv); [|done].
    eapply store_ok_same; [apply send_rs_timeout_rdata.. | done].
  - by destruct (ra_timeout_id priv).
  - destruct (timeout_id priv); [|done]. by apply check_timestamps_store_ok.
Qed.

Lemma run_store_ok cap calls : forall priv,
  store_ok cap priv -> store_ok cap (run calls priv).
Proof.
  induction calls as [|c calls IH]; intros priv H; simpl; [done|].
  apply IH. by apply step_store_ok.
Qed.

Lemma nm_ndisc_new_store_ok ifname_ network_id_ mode stable_type_ cap rs rsi :
  store_ok cap (nm_ndisc_new ifname_ network_id_ mode stable_type_ cap rs rsi).
Proof.
  unfold store_ok, lifetimes_positive. simpl. repeat split; auto. simpl. lia.
Qed.

(** ** The pacer during a burst *)

Lemma count_events_app f tr e :
  count_events f (tr ++ [e]) = count_events f tr + (if f e then 1 else 0).
Proof.
  unfold count_events. rewrite filter_app, length_app, Nat2Z.inj_add. f_equal.
  rewrite filter_cons, filter_nil. destruct (f e); by case_decide.
Qed.

Lemma count_events_send_rs tr :
  count_events is_send_rs tr
  = count_events is_send_rs_ok tr + count_events is_send_rs_error tr.
Proof.
  unfold count_events. rewrite <- Nat2Z.inj_add. f_equal.
  induction tr as [|e tr IH]; [done|].
  rewrite !filter_cons.
  destruct e as [| | [|] |]; simpl; repeat case_decide; simpl; try done; lia.
Qed.

(** While a burst runs, the solicitations that succeeded and the ones
    that are left add up to what they were, and every error in the trace
    comes from a tick that reported one. *)
Lemma rs_burst_balance ticks : forall p,
  (send_rs_id p <> None -> 1 <= solicitations_left p) ->
  0 <= solicitations_left p <= G_MAXINT32 ->
  0 <= solicitations_left (rs_burst ticks p) /\
  count_events is_send_rs_ok (trace (rs_burst ticks p)) + solicitations_left (rs_burst ticks p)
    = count_events is_send_rs_ok (trace p) + solicitations_left p /\
  count_events is_send_rs_error (trace (rs_burst ticks p))
    <= count_events is_send_rs_error (trace p) + count_error_ticks ticks.
Proof.
  assert (Hnn : forall l, 0 <= count_error_ticks l).
  { intros l. unfold count_error_ticks. lia. }
  induction ticks as [|t ticks IH]; intros p Harmed Hleft; simpl.
  { unfold count_error_ticks. simpl. lia. }
  assert (Hcons : count_error_ticks (t :: ticks)
                  = (if result_is_error (tick_result t) then 1 else 0) + count_error_ticks ticks).
  { unfold count_error_ticks. rewrite filter_cons.
    destruct (result_is_error (tick_result t)); case_decide; simpl length; try done; lia. }
  destruct (send_rs_id p) as [secs|] eqn:Hid.
  2:{ specialize (Hnn (t :: ticks)). lia. }
  assert (H1 : 1 <= solicitations_left p) by (apply Harmed; done).
  unfold send_rs_timeout. destruct (tick_netns_ok t); simpl.
  2:{ edestruct (IH (set_send_rs_id None p)) as (A & B & C); [done | exact Hleft |].
      simpl in *. rewrite Hcons. destruct (result_is_error _); lia. }
  destruct (tick_result t) as [|message]; simpl in *.
  - rewrite (to_gint32_small (solicitations_left p - 1))
      by (unfold G_MININT32, G_MAXINT32 in *; lia).
    destruct (Z.gtb_spec (solicitations_left p - 1) 0) as [Hmore|Hlast].
    + match goal with |- context [rs_burst ticks ?q] => edestruct (IH q) as (A & B & C) end;
        [ simpl; intros _; lia | simpl; lia |].
      simpl in *. rewrite !count_events_app in *. simpl in *. lia.
    + match goal with |- context [rs_burst ticks ?q] => edestruct (IH q) as (A & B & C) end;
        [ simpl; done | simpl; lia |].
      simpl in *. rewrite !count_events_app in *. simpl in *. lia.
  - assert (Hgt : (solicitations_left p >? 0) = true) by (apply Z.gtb_lt; lia).
    destruct (negb (g_strcmp0_equal (last_send_rs_error p) (Some message))); simpl;
      rewrite Hgt;
      (match goal with |- context [rs_burst ticks ?q] => edestruct (IH q) as (A & B & C) end;
        [ simpl; intros _; lia | simpl; lia |]);
      simpl in *; rewrite !count_events_app in *; simpl in *; lia.
Qed.

(** * Properties of the engine *)

(** C1, preference order of gateways and routes: the code does not keep it.
    A new item is put before the first less preferable item, but when no
    stored item is less preferable [insert_idx] is still -1 and the item goes
    to position [MAX (insert_idx, 0)] (for routes [CLAMP (insert_idx, 0,
    G_MAXINT)]), the head, in front of more preferable items.  Adding a
    gateway of high preference and then one of low preference to an empty
    engine stores them as low, high; the same holds for routes; and two
    gateways of equal preference are stored in the reverse of insertion
    order. *)
Theorem head_insert_breaks_preference_order :
  get_gateways
    (fst (nm_ndisc_add_gateway
            (fst (nm_ndisc_add_gateway sample_engine
                    (sample_gateway 1 NM_NDISC_PREFERENCE_HIGH 1800)))
            (sample_gateway 2 NM_NDISC_PREFERENCE_LOW 1800)))
    = [sample_gateway 2 NM_NDISC_PREFERENCE_LOW 1800;
       sample_gateway 1 NM_NDISC_PREFERENCE_HIGH 1800] /\
  ~ preference_ordered gw_preference
      (get_gateways
         (fst (nm_ndisc_add_gateway
                 (fst (nm_ndisc_add_gateway sample_engine
                         (sample_gateway 1 NM_NDISC_PREFERENCE_HIGH 1800)))
                 (sample_gateway 2 NM_NDISC_PREFERENCE_LOW 1800)))) /\
  ~ preference_ordered rt_preference
      (get_routes
         (fst (nm_ndisc_add_route
                 (fst (nm_ndisc_add_route sample_engine
                         (sample_route 1 64 NM_NDISC_PREFERENCE_HIGH 1800)))
                 (sample_route 2 64 NM_NDISC_PREFERENCE_LOW 1800)))) /\
  get_gateways
    (fst (nm_ndisc_add_gateway
            (fst (nm_ndisc_add_gateway sample_engine
                    (sample_gateway 1 NM_NDISC_PREFERENCE_MEDIUM 1800)))
            (sample_gateway 2 NM_NDISC_PREFERENCE_MEDIUM 1800)))
    = [sample_gateway 2 NM_NDISC_PREFERENCE_MEDIUM 1800;
       sample_gateway 1 NM_NDISC_PREFERENCE_MEDIUM 1800].
Proof.
  split; [reflexivity|]. split; [|split; [|reflexivity]].
  - intros H.
    specialize (H 0%nat 1%nat (sample_gateway 2 NM_NDISC_PREFERENCE_LOW 1800)
                  (sample_gateway 1 NM_NDISC_PREFERENCE_HIGH 1800)).
    vm_compute in H. apply H; reflexivity || lia.
  - intros H.
    specialize (H 0%nat 1%nat (sample_route 2 64 NM_NDISC_PREFERENCE_LOW 1800)
                  (sample_route 1 64 NM_NDISC_PREFERENCE_HIGH 1800)).
    vm_compute in H. apply H; reflexivity || lia.
Qed.

(** C2 as amended, the bound on solicitations in a burst.  In the burst
    that [solicit] starts, for every sequence of ticks, the transport's
    [send_rs] succeeds at most [router_solicitations] times; a failed send
    is not counted and is tried again, so [send_rs] is called at most
    [router_solicitations] times plus once per tick that reports an error. *)
Theorem rs_burst_successes_bounded priv clock ticks :
  send_rs_id priv = None ->
  1 <= router_solicitations priv <= G_MAXINT32 ->
  burst_successes priv clock ticks <= router_solicitations priv /\
  burst_sends priv clock ticks <= router_solicitations priv + count_error_ticks ticks.
Proof.
  intros Hid Hrs. unfold burst_successes, burst_sends.
  rewrite !count_events_send_rs.
  destruct (rs_burst_balance ticks (solicit priv clock)) as (A & B & C).
  - unfold solicit. rewrite Hid. simpl. lia.
  - unfold solicit. rewrite Hid. simpl. lia.
  - rewrite solicit_trace in B, C.
    assert (Hleft : solicitations_left (solicit priv clock) = router_solicitations priv).
    { unfold solicit. by rewrite Hid. }
    lia.
Qed.

(** C3 as amended, what [complete_address] leaves alone.  Given that the
    stable-privacy derivation writes only the low 64 bits and writes nothing
    when it fails: in both modes the high 64 bits, the timestamp and the two
    lifetimes are unchanged whatever is returned; on failure the whole
    address is unchanged, and so is the whole record in EUI-64 mode, while in
    stable-privacy mode the record differs from the old one exactly in
    [dad_counter], which the failed call has advanced by one. *)
Theorem complete_address_frame priv addr ok addr' :
  stable_privacy_contract nm_utils_ipv6_addr_set_stable_privacy ->
  complete_address priv addr = (ok, addr') ->
  s6_addr32_0 (addr_address addr') = s6_addr32_0 (addr_address addr) /\
  s6_addr32_1 (addr_address addr') = s6_addr32_1 (addr_address addr) /\
  addr_timestamp addr' = addr_timestamp addr /\
  addr_lifetime addr' = addr_lifetime addr /\
  addr_preferred addr' = addr_preferred addr /\
  (ok = false ->
   addr_address addr' = addr_address addr /\
   match addr_gen_mode priv with
   | NM_SETTING_IP6_CONFIG_ADDR_GEN_MODE_EUI64 => addr' = addr
   | NM_SETTING_IP6_CONFIG_ADDR_GEN_MODE_STABLE_PRIVACY =>
       addr' = set_addr_dad_counter
                 (wrap_unsigned dad_counter_bits (addr_dad_counter addr + 1)) addr
   end).
Proof.
  intros Hsp Hc. pose proof (complete_address_times _ _ _ _ Hc) as (Ht & Hl & Hp).
  unfold complete_address in Hc. destruct (addr_gen_mode priv).
  - destruct (iid_id_is_zero (iid priv)).
    { injection Hc as <- <-. repeat split; done. }
    destruct (_ && _); injection Hc as <- <-; repeat split; done.
  - simpl in Hc.
    specialize (Hsp (stable_type priv) (addr_address addr) (ifname priv) (network_id priv)
                  (addr_dad_counter addr)).
    destruct (nm_utils_ipv6_addr_set_stable_privacy _ _ _ _ _) as [ok' address].
    simpl in Hsp. destruct Hsp as (H0 & H1 & Hfail).
    destruct ok'; injection Hc as <- <-; simpl; repeat split; try done.
    + by rewrite Hfail.
    + rewrite Hfail by done. by destruct addr.
Qed.

(** C4, [nm_ndisc_set_iid].  With an identifier that differs from the
    stored one: in stable-privacy mode it is stored, nothing else changes
    and the result is false; in EUI-64 mode it is stored, and when there are
    addresses the list is emptied, [config_changed] is emitted with the
    ADDRESSES bit over the emptied list, [solicit] is called, and the result
    is true (as it is when there are no addresses, where only the identifier
    is stored).  With the stored identifier nothing changes and the result
    is false. *)
Theorem nm_ndisc_set_iid_spec priv new_iid clock :
  (iid_id_eqb (iid priv) new_iid = false ->
   match addr_gen_mode priv with
   | NM_SETTING_IP6_CONFIG_ADDR_GEN_MODE_STABLE_PRIVACY =>
       nm_ndisc_set_iid priv new_iid clock = (set_iid new_iid priv, false) /\
       get_addresses (fst (nm_ndisc_set_iid priv new_iid clock)) = get_addresses priv
   | NM_SETTING_IP6_CONFIG_ADDR_GEN_MODE_EUI64 =>
       (get_addresses priv <> [] ->
        nm_ndisc_set_iid priv new_iid clock
          = (solicit (_emit_config_change (set_addresses [] (set_iid new_iid priv))
                        NM_NDISC_CONFIG_ADDRESSES) clock, true) /\
        get_addresses (fst (nm_ndisc_set_iid priv new_iid clock)) = [] /\
        iid (fst (nm_ndisc_set_iid priv new_iid clock)) = new_iid /\
        trace (fst (nm_ndisc_set_iid priv new_iid clock))
          = trace priv ++ [CONFIG_CHANGED (rdata (set_addresses [] priv))
                             NM_NDISC_CONFIG_ADDRESSES]) /\
       (get_addresses priv = [] ->
        nm_ndisc_set_iid priv new_iid clock = (set_iid new_iid priv, true))
   end) /\
  (iid_id_eqb (iid priv) new_iid = true ->
   nm_ndisc_set_iid priv new_iid clock = (priv, false)).
Proof.
  unfold nm_ndisc_set_iid. split; intros ->; simpl; [|done].
  destruct (addr_gen_mode priv); simpl; [|done].
  split; intros Ha.
  - destruct (get_addresses priv) as [|a l] eqn:E; [done|].
    unfold get_addresses in *. simpl. rewrite E. simpl. rewrite drop_all.
    split; [done|]. unfold solicit. simpl.
    destruct (send_rs_id priv); simpl; done.
  - unfold get_addresses in *. simpl. by rewrite Ha.
Qed.

(** C5, expiry drives removal.  After a sweep at [now], every item that is
    still in one of the five arrays has the infinite lifetime, or its
    timestamp plus its lifetime, in 64-bit arithmetic, is greater than
    [now]. *)
Theorem check_timestamps_unexpired priv clock now changed :
  all_unexpired now (rdata (check_timestamps priv clock now changed)).
Proof.
  destruct (check_timestamps_rdata priv clock now changed) as (p' & c' & n' & E & Hr & _).
  rewrite Hr. by apply clean_all_spec in E as (H & _).
Qed.

Lemma list_find_first_match {T : Type} (test : T -> bool) (arr : list T) :
  match list_find (fun x => test x = true) arr with
  | Some (i, item) => first_match test arr i /\ arr !! i = Some item /\ test item = true
  | None => no_match test arr
  end.
Proof.
  destruct (list_find _ arr) as [[i item]|] eqn:E.
  - apply list_find_Some in E as (Hi & Ht & Hpre).
    split; [|done]. split; [by exists item|].
    intros j x Hj Hx. specialize (Hpre j x Hx Hj). by destruct (test x).
  - apply list_find_None in E. intros x Hx.
    rewrite Forall_forall in E. specialize (E x Hx). by destruct (test x).
Qed.

(** C6, an item of lifetime 0 withdraws.  Each of the five add operations,
    given an item of lifetime 0, removes the first stored item that has its
    identity and reports a change, or finds none, leaves the array as it is
    and reports no change; nothing else in the engine is touched.  (For an
    address the identity is that of the completed address, and nothing
    happens when completion fails; for a route the stored prefix lengths are
    those that [nm_ndisc_add_route] lets through.)  Consequently, whatever
    the calls made on a new engine, every stored item has a non-zero
    lifetime. *)
Theorem zero_lifetime_withdraws :
  (forall priv new, gw_lifetime new = 0 ->
     withdraws (fun item => gateway_same_identity item new) (get_gateways priv)
       (get_gateways (fst (nm_ndisc_add_gateway priv new)))
       (snd (nm_ndisc_add_gateway priv new)) /\
     fst (nm_ndisc_add_gateway priv new)
       = set_gateways (get_gateways (fst (nm_ndisc_add_gateway priv new))) priv) /\
  (forall priv new, addr_lifetime new = 0 ->
     let r := nm_ndisc_complete_and_add_address priv new in
     snd (fst r) = snd (complete_address priv new) /\
     if fst (complete_address priv new)
     then withdraws (fun item => IN6_ARE_ADDR_EQUAL (addr_address item)
                                   (addr_address (snd (fst r))))
            (get_addresses priv) (get_addresses (fst (fst r))) (snd r) /\
          fst (fst r) = set_addresses (get_addresses (fst (fst r))) priv
     else fst (fst r) = priv /\ snd r = false) /\
  (forall priv new, rt_lifetime new = 0 -> Forall valid_plen (get_routes priv) ->
     withdraws (fun item => route_same_identity item new) (get_routes priv)
       (get_routes (fst (nm_ndisc_add_route priv new)))
       (snd (nm_ndisc_add_route priv new)) /\
     fst (nm_ndisc_add_route priv new)
       = set_routes (get_routes (fst (nm_ndisc_add_route priv new))) priv) /\
  (forall priv new, dns_lifetime new = 0 ->
     withdraws (fun item => IN6_ARE_ADDR_EQUAL (dns_address item) (dns_address new))
       (get_dns_servers priv)
       (get_dns_servers (fst (nm_ndisc_add_dns_server priv new)))
       (snd (nm_ndisc_add_dns_server priv new)) /\
     fst (nm_ndisc_add_dns_server priv new)
       = set_dns_servers (get_dns_servers (fst (nm_ndisc_add_dns_server priv new))) priv) /\
  (forall priv new, dom_lifetime new = 0 ->
     withdraws (fun item => g_strcmp0_equal (dom_domain item) (dom_domain new))
       (get_dns_domains priv)
       (get_dns_domains (fst (nm_ndisc_add_dns_domain priv new)))
       (snd (nm_ndisc_add_dns_domain priv new)) /\
     fst (nm_ndisc_add_dns_domain priv new)
       = set_dns_domains (get_dns_domains (fst (nm_ndisc_add_dns_domain priv new))) priv) /\
  (forall calls ifname_ network_id_ mode stable_type_ max_addresses_ rs rsi,
     lifetimes_positive
       (rdata (run calls (nm_ndisc_new ifname_ network_id_ mode stable_type_
                            max_addresses_ rs rsi))) /\
     Forall valid_plen
       (get_routes (run calls (nm_ndisc_new ifname_ network_id_ mode stable_type_
                                 max_addresses_ rs rsi)))).
Proof.
  assert (Hid : forall p : NMNDiscPrivate,
            p = set_gateways (get_gateways p) p /\ p = set_addresses (get_addresses p) p /\
            p = set_routes (get_routes p) p /\ p = set_dns_servers (get_dns_servers p) p /\
            p = set_dns_domains (get_dns_domains p) p).
  { by intros [[] ]. }
  split; [|split; [|split; [|split; [|split]]]].
  - intros priv new Hz. rewrite nm_ndisc_add_gateway_eq. simpl. split; [|done].
    unfold add_by_preference. apply add_loop_withdraws; [done | lia |]. intros j x Hj. lia.
  - intros priv new Hz. unfold nm_ndisc_complete_and_add_address.
    destruct (complete_address priv new) as [ok completed] eqn:Hc.
    apply complete_address_times in Hc as (_ & Hl & _). rewrite Hz in Hl.
    destruct ok; simpl; [|done].
    pose proof (list_find_first_match
                  (fun item => IN6_ARE_ADDR_EQUAL (addr_address item) (addr_address completed))
                  (get_addresses priv)) as Hf.
    destruct (list_find _ _) as [[i item]|]; rewrite Hl; simpl.
    + split; [done|]. split; [|done]. left. exists i. by destruct Hf as (? & _).
    + destruct (_ && _); simpl; (split; [done|]); (split; [by right | apply Hid]).
  - intros priv new Hz Hv.
    destruct ((rt_plen new =? 0) || (rt_plen new >? 128)) eqn:E.
    + unfold nm_ndisc_add_route. rewrite E. simpl. split; [|apply Hid].
      right. split; [|done]. intros x Hx.
      rewrite Forall_forall in Hv. destruct (Hv x Hx) as [H0 H128].
      unfold route_same_identity. apply andb_false_iff. right.
      apply Z.eqb_neq. apply orb_true_iff in E. lia.
    + rewrite nm_ndisc_add_route_eq by done. simpl. split; [|done].
      unfold add_by_preference. apply add_loop_withdraws; [done | lia |].
      intros j x Hj. lia.
  - intros priv new Hz. unfold nm_ndisc_add_dns_server.
    pose proof (list_find_first_match
                  (fun item => IN6_ARE_ADDR_EQUAL (dns_address item) (dns_address new))
                  (get_dns_servers priv)) as Hf.
    destruct (list_find _ _) as [[i item]|]; rewrite Hz; simpl.
    + split; [|done]. left. exists i. by destruct Hf as (? & _).
    + split; [by right | apply Hid].
  - intros priv new Hz. unfold nm_ndisc_add_dns_domain.
    pose proof (list_find_first_match
                  (fun item => g_strcmp0_equal (dom_domain item) (dom_domain new))
                  (get_dns_domains priv)) as Hf.
    destruct (list_find _ _) as [[i item]|]; rewrite Hz; simpl.
    + split; [|done]. left. exists i. by destruct Hf as (? & _).
    + split; [by right | apply Hid].
  - intros calls ifname_ network_id_ mode stable_type_ cap rs rsi.
    pose proof (run_store_ok cap calls _
                  (nm_ndisc_new_store_ok ifname_ network_id_ mode stable_type_ cap rs rsi))
      as (L & V & _).
    done.
Qed.

(** C7, the cap on addresses.  With [max_addresses > 0], whatever the calls
    made on a new engine, the address array never holds more than
    [max_addresses] items; and an address that completes, has a non-zero
    lifetime and matches no stored address is appended when the array is
    below the cap, and otherwise dropped with nothing changed and no change
    reported. *)
Theorem max_addresses_enforced :
  (forall calls ifname_ network_id_ mode stable_type_ cap rs rsi,
     0 < cap <= G_MAXINT32 ->
     Z.of_nat (length (get_addresses
                         (run calls (nm_ndisc_new ifname_ network_id_ mode stable_type_
                                       cap rs rsi)))) <= cap) /\
  (forall priv new,
     0 < max_addresses priv <= G_MAXINT32 ->
     fst (complete_address priv new) = true ->
     addr_lifetime new <> 0 ->
     no_match (fun item => IN6_ARE_ADDR_EQUAL (addr_address item)
                             (addr_address (snd (complete_address priv new))))
       (get_addresses priv) ->
     nm_ndisc_complete_and_add_address priv new =
     if Z.of_nat (length (get_addresses priv)) <? max_addresses priv
     then (set_addresses (get_addresses priv ++ [snd (complete_address priv new)]) priv,
           snd (complete_address priv new), true)
     else (priv, snd (complete_address priv new), false)).
Proof.
  split.
  - intros calls ifname_ network_id_ mode stable_type_ cap rs rsi Hcap.
    pose proof (run_store_ok cap calls _
                  (nm_ndisc_new_store_ok ifname_ network_id_ mode stable_type_ cap rs rsi))
      as (_ & _ & _ & C).
    by apply C.
  - intros priv new Hcap Hok Hnz Hno. unfold nm_ndisc_complete_and_add_address.
    destruct (complete_address priv new) as [ok completed] eqn:Hc.
    apply complete_address_times in Hc as (_ & Hl & _).
    simpl in Hok, Hno. subst ok. simpl.
    assert (Hfind : list_find
                      (fun item => IN6_ARE_ADDR_EQUAL (addr_address item)
                                     (addr_address completed) = true)
                      (get_addresses priv) = None).
    { apply list_find_None, Forall_forall. intros x Hx. rewrite (Hno x Hx). done. }
    rewrite Hfind. rewrite to_guint32_small by (unfold G_MAXINT32, G_MAXUINT32 in *; lia).
    assert (Hcapnz : negb (max_addresses priv =? 0) = true).
    { apply negb_true_iff, Z.eqb_neq. lia. }
    rewrite Hcapnz. simpl.
    destruct (Z.ltb_spec (Z.of_nat (length (get_addresses priv))) (max_addresses priv)),
             (Z.geb_spec (Z.of_nat (length (get_addresses priv))) (max_addresses priv));
      try lia; [|done].
    destruct (Z.eqb_spec (addr_lifetime completed) 0); [congruence|]. simpl.
    unfold g_array_insert_val. by rewrite take_ge, drop_all by lia.
Qed.

(** C8, a refreshed gateway.  When the first stored gateway with the
    address of the new one has its preference, and the new lifetime is not
    0, [nm_ndisc_add_gateway] overwrites that item with the new one where it
    is, whatever the timestamps and lifetimes, and returns false. *)
Theorem add_gateway_refresh_in_place priv new pre item post :
  get_gateways priv = pre ++ item :: post ->
  no_match (fun x => gateway_same_identity x new) pre ->
  gateway_same_identity item new = true ->
  gw_preference item = gw_preference new ->
  gw_lifetime new <> 0 ->
  nm_ndisc_add_gateway priv new = (set_gateways (pre ++ new :: post) priv, false).
Proof.
  intros Harr Hpre Hid Hpref Hnz. rewrite nm_ndisc_add_gateway_eq.
  unfold add_by_preference. rewrite Harr.
  rewrite (add_loop_in_place gateway_same_identity gw_lifetime gw_preference _ new item
             (length pre)); try done; try lia.
  - simpl. rewrite insert_app_r_alt, Nat.sub_diag by lia. done.
  - apply list_lookup_middle. done.
  - intros j x Hj Hx. apply Hpre. rewrite lookup_app_l in Hx by lia.
    apply list_elem_of_lookup. by exists j.
Qed.

(** C9, the first-RA timeout.  [nm_ndisc_start], on an engine that has not
    been started and can enter its namespace, with [router_solicitations]
    and [router_solicitation_interval] at least 1, arms the timeout with
    exactly clamp (router_solicitations * router_solicitation_interval + 1,
    30, 120) seconds; the 64-bit computation does not wrap.  When that
    timer fires, the slot is cleared and [ra_timeout] is emitted. *)
Theorem nm_ndisc_start_arms_ra_timeout priv clock :
  ra_timeout_id priv = None ->
  1 <= router_solicitations priv <= G_MAXINT32 ->
  1 <= router_solicitation_interval priv <= G_MAXINT32 ->
  ra_timeout_id (nm_ndisc_start priv true clock)
    = Some (Z.max 30 (Z.min 120
              (router_solicitations priv * router_solicitation_interval priv + 1))) /\
  step (nm_ndisc_start priv true clock) Fire_ra_timeout
    = ndisc_ra_timeout_cb (nm_ndisc_start priv true clock) /\
  ra_timeout_id (ndisc_ra_timeout_cb (nm_ndisc_start priv true clock)) = None /\
  trace (ndisc_ra_timeout_cb (nm_ndisc_start priv true clock))
    = trace (nm_ndisc_start priv true clock) ++ [RA_TIMEOUT].
Proof.
  intros Hid Hrs Hrsi.
  assert (Harmed : ra_timeout_id (nm_ndisc_start priv true clock)
            = Some (Z.max 30 (Z.min 120
                      (router_solicitations priv * router_solicitation_interval priv + 1)))).
  { unfold nm_ndisc_start. rewrite Hid. simpl. rewrite solicit_ra_timeout_id. simpl.
    unfold G_MAXINT32 in *.
    rewrite (to_gint64_small (_ * _)) by nia.
    rewrite to_gint64_small by nia.
    rewrite CLAMP_spec by lia.
    rewrite to_guint32_small by (unfold G_MAXUINT32; lia). done. }
  split; [exact Harmed|]. split; [|done].
  simpl. by rewrite Harmed.
Qed.

(** C10, the deadline of the next sweep.  After the five passes of a sweep
    at [now] over a store whose lifetimes are all non-zero, a deadline other
    than the `never' value is greater than [now]: the assertion before the
    timer is re-armed holds, and the timer is armed with the difference. *)
Theorem sweep_deadline_after_now priv clock now changed priv' changed' nextevent :
  lifetimes_positive (rdata priv) ->
  clean_all (set_timeout_id None priv) clock now changed = (priv', changed', nextevent) ->
  nextevent <> never ->
  nextevent > now /\
  timeout_id (check_timestamps priv clock now changed)
    = Some (to_guint32 (nextevent - now)).
Proof.
  intros _ E Hn. pose proof (clean_all_spec _ _ _ _ _ _ _ E) as (_ & (_ & Hlate) & _).
  specialize (Hlate Hn). split; [lia|].
  unfold check_timestamps. rewrite E.
  destruct (Z.eqb_spec nextevent never); [done|]. simpl.
  destruct (Z.gtb_spec nextevent now); [|lia].
  by destruct (negb (changed' =? 0)).
Qed.

(** * Further properties *)

(** ** The sweeper's loops, exactly *)

Lemma take_delete_same {T : Type} (l : list T) (i : nat) :
  (i < length l)%nat -> take i (delete i l) = take i l.
Proof.
  intros H. rewrite delete_take_drop, take_app_le, take_take, Nat.min_id; [done|].
  rewrite length_take. lia.
Qed.

Lemma drop_delete_same {T : Type} (l : list T) (i : nat) :
  (i < length l)%nat -> drop i (delete i l) = drop (S i) l.
Proof.
  intros H. rewrite delete_take_drop. apply drop_app_length'.
  rewrite length_take. lia.
Qed.

Lemma solicit_idem p clock clock' : solicit (solicit p clock) clock' = solicit p clock.
Proof. unfold solicit. destruct (send_rs_id p) eqn:E; simpl; [by rewrite E | done]. Qed.

Lemma solicit_pacer_ext p q clock :
  pacer_of p = pacer_of q -> pacer_of (solicit p clock) = pacer_of (solicit q clock).
Proof.
  unfold pacer_of. intros H. injection H as H1 H2 H3 H4 H5.
  unfold solicit. rewrite H2. destruct (send_rs_id q) eqn:E; simpl.
  - by rewrite H1, H2, H3, H4, H5, E.
  - by rewrite H3, H4, H5.
Qed.

Section SweepFacts.
Context {T : Type}.
Variable get : NMNDiscPrivate -> list T.
Variable set : list T -> NMNDiscPrivate -> NMNDiscPrivate.
Variable timestamp : T -> Z.
Variable lifetime : T -> Z.
Variable config_bit : Z.
Hypothesis get_set : forall l p, get (set l p) = l.
Hypothesis get_solicit : forall p clock, get (solicit p clock) = get p.
Hypothesis pacer_set : forall l p, pacer_of (set l p) = pacer_of p.

(** What stays is exactly what the test keeps, in its order, and the bit
    of the array is set exactly when an item went. *)
Lemma clean_loop_exact now fuel : forall p i c n p' c' n',
  (length (get p) <= i + fuel)%nat ->
  clean_loop get set timestamp lifetime config_bit fuel p now i c n = (p', c', n') ->
  get p' = take i (get p)
           ++ filter (fun x => keptb timestamp lifetime now x = true) (drop i (get p)) /\
  c' = mark_expired timestamp lifetime now (drop i (get p)) config_bit c.
Proof.
  unfold mark_expired.
  induction fuel as [|fuel IH]; intros p i c n p' c' n' Hlen Hrun.
  - simpl in Hrun. injection Hrun as <- <- <-.
    rewrite take_ge, drop_ge by lia. simpl. by rewrite app_nil_r.
  - simpl in Hrun. destruct (get p !! i) as [item|] eqn:Hi.
    2:{ injection Hrun as <- <- <-. apply lookup_ge_None in Hi.
        rewrite take_ge, drop_ge by lia. simpl. by rewrite app_nil_r. }
    pose proof (lookup_lt_Some _ _ _ Hi) as Hlt.
    rewrite (drop_S _ _ _ Hi). cbn [forallb].
    assert (Hkeep : keptb timestamp lifetime now item = true ->
              forall cq nq,
              clean_loop get set timestamp lifetime config_bit fuel p now (S i) cq nq
                = (p', c', n') ->
              get p' = take i (get p)
                       ++ filter (fun x => keptb timestamp lifetime now x = true)
                            (item :: drop (S i) (get p)) /\
              c' = (if keptb timestamp lifetime now item
                       && forallb (keptb timestamp lifetime now) (drop (S i) (get p))
                    then cq else Z.lor cq config_bit)).
    { intros Hk cq nq Hq. apply IH in Hq; [|lia].
      destruct Hq as [-> ->]. rewrite Hk. split; [|done].
      rewrite (take_S_r _ _ _ Hi), <- app_assoc. simpl.
      by rewrite filter_cons_True. }
    destruct (Z.eqb_spec (lifetime item) G_MAXUINT32) as [Hinf|Hfin].
    { apply (Hkeep ltac:(unfold keptb; by rewrite Hinf, Z.eqb_refl) c n). done. }
    destruct (now >=? item_expiry timestamp lifetime item) eqn:Hexp.
    { apply IH in Hrun; [|rewrite get_set, length_delete by eauto; lia].
      rewrite get_set, take_delete_same, drop_delete_same in Hrun by done.
      destruct Hrun as [-> ->].
      assert (Hk : keptb timestamp lifetime now item = false).
      { unfold keptb. by rewrite (proj2 (Z.eqb_neq _ _) Hfin), Hexp. }
      rewrite Hk. split.
      - rewrite filter_cons_False; [done|]. rewrite Hk. by intros ?.
      - simpl. destruct (forallb _ _); [done|]. by rewrite <- Z.lor_assoc, Z.lor_diag. }
    assert (Hk : keptb timestamp lifetime now item = true).
    { unfold keptb. by rewrite (proj2 (Z.eqb_neq _ _) Hfin), Hexp. }
    destruct (n >? item_expiry timestamp lifetime item); by eapply Hkeep.
Qed.

(** The same for the loop of the DNS arrays; its calls of [solicit] come
    down to one call when an item that stays has reached its midpoint, and to
    none otherwise. *)
Lemma clean_refresh_loop_exact clock now fuel : forall p i c n p' c' n',
  (length (get p) <= i + fuel)%nat ->
  clean_refresh_loop get set timestamp lifetime config_bit fuel p clock now i c n
    = (p', c', n') ->
  get p' = take i (get p)
           ++ filter (fun x => keptb timestamp lifetime now x = true) (drop i (get p)) /\
  c' = mark_expired timestamp lifetime now (drop i (get p)) config_bit c /\
  pacer_of p' = pacer_of (if existsb (refresh_dueb timestamp lifetime now) (drop i (get p))
                          then solicit p clock else p).
Proof.
  unfold mark_expired.
  induction fuel as [|fuel IH]; intros p i c n p' c' n' Hlen Hrun.
  - simpl in Hrun. injection Hrun as <- <- <-.
    rewrite take_ge, drop_ge by lia. simpl. by rewrite app_nil_r.
  - simpl in Hrun. destruct (get p !! i) as [item|] eqn:Hi.
    2:{ injection Hrun as <- <- <-. apply lookup_ge_None in Hi.
        rewrite take_ge, drop_ge by lia. simpl. by rewrite app_nil_r. }
    pose proof (lookup_lt_Some _ _ _ Hi) as Hlt.
    rewrite (drop_S _ _ _ Hi). cbn [forallb existsb].
    assert (Hkeep : keptb timestamp lifetime now item = true ->
              forall q cq nq, get q = get p ->
              clean_refresh_loop get set timestamp lifetime config_bit fuel q clock now (S i)
                cq nq = (p', c', n') ->
              get p' = take i (get p)
                       ++ filter (fun x => keptb timestamp lifetime now x = true)
                            (item :: drop (S i) (get p)) /\
              c' = (if keptb timestamp lifetime now item
                       && forallb (keptb timestamp lifetime now) (drop (S i) (get p))
                    then cq else Z.lor cq config_bit) /\
              pacer_of p' = pacer_of (if existsb (refresh_dueb timestamp lifetime now)
                                           (drop (S i) (get p))
                                      then solicit q clock else q)).
    { intros Hk q cq nq Hq Hq'. apply IH in Hq'; [|rewrite Hq; lia].
      rewrite Hq in Hq'. destruct Hq' as (-> & -> & ->). rewrite Hk. split; [|done].
      rewrite (take_S_r _ _ _ Hi), <- app_assoc. simpl.
      by rewrite filter_cons_True. }
    destruct (Z.eqb_spec (lifetime item) G_MAXUINT32) as [Hinf|Hfin].
    { assert (Hd : refresh_dueb timestamp lifetime now item = false).
      { unfold refresh_dueb. by rewrite Hinf, Z.eqb_refl. }
      rewrite Hd.
      apply (Hkeep ltac:(unfold keptb; by rewrite Hinf, Z.eqb_refl) p c n); done. }
    destruct (now >=? item_expiry timestamp lifetime item) eqn:Hexp.
    { apply IH in Hrun; [|rewrite get_set, length_delete by eauto; lia].
      rewrite get_set, take_delete_same, drop_delete_same in Hrun by done.
      destruct Hrun as (-> & -> & ->).
      assert (Hk : keptb timestamp lifetime now item = false).
      { unfold keptb. by rewrite (proj2 (Z.eqb_neq _ _) Hfin), Hexp. }
      assert (Hd : refresh_dueb timestamp lifetime now item = false).
      { unfold refresh_dueb. by rewrite (proj2 (Z.eqb_neq _ _) Hfin), Hexp. }
      rewrite Hk, Hd. split; [|split].
      - rewrite filter_cons_False; [done|]. rewrite Hk. by intros ?.
      - simpl. destruct (forallb _ _); [done|]. by rewrite <- Z.lor_assoc, Z.lor_diag.
      - simpl. destruct (existsb _ _); [|apply pacer_set].
        apply solicit_pacer_ext, pacer_set. }
    assert (Hk : keptb timestamp lifetime now item = true).
    { unfold keptb. by rewrite (proj2 (Z.eqb_neq _ _) Hfin), Hexp. }
    destruct (now >=? item_refresh timestamp lifetime item) eqn:Hmid.
    { assert (Hd : refresh_dueb timestamp lifetime now item = true).
      { unfold refresh_dueb. by rewrite (proj2 (Z.eqb_neq _ _) Hfin), Hexp, Hmid. }
      rewrite Hd.
      eapply Hkeep in Hrun; [| exact Hk | apply get_solicit].
      destruct Hrun as (-> & -> & ->). split; [done|]. split; [done|].
      rewrite solicit_idem. by destruct (existsb _ _). }
    assert (Hd : refresh_dueb timestamp lifetime now item = false).
    { unfold refresh_dueb. by rewrite (proj2 (Z.eqb_neq _ _) Hfin), Hexp, Hmid. }
    rewrite Hd.
    destruct (n >? item_refresh timestamp lifetime item);
      (eapply Hkeep in Hrun; [exact Hrun | exact Hk | done]).
Qed.
End SweepFacts.

(** ** The deadline that a sweep hands on *)

Section DeadlineFacts.
Context {T : Type}.
Variable get : NMNDiscPrivate -> list T.
Variable set : list T -> NMNDiscPrivate -> NMNDiscPrivate.
Variable timestamp : T -> Z.
Variable lifetime : T -> Z.
Variable config_bit : Z.
Hypothesis get_set : forall l p, get (set l p) = l.
Hypothesis get_solicit : forall p clock, get (solicit p clock) = get p.

Lemma to_guint32_deadline v n : to_guint64 v < n -> n <= never -> to_guint32 (to_guint64 v) = to_guint64 v.
Proof.
  intros H1 H2. apply to_guint32_small. pose proof (to_guint64_nonneg v).
  assert (never = G_MAXINT32) by reflexivity. unfold G_MAXINT32, G_MAXUINT32 in *. lia.
Qed.

(** [nextevent] only goes down, to the least of the deadlines of the items
    that the loop walks over, when that is below it. *)
Lemma clean_loop_deadline now fuel : forall p i c n p' c' n',
  (length (get p) <= i + fuel)%nat ->
  clean_loop get set timestamp lifetime config_bit fuel p now i c n = (p', c', n') ->
  n <= never ->
  n' <= n /\
  (forall d, d ∈ expiry_deadlines timestamp lifetime now (drop i (get p)) -> n' <= d) /\
  (n' = n \/ n' ∈ expiry_deadlines timestamp lifetime now (drop i (get p))).
Proof.
  unfold expiry_deadlines.
  induction fuel as [|fuel IH]; intros p i c n p' c' n' Hlen Hrun Hn.
  - simpl in Hrun. injection Hrun as <- <- <-. rewrite drop_ge by lia.
    split; [lia|]. split; [|by left]. intros d Hd. by apply elem_of_nil in Hd.
  - simpl in Hrun. destruct (get p !! i) as [item|] eqn:Hi.
    2:{ injection Hrun as <- <- <-. apply lookup_ge_None in Hi. rewrite drop_ge by lia.
        split; [lia|]. split; [|by left]. intros d Hd. by apply elem_of_nil in Hd. }
    pose proof (lookup_lt_Some _ _ _ Hi) as Hlt.
    rewrite (drop_S _ _ _ Hi), filter_cons.
    destruct (lifetime item =? G_MAXUINT32) eqn:Hinf.
    { simpl. apply IH in Hrun; [done | lia | done]. }
    destruct (now >=? item_expiry timestamp lifetime item) eqn:Hexp.
    { simpl. apply IH in Hrun; [| | done].
      - by rewrite get_set, drop_delete_same in Hrun.
      - rewrite get_set, length_delete by eauto. lia. }
    simpl.
    destruct (Z.gtb_spec n (item_expiry timestamp lifetime item)) as [Hsooner|Hlater].
    + unfold item_expiry in *.
      rewrite (to_guint32_deadline _ n) in Hrun by lia.
      apply IH in Hrun; [| lia | lia]. destruct Hrun as (H1 & H2 & H3).
      split; [lia|]. split.
      * intros d [->|Hd]%elem_of_cons; [lia | by apply H2].
      * right. destruct H3 as [->|H3]; [by left | by right].
    + apply IH in Hrun; [| lia | lia]. destruct Hrun as (H1 & H2 & H3).
      split; [lia|]. split.
      * intros d [->|Hd]%elem_of_cons; [lia | by apply H2].
      * destruct H3 as [->|H3]; [by left | right; by right].
Qed.

Lemma clean_refresh_loop_deadline clock now fuel : forall p i c n p' c' n',
  (length (get p) <= i + fuel)%nat ->
  clean_refresh_loop get set timestamp lifetime config_bit fuel p clock now i c n
    = (p', c', n') ->
  n <= never ->
  n' <= n /\
  (forall d, d ∈ refresh_deadlines timestamp lifetime now (drop i (get p)) -> n' <= d) /\
  (n' = n \/ n' ∈ refresh_deadlines timestamp lifetime now (drop i (get p))).
Proof.
  unfold refresh_deadlines.
  induction fuel as [|fuel IH]; intros p i c n p' c' n' Hlen Hrun Hn.
  - simpl in Hrun. injection Hrun as <- <- <-. rewrite drop_ge by lia.
    split; [lia|]. split; [|by left]. intros d Hd. by apply elem_of_nil in Hd.
  - simpl in Hrun. destruct (get p !! i) as [item|] eqn:Hi.
    2:{ injection Hrun as <- <- <-. apply lookup_ge_None in Hi. rewrite drop_ge by lia.
        split; [lia|]. split; [|by left]. intros d Hd. by apply elem_of_nil in Hd. }
    pose proof (lookup_lt_Some _ _ _ Hi) as Hlt.
    rewrite (drop_S _ _ _ Hi), filter_cons.
    destruct (lifetime item =? G_MAXUINT32) eqn:Hinf.
    { simpl. apply IH in Hrun; [done | lia | done]. }
    destruct (now >=? item_expiry timestamp lifetime item) eqn:Hexp.
    { simpl. apply IH in Hrun; [| | done].
      - by rewrite get_set, drop_delete_same in Hrun.
      - rewrite get_set, length_delete by eauto. lia. }
    destruct (now >=? item_refresh timestamp lifetime item) eqn:Hmid.
    { simpl. apply IH in Hrun; [| | done].
      - by rewrite get_solicit in Hrun.
      - rewrite get_solicit. lia. }
    simpl.
    destruct (Z.gtb_spec n (item_refresh timestamp lifetime item)) as [Hsooner|Hlater].
    + unfold item_refresh in *.
      rewrite (to_guint32_deadline _ n) in Hrun by lia.
      apply IH in Hrun; [| lia | lia]. destruct Hrun as (H1 & H2 & H3).
      split; [lia|]. split.
      * intros d [->|Hd]%elem_of_cons; [lia | by apply H2].
      * right. destruct H3 as [->|H3]; [by left | by right].
    + apply IH in Hrun; [| lia | lia]. destruct Hrun as (H1 & H2 & H3).
      split; [lia|]. split.
      * intros d [->|Hd]%elem_of_cons; [lia | by apply H2].
      * destruct H3 as [->|H3]; [by left | right; by right].
Qed.
End DeadlineFacts.

(** ** The sweep, exactly *)

Lemma clean_all_frame (A : Type) (f : NMNDiscPrivate -> A) p clock now c p' c' n' :
  (forall l q, f (set_gateways l q) = f q) ->
  (forall l q, f (set_addresses l q) = f q) ->
  (forall l q, f (set_routes l q) = f q) ->
  (forall l q, f (set_dns_servers l q) = f q) ->
  (forall l q, f (set_dns_domains l q) = f q) ->
  (forall q k, f (solicit q k) = f q) ->
  clean_all p clock now c = (p', c', n') -> f p' = f p.
Proof.
  intros F1 F2 F3 F4 F5 Fs. unfold clean_all. intros H.
  destruct (clean_gateways p now c never) as [[p1 c1] n1] eqn:E1.
  destruct (clean_addresses p1 now c1 n1) as [[p2 c2] n2] eqn:E2.
  destruct (clean_routes p2 now c2 n2) as [[p3 c3] n3] eqn:E3.
  destruct (clean_dns_servers p3 clock now c3 n3) as [[p4 c4] n4] eqn:E4.
  apply clean_refresh_loop_spec in H; [| done | intros; unfold get_dns_domains; by rewrite solicit_rdata | lia | by rewrite take_0].
  apply clean_refresh_loop_spec in E4; [| done | intros; unfold get_dns_servers; by rewrite solicit_rdata | lia | by rewrite take_0].
  apply clean_loop_spec in E3; [| done | lia | by rewrite take_0].
  apply clean_loop_spec in E2; [| done | lia | by rewrite take_0].
  apply clean_loop_spec in E1; [| done | lia | by rewrite take_0].
  destruct H as (_ & _ & _ & G5), E4 as (_ & _ & _ & G4), E3 as (_ & _ & _ & G3),
           E2 as (_ & _ & _ & G2), E1 as (_ & _ & _ & G1).
  rewrite (G5 A f), (G4 A f), (G3 A f), (G2 A f), (G1 A f); done.
Qed.

Lemma elem_of_deadlines_inv now d x :
  x ∈ deadlines now d <->
  x ∈ expiry_deadlines gw_timestamp gw_lifetime now (gateways d) \/
  x ∈ expiry_deadlines addr_timestamp addr_lifetime now (addresses d) \/
  x ∈ expiry_deadlines rt_timestamp rt_lifetime now (routes d) \/
  x ∈ refresh_deadlines dns_timestamp dns_lifetime now (dns_servers d) \/
  x ∈ refresh_deadlines dom_timestamp dom_lifetime now (dns_domains d).
Proof. unfold deadlines. rewrite !elem_of_app. tauto. Qed.

Lemma clean_all_exact p clock now c p' c' n' :
  clean_all p clock now c = (p', c', n') ->
  rdata p' = swept now (rdata p) /\
  c' = swept_mask now (rdata p) c /\
  pacer_of p' = pacer_of (if dns_refresh_due now (rdata p) then solicit p clock else p) /\
  (forall d, d ∈ deadlines now (rdata p) -> n' <= d) /\
  (n' = never \/ n' ∈ deadlines now (rdata p)).
Proof.
  unfold clean_all. intros H.
  destruct (clean_gateways p now c never) as [[p1 c1] n1] eqn:E1.
  destruct (clean_addresses p1 now c1 n1) as [[p2 c2] n2] eqn:E2.
  destruct (clean_routes p2 now c2 n2) as [[p3 c3] n3] eqn:E3.
  destruct (clean_dns_servers p3 clock now c3 n3) as [[p4 c4] n4] eqn:E4.
  assert (Hsol : forall A (f : NMNDiscDataInternal -> A) q k,
            f (rdata (solicit q k)) = f (rdata q)).
  { intros. by rewrite solicit_rdata. }
  (* what each pass does to its own array, the mask and the pacer *)
  pose proof (clean_loop_exact get_gateways set_gateways gw_timestamp gw_lifetime _
                ltac:(done) now _ _ _ _ _ _ _ _ ltac:(rewrite Nat.add_0_l; reflexivity) E1)
    as (X1 & M1).
  pose proof (clean_loop_exact get_addresses set_addresses addr_timestamp addr_lifetime _
                ltac:(done) now _ _ _ _ _ _ _ _ ltac:(rewrite Nat.add_0_l; reflexivity) E2)
    as (X2 & M2).
  pose proof (clean_loop_exact get_routes set_routes rt_timestamp rt_lifetime _
                ltac:(done) now _ _ _ _ _ _ _ _ ltac:(rewrite Nat.add_0_l; reflexivity) E3)
    as (X3 & M3).
  pose proof (clean_refresh_loop_exact get_dns_servers set_dns_servers dns_timestamp
                dns_lifetime _ ltac:(done) (Hsol _ dns_servers) ltac:(done)
                clock now _ _ _ _ _ _ _ _ ltac:(rewrite Nat.add_0_l; reflexivity) E4)
    as (X4 & M4 & P4).
  pose proof (clean_refresh_loop_exact get_dns_domains set_dns_domains dom_timestamp
                dom_lifetime _ ltac:(done) (Hsol _ dns_domains) ltac:(done)
                clock now _ _ _ _ _ _ _ _ ltac:(rewrite Nat.add_0_l; reflexivity) H)
    as (X5 & M5 & P5).
  (* the deadlines *)
  pose proof (clean_loop_deadline get_gateways set_gateways gw_timestamp gw_lifetime _
                ltac:(done) now _ _ _ _ _ _ _ _ ltac:(rewrite Nat.add_0_l; reflexivity) E1
                ltac:(reflexivity)) as (N1 & D1 & A1).
  pose proof (clean_loop_deadline get_addresses set_addresses addr_timestamp addr_lifetime _
                ltac:(done) now _ _ _ _ _ _ _ _ ltac:(rewrite Nat.add_0_l; reflexivity) E2
                ltac:(lia)) as (N2 & D2 & A2).
  pose proof (clean_loop_deadline get_routes set_routes rt_timestamp rt_lifetime _
                ltac:(done) now _ _ _ _ _ _ _ _ ltac:(rewrite Nat.add_0_l; reflexivity) E3
                ltac:(lia)) as (N3 & D3 & A3).
  pose proof (clean_refresh_loop_deadline get_dns_servers set_dns_servers dns_timestamp
                dns_lifetime _ ltac:(done) (Hsol _ dns_servers)
                clock now _ _ _ _ _ _ _ _ ltac:(rewrite Nat.add_0_l; reflexivity) E4
                ltac:(lia)) as (N4 & D4 & A4).
  pose proof (clean_refresh_loop_deadline get_dns_domains set_dns_domains dom_timestamp
                dom_lifetime _ ltac:(done) (Hsol _ dns_domains)
                clock now _ _ _ _ _ _ _ _ ltac:(rewrite Nat.add_0_l; reflexivity) H
                ltac:(lia)) as (N5 & D5 & A5).
  (* what each pass leaves alone *)
  apply clean_refresh_loop_spec in H; [| done | apply (Hsol _ dns_domains) | lia | by rewrite take_0].
  apply clean_refresh_loop_spec in E4; [| done | apply (Hsol _ dns_servers) | lia | by rewrite take_0].
  apply clean_loop_spec in E3; [| done | lia | by rewrite take_0].
  apply clean_loop_spec in E2; [| done | lia | by rewrite take_0].
  apply clean_loop_spec in E1; [| done | lia | by rewrite take_0].
  destruct H as (_ & _ & _ & F5), E4 as (_ & _ & _ & F4), E3 as (_ & _ & _ & F3),
           E2 as (_ & _ & _ & F2), E1 as (_ & _ & _ & F1).
  assert (G5 : get_gateways p' = get_gateways p4) by (apply F5; [done | apply (Hsol _ gateways)]).
  assert (G4 : get_gateways p4 = get_gateways p3) by (apply F4; [done | apply (Hsol _ gateways)]).
  assert (G3 : get_gateways p3 = get_gateways p2) by (by apply F3).
  assert (G2 : get_gateways p2 = get_gateways p1) by (by apply F2).
  assert (B5 : get_addresses p' = get_addresses p4) by (apply F5; [done | apply (Hsol _ addresses)]).
  assert (B4 : get_addresses p4 = get_addresses p3) by (apply F4; [done | apply (Hsol _ addresses)]).
  assert (B3 : get_addresses p3 = get_addresses p2) by (by apply F3).
  assert (B1 : get_addresses p1 = get_addresses p) by (by apply F1).
  assert (R5 : get_routes p' = get_routes p4) by (apply F5; [done | apply (Hsol _ routes)]).
  assert (R4 : get_routes p4 = get_routes p3) by (apply F4; [done | apply (Hsol _ routes)]).
  assert (R2 : get_routes p2 = get_routes p1) by (by apply F2).
  assert (R1 : get_routes p1 = get_routes p) by (by apply F1).
  assert (S5 : get_dns_servers p' = get_dns_servers p4)
    by (apply F5; [done | apply (Hsol _ dns_servers)]).
  assert (S3 : get_dns_servers p3 = get_dns_servers p2) by (by apply F3).
  assert (S2 : get_dns_servers p2 = get_dns_servers p1) by (by apply F2).
  assert (S1 : get_dns_servers p1 = get_dns_servers p) by (by apply F1).
  assert (O4 : get_dns_domains p4 = get_dns_domains p3)
    by (apply F4; [done | apply (Hsol _ dns_domains)]).
  assert (O3 : get_dns_domains p3 = get_dns_domains p2) by (by apply F3).
  assert (O2 : get_dns_domains p2 = get_dns_domains p1) by (by apply F2).
  assert (O1 : get_dns_domains p1 = get_dns_domains p) by (by apply F1).
  assert (Q3 : pacer_of p3 = pacer_of p).
  { rewrite (F3 _ pacer_of), (F2 _ pacer_of), (F1 _ pacer_of); done. }
  repeat match goal with
         | H : context [drop 0 _] |- _ => rewrite drop_0 in H
         | H : context [take 0 _] |- _ => rewrite take_0 in H; simpl in H
         end.
  rewrite ?B1, ?R2, ?R1, ?S3, ?S2, ?S1, ?O4, ?O3, ?O2, ?O1 in *.
  split; [|split; [|split; [|split]]].
  - unfold swept. destruct (rdata p') as [g a r s o] eqn:Ep'.
    unfold get_gateways, get_addresses, get_routes, get_dns_servers, get_dns_domains in *.
    rewrite Ep' in *. simpl in *.
    rewrite G5, G4, G3, G2, X1, B5, B4, B3, X2, R5, R4, X3, S5, X4, X5. done.
  - unfold swept_mask.
    unfold get_gateways, get_addresses, get_routes, get_dns_servers, get_dns_domains in *.
    by rewrite M5, M4, M3, M2, M1.
  - unfold dns_refresh_due.
    unfold get_gateways, get_addresses, get_routes, get_dns_servers, get_dns_domains in *.
    rewrite P5.
    destruct (existsb _ (dns_servers (rdata p))) eqn:ES; simpl.
    + assert (Q4 : pacer_of p4 = pacer_of (solicit p clock)).
      { rewrite P4. by apply solicit_pacer_ext. }
      destruct (existsb _ (dns_domains (rdata p))); [|done].
      rewrite (solicit_pacer_ext _ _ _ Q4). by rewrite solicit_idem.
    + assert (Q4 : pacer_of p4 = pacer_of p) by (by rewrite P4).
      destruct (existsb _ (dns_domains (rdata p))); [|done].
      by apply solicit_pacer_ext.
  - intros d Hd. apply elem_of_deadlines_inv in Hd.
    unfold get_gateways, get_addresses, get_routes, get_dns_servers, get_dns_domains in *.
    destruct Hd as [Hd|[Hd|[Hd|[Hd|Hd]]]].
    + specialize (D1 d Hd). lia.
    + specialize (D2 d Hd). lia.
    + specialize (D3 d Hd). lia.
    + specialize (D4 d Hd). lia.
    + by apply D5.
  - unfold get_gateways, get_addresses, get_routes, get_dns_servers, get_dns_domains in *.
    rewrite elem_of_deadlines_inv.
    destruct A5 as [->|A5]; [|by auto 10].
    destruct A4 as [->|A4]; [|by auto 10].
    destruct A3 as [->|A3]; [|by auto 10].
    destruct A2 as [->|A2]; [|by auto 10].
    destruct A1 as [->|A1]; [by left | by auto 10].
Qed.

(** X1, the sweep is exact.  After [check_timestamps] each of the five
    arrays holds exactly the items that the sweep keeps (infinite lifetime,
    or expiry after [now]), in their old order; and [config_changed] is
    emitted, once and over the swept arrays, exactly when the mask that came
    in, with one more bit for every array that lost an item, is not empty. *)
Theorem check_timestamps_exact priv clock now changed :
  rdata (check_timestamps priv clock now changed) = swept now (rdata priv) /\
  trace (check_timestamps priv clock now changed)
  = (if swept_mask now (rdata priv) changed =? 0 then trace priv
     else trace priv ++ [CONFIG_CHANGED (swept now (rdata priv))
                           (swept_mask now (rdata priv) changed)]).
Proof.
  unfold check_timestamps.
  destruct (clean_all (set_timeout_id None priv) clock now changed) as [[p' c'] n'] eqn:E.
  pose proof (clean_all_exact _ _ _ _ _ _ _ E) as (Hr & Hc & _).
  pose proof (clean_all_frame _ trace _ _ _ _ _ _ _
                ltac:(done) ltac:(done) ltac:(done) ltac:(done) ltac:(done) solicit_trace E)
    as Ht.
  simpl in Hr, Hc, Ht. rewrite <- Hr, <- Hc, <- Ht.
  destruct (c' =? 0); simpl;
    destruct (negb (n' =? never)), (n' >? now); done.
Qed.


Lemma check_timestamps_pacer priv clock now changed :
  pacer_of (check_timestamps priv clock now changed)
  = pacer_of (if dns_refresh_due now (rdata priv) then solicit priv clock else priv) /\
  rdata (check_timestamps priv clock now changed) = swept now (rdata priv).
Proof.
  unfold check_timestamps.
  destruct (clean_all (set_timeout_id None priv) clock now changed) as [[p' c'] n'] eqn:E.
  pose proof (clean_all_exact _ _ _ _ _ _ _ E) as (Hr & _ & Hp & _).
  simpl in Hp, Hr. split.
  - transitivity (pacer_of p').
    { destruct (negb (c' =? 0)), (negb (n' =? never)), (n' >? now); done. }
    rewrite Hp. destruct (dns_refresh_due now (rdata priv)); [|done].
    by apply solicit_pacer_ext.
  - rewrite <- Hr. destruct (negb (c' =? 0)), (negb (n' =? never)), (n' >? now); done.
Qed.

(** X3, the sweep and the pacer.  All the calls of [solicit] that a sweep
    makes come down to one call when some DNS server or domain that stays has
    reached the midpoint of its finite lifetime, and to no call otherwise.
    So after such a sweep a send timer is pending, and a sweep that finds a
    send timer pending leaves the burst as it is (the count of solicitations
    left is not reset). *)
Theorem check_timestamps_solicits priv clock now changed :
  pacer_of (check_timestamps priv clock now changed)
  = pacer_of (if dns_refresh_due now (rdata priv) then solicit priv clock else priv) /\
  (dns_refresh_due now (rdata priv) = true ->
   send_rs_id (check_timestamps priv clock now changed) <> None) /\
  (send_rs_id priv <> None ->
   pacer_of (check_timestamps priv clock now changed) = pacer_of priv).
Proof.
  destruct (check_timestamps_pacer priv clock now changed) as (Hp & _).
  split; [exact Hp|]. split.
  - intros Hdue. rewrite Hdue in Hp. unfold pacer_of in Hp.
    injection Hp as _ Hid _ _ _. rewrite Hid. unfold solicit.
    destruct (send_rs_id priv) eqn:E; simpl; [by rewrite E | done].
  - intros Hid. rewrite Hp. destruct (dns_refresh_due now (rdata priv)); [|done].
    unfold solicit. by destruct (send_rs_id priv).
Qed.

(** X4, what a router advertisement does to the timers.  After
    [nm_ndisc_ra_received] the first-RA timeout is cancelled, so it cannot
    fire any more, the remembered send error is cleared, and the store is
    swept; the send timer is cancelled too, and a new burst with the full
    count of solicitations is scheduled exactly when a DNS server or domain
    that stays has reached its midpoint. *)
Theorem nm_ndisc_ra_received_effect priv clock now changed :
  ra_timeout_id (nm_ndisc_ra_received priv clock now changed) = None /\
  step (nm_ndisc_ra_received priv clock now changed) Fire_ra_timeout
    = nm_ndisc_ra_received priv clock now changed /\
  last_send_rs_error (nm_ndisc_ra_received priv clock now changed) = None /\
  rdata (nm_ndisc_ra_received priv clock now changed) = swept now (rdata priv) /\
  (send_rs_id (nm_ndisc_ra_received priv clock now changed) = None <->
   dns_refresh_due now (rdata priv) = false) /\
  (dns_refresh_due now (rdata priv) = true ->
   solicitations_left (nm_ndisc_ra_received priv clock now changed)
     = router_solicitations priv).
Proof.
  unfold nm_ndisc_ra_received.
  set (q := set_last_send_rs_error None (set_send_rs_id None (set_ra_timeout_id None priv))).
  assert (Hframe : forall (A : Type) (f : NMNDiscPrivate -> A),
            (forall l p, f (set_gateways l p) = f p) ->
            (forall l p, f (set_addresses l p) = f p) ->
            (forall l p, f (set_routes l p) = f p) ->
            (forall l p, f (set_dns_servers l p) = f p) ->
            (forall l p, f (set_dns_domains l p) = f p) ->
            (forall p k, f (solicit p k) = f p) ->
            (forall p e, f (emit e p) = f p) ->
            (forall p t, f (set_timeout_id t p) = f p) ->
            f (check_timestamps q clock now changed) = f q).
  { intros A f F1 F2 F3 F4 F5 Fs Fe Ft. unfold check_timestamps.
    destruct (clean_all (set_timeout_id None q) clock now changed) as [[p' c'] n'] eqn:E.
    pose proof (clean_all_frame _ f _ _ _ _ _ _ _ F1 F2 F3 F4 F5 Fs E) as Hf.
    rewrite Ft in Hf. rewrite <- Hf.
    destruct (negb (c' =? 0)), (negb (n' =? never)), (n' >? now);
      unfold _emit_config_change; by rewrite ?Ft, ?Fe. }
  assert (Hra : ra_timeout_id (check_timestamps q clock now changed) = None).
  { rewrite (Hframe _ ra_timeout_id); try done. apply solicit_ra_timeout_id. }
  assert (Herr : last_send_rs_error (check_timestamps q clock now changed) = None).
  { rewrite (Hframe _ last_send_rs_error); try done.
    intros p k. unfold solicit. by destruct (send_rs_id p). }
  destruct (check_timestamps_pacer q clock now changed) as (Hp & Hr).
  change (rdata q) with (rdata priv) in *.
  split; [exact Hra|]. split; [simpl; by rewrite Hra|]. split; [exact Herr|].
  split; [exact Hr|].
  unfold pacer_of in Hp. destruct (dns_refresh_due now (rdata priv)).
  - injection Hp as Hl Hid _ _ _. rewrite Hid, Hl. unfold solicit. simpl. split; [|done].
    split; intros; done.
  - injection Hp as Hl Hid _ _ _. rewrite Hid. simpl. split; [|done]. split; done.
Qed.

(** ** Identities *)

Lemma IN6_ARE_ADDR_EQUAL_eq a b : IN6_ARE_ADDR_EQUAL a b = true <-> a = b.
Proof.
  unfold IN6_ARE_ADDR_EQUAL. destruct a as [a0 a1 a2 a3], b as [b0 b1 b2 b3]. simpl.
  rewrite !andb_true_iff, !Z.eqb_eq. split.
  - intros [[[-> ->] ->] ->]. done.
  - intros H. injection H as -> -> -> ->. done.
Qed.

Lemma route_same_identity_eq x y : route_same_identity x y = true <-> rt_identity x = rt_identity y.
Proof.
  unfold route_same_identity, rt_identity.
  rewrite andb_true_iff, IN6_ARE_ADDR_EQUAL_eq, Z.eqb_eq. split.
  - intros [-> ->]. done.
  - intros H. by injection H as -> ->.
Qed.

Lemma g_strcmp0_equal_eq a b : g_strcmp0_equal a b = true <-> a = b.
Proof. unfold g_strcmp0_equal. apply bool_decide_eq_true. Qed.

Lemma NoDup_g_array_insert_val {K : Type} (l : list K) (k : nat) (x : K) :
  NoDup l -> x ∉ l -> NoDup (g_array_insert_val l k x).
Proof.
  intros Hl Hx. unfold g_array_insert_val.
  rewrite <- Permutation_middle, take_drop. by constructor.
Qed.

Lemma fmap_g_array_insert_val {T K : Type} (f : T -> K) (l : list T) (k : nat) (x : T) :
  f <$> g_array_insert_val l k x = g_array_insert_val (f <$> l) k (f x).
Proof. unfold g_array_insert_val. by rewrite fmap_app, fmap_cons, fmap_take, fmap_drop. Qed.

Lemma NoDup_fmap_delete {T K : Type} (f : T -> K) (l : list T) (i : nat) :
  NoDup (f <$> l) -> NoDup (f <$> delete i l).
Proof.
  intros H. rewrite list_fmap_delete. eapply sublist_NoDup; [exact H | apply sublist_delete].
Qed.

Lemma NoDup_fmap_sublist {T K : Type} (f : T -> K) (l1 l2 : list T) :
  l1 `sublist_of` l2 -> NoDup (f <$> l2) -> NoDup (f <$> l1).
Proof. intros Hs H. eapply sublist_NoDup; [exact H | by apply fmap_sublist]. Qed.

Lemma fmap_insert_same_key {T K : Type} (f : T -> K) (l : list T) (i : nat) (x y : T) :
  l !! i = Some x -> f y = f x -> f <$> <[i:=y]> l = f <$> l.
Proof.
  intros Hi Hk. rewrite list_fmap_insert. apply list_insert_id.
  by rewrite list_lookup_fmap, Hi, Hk.
Qed.

Section IdentityFacts.
Context {T K : Type}.
Variable same_identity : T -> T -> bool.
Variable lifetime : T -> Z.
Variable preference : T -> Z.
Variable position : Z -> Z.
Variable key : T -> K.
Hypothesis same_identity_key : forall x y, same_identity x y = true <-> key x = key y.

(** The loop keeps the identities apart. *)
Lemma add_loop_NoDup new fuel : forall arr i insert_idx,
  NoDup (key <$> arr) ->
  key new ∉ key <$> take i arr ->
  (length arr <= i + fuel)%nat ->
  NoDup (key <$> fst (add_loop same_identity lifetime preference position fuel new arr i
                        insert_idx)).
Proof.
  assert (Hafter : forall arr (i : nat) insert_idx, NoDup (key <$> arr) ->
            key new ∉ key <$> take i arr -> (length arr <= i)%nat ->
            NoDup (key <$> fst (add_after_loop lifetime position new arr insert_idx))).
  { intros arr i insert_idx Hnd Hnew Hlen. unfold add_after_loop. simpl.
    rewrite take_ge in Hnew by done.
    destruct (negb (lifetime new =? 0)); [|done].
    rewrite fmap_g_array_insert_val. by apply NoDup_g_array_insert_val. }
  induction fuel as [|fuel IH]; intros arr i insert_idx Hnd Hnew Hlen; simpl.
  { apply (Hafter arr i); [done | done | lia]. }
  destruct (arr !! i) as [item|] eqn:Hi.
  2:{ apply lookup_ge_None in Hi. by apply (Hafter arr i). }
  pose proof (lookup_lt_Some _ _ _ Hi) as Hlt.
  destruct (same_identity item new) eqn:Hid.
  - apply same_identity_key in Hid.
    destruct (lifetime new =? 0); simpl; [by apply NoDup_fmap_delete|].
    destruct (negb (preference item =? preference new)); simpl.
    + apply IH.
      * by apply NoDup_fmap_delete.
      * by rewrite take_delete_same.
      * rewrite length_delete by eauto. lia.
    + by rewrite (fmap_insert_same_key key arr i item new).
  - apply IH; [done | | lia].
    rewrite (take_S_r _ _ _ Hi), fmap_app, elem_of_app. intros [H|H]; [done|].
    simpl in H. apply list_elem_of_singleton in H.
    symmetry in H. apply same_identity_key in H. congruence.
Qed.
End IdentityFacts.

Lemma identities_unique_same p p' :
  gateways (rdata p') = gateways (rdata p) -> routes (rdata p') = routes (rdata p) ->
  dns_servers (rdata p') = dns_servers (rdata p) ->
  dns_domains (rdata p') = dns_domains (rdata p) ->
  identities_unique (rdata p) -> identities_unique (rdata p').
Proof. unfold identities_unique. by intros -> -> -> ->. Qed.

Lemma nm_ndisc_add_gateway_unique priv new :
  identities_unique (rdata priv) ->
  identities_unique (rdata (fst (nm_ndisc_add_gateway priv new))).
Proof.
  intros (U1 & U2 & U3 & U4). rewrite nm_ndisc_add_gateway_eq.
  unfold identities_unique. simpl. split; [|done].
  apply (add_loop_NoDup gateway_same_identity gw_lifetime gw_preference _ gw_address);
    [| done | | lia].
  - intros x y. apply IN6_ARE_ADDR_EQUAL_eq.
  - rewrite take_0. simpl. apply not_elem_of_nil.
Qed.

Lemma nm_ndisc_add_route_unique priv new :
  identities_unique (rdata priv) ->
  identities_unique (rdata (fst (nm_ndisc_add_route priv new))).
Proof.
  intros H. destruct ((rt_plen new =? 0) || (rt_plen new >? 128)) eqn:E.
  { unfold nm_ndisc_add_route. by rewrite E. }
  destruct H as (U1 & U2 & U3 & U4). rewrite nm_ndisc_add_route_eq by done.
  unfold identities_unique. simpl. split; [done|]. split; [|done].
  apply (add_loop_NoDup route_same_identity rt_lifetime rt_preference _ rt_identity);
    [| done | | lia].
  - intros x y. apply route_same_identity_eq.
  - rewrite take_0. simpl. apply not_elem_of_nil.
Qed.

Lemma list_find_None_key {T K : Type} (test : T -> bool) (key : T -> K) (k : K)
    (arr : list T) :
  (forall x, test x = true <-> key x = k) ->
  list_find (fun x => test x = true) arr = None -> k ∉ key <$> arr.
Proof.
  intros Hk Hf. apply list_find_None in Hf. rewrite Forall_forall in Hf.
  intros (x & -> & Hx)%list_elem_of_fmap. apply (Hf x Hx). by apply Hk.
Qed.

Lemma nm_ndisc_add_dns_server_unique priv new :
  identities_unique (rdata priv) ->
  identities_unique (rdata (fst (nm_ndisc_add_dns_server priv new))).
Proof.
  intros (U1 & U2 & U3 & U4). unfold nm_ndisc_add_dns_server, get_dns_servers.
  destruct (list_find _ _) as [[i item]|] eqn:Hf.
  - apply list_find_Some in Hf as (Hi & Ht & _). apply IN6_ARE_ADDR_EQUAL_eq in Ht.
    destruct (dns_lifetime new =? 0); simpl.
    + unfold identities_unique. simpl. repeat split; try done. by apply NoDup_fmap_delete.
    + destruct (_ || _); simpl; [|done].
      unfold identities_unique. simpl. repeat split; try done.
      by rewrite (fmap_insert_same_key dns_address _ i item new).
  - apply (list_find_None_key _ dns_address (dns_address new)) in Hf;
      [|intros x; apply IN6_ARE_ADDR_EQUAL_eq].
    destruct (negb (dns_lifetime new =? 0)); simpl; [|done].
    unfold identities_unique. simpl. repeat split; try done.
    rewrite fmap_g_array_insert_val. by apply NoDup_g_array_insert_val.
Qed.

Lemma nm_ndisc_add_dns_domain_unique priv new :
  identities_unique (rdata priv) ->
  identities_unique (rdata (fst (nm_ndisc_add_dns_domain priv new))).
Proof.
  intros (U1 & U2 & U3 & U4). unfold nm_ndisc_add_dns_domain, get_dns_domains.
  destruct (list_find _ _) as [[i item]|] eqn:Hf.
  - apply list_find_Some in Hf as (Hi & Ht & _).
    destruct (dom_lifetime new =? 0); simpl.
    + unfold identities_unique. simpl. repeat split; try done. by apply NoDup_fmap_delete.
    + destruct (_ || _); simpl; [|done].
      unfold identities_unique. simpl. repeat split; try done.
      by rewrite (fmap_insert_same_key dom_domain _ i item).
  - apply (list_find_None_key _ dom_domain (dom_domain new)) in Hf;
      [|intros x; apply g_strcmp0_equal_eq].
    destruct (negb (dom_lifetime new =? 0)); simpl; [|done].
    unfold identities_unique. simpl. repeat split; try done.
    rewrite fmap_g_array_insert_val. by apply NoDup_g_array_insert_val.
Qed.

Lemma nm_ndisc_complete_and_add_address_others priv new :
  exists l, fst (fst (nm_ndisc_complete_and_add_address priv new)) = set_addresses l priv.
Proof.
  assert (Hid : priv = set_addresses (get_addresses priv) priv) by (by destruct priv as [[]]).
  unfold nm_ndisc_complete_and_add_address.
  destruct (complete_address priv new) as [ok completed].
  destruct ok; simpl; [|by eauto].
  destruct (list_find _ _) as [[i item]|].
  - destruct (addr_lifetime completed =? 0); simpl; by eauto.
  - destruct (_ && _); simpl; [by eauto|].
    destruct (negb (addr_lifetime completed =? 0)); simpl; by eauto.
Qed.

Lemma check_timestamps_unique p clock now c :
  identities_unique (rdata p) -> identities_unique (rdata (check_timestamps p clock now c)).
Proof.
  intros (U1 & U2 & U3 & U4).
  destruct (check_timestamps_rdata p clock now c) as (p' & c' & n' & E & Hr & _).
  apply clean_all_spec in E. destruct E as (_ & _ & (S1 & S2 & S3 & S4 & S5) & _).
  rewrite Hr. unfold identities_unique.
  unfold get_gateways, get_routes, get_dns_servers, get_dns_domains in *. simpl in *.
  repeat split; eauto using NoDup_fmap_sublist.
Qed.

Lemma complete_address_set_addresses l p item :
  complete_address (set_addresses l p) item = complete_address p item.
Proof. reflexivity. Qed.

Lemma take_from_take_S {T : Type} (l1 l2 : list T) (i : nat) :
  take (S i) l1 = take (S i) l2 -> take i l1 = take i l2.
Proof.
  intros H. rewrite <- (Nat.min_l i (S i)) by lia. by rewrite <- !take_take, H.
Qed.

(** What the loop of [nm_ndisc_dad_failed] does in every mode: it works on
    the address array alone, does not lengthen it, leaves the items below
    [i] alone, and reports a change exactly when an item from [i] on has the
    failed address; without such an item nothing changes. *)
Lemma dad_failed_loop_effect address fuel : forall p i changed,
  (length (get_addresses p) <= i + fuel)%nat ->
  fst (dad_failed_loop fuel p address i changed)
    = set_addresses (get_addresses (fst (dad_failed_loop fuel p address i changed))) p /\
  take i (get_addresses (fst (dad_failed_loop fuel p address i changed)))
    = take i (get_addresses p) /\
  (length (get_addresses (fst (dad_failed_loop fuel p address i changed)))
   <= length (get_addresses p))%nat /\
  snd (dad_failed_loop fuel p address i changed)
    = changed || existsb (fun x => IN6_ARE_ADDR_EQUAL (addr_address x) address)
                   (drop i (get_addresses p)) /\
  (existsb (fun x => IN6_ARE_ADDR_EQUAL (addr_address x) address)
     (drop i (get_addresses p)) = false ->
   fst (dad_failed_loop fuel p address i changed) = p).
Proof.
  assert (Hid : forall p, p = set_addresses (get_addresses p) p).
  { by intros [[] ]. }
  assert (Hend : forall p (i : nat) changed, (length (get_addresses p) <= i)%nat ->
            p = set_addresses (get_addresses p) p /\
            take i (get_addresses p) = take i (get_addresses p) /\
            (length (get_addresses p) <= length (get_addresses p))%nat /\
            changed = changed || existsb (fun x => IN6_ARE_ADDR_EQUAL (addr_address x) address)
                                   (drop i (get_addresses p)) /\
            (existsb (fun x => IN6_ARE_ADDR_EQUAL (addr_address x) address)
               (drop i (get_addresses p)) = false -> p = p)).
  { intros p i changed Hlen. rewrite drop_ge by done. simpl. rewrite orb_false_r.
    split4; [apply Hid | done | done | done]. }
  induction fuel as [|fuel IH]; intros p i changed Hlen; simpl.
  { apply Hend. lia. }
  destruct (get_addresses p !! i) as [item|] eqn:Hi.
  2:{ apply Hend. by apply lookup_ge_None in Hi. }
  pose proof (lookup_lt_Some _ _ _ Hi) as Hlt.
  rewrite (drop_S _ _ _ Hi). cbn [existsb].
  destruct (IN6_ARE_ADDR_EQUAL (addr_address item) address) eqn:Hm; cbn [negb orb].
  - rewrite orb_true_r.
    destruct (complete_address p item) as [ok item'] eqn:Hc. destruct ok; cbn [negb].
    + destruct (IH (set_addresses (<[i:=item']> (get_addresses p)) p) (S i) true)
        as (A & B & C & D & _).
      { unfold get_addresses. simpl. rewrite length_insert. unfold get_addresses in Hlen. lia. }
      unfold get_addresses in B, C. simpl in B, C. rewrite length_insert in C.
      split4; [exact A | | exact C | split; [exact D | done]].
      apply take_from_take_S in B. unfold get_addresses. rewrite B.
      apply take_insert_ge. lia.
    + destruct (IH (set_addresses
                      (delete i (get_addresses
                                   (set_addresses (<[i:=item']> (get_addresses p)) p)))
                      (set_addresses (<[i:=item']> (get_addresses p)) p)) i true)
        as (A & B & C & D & _).
      { unfold get_addresses. simpl. rewrite length_delete, length_insert.
        - unfold get_addresses in Hlen. lia.
        - apply lookup_lt_is_Some. by rewrite length_insert. }
      unfold get_addresses in B, C. simpl in B, C.
      rewrite take_delete_same in B by (by rewrite length_insert).
      rewrite take_insert_ge in B by lia.
      split4; [exact A | exact B | | split; [exact D | done]].
      etrans; [exact C|]. etrans; [apply sublist_length, sublist_delete|].
      by rewrite length_insert.
  - destruct (IH p (S i) changed) as (A & B & C & D & E); [lia|].
    split4; [exact A | by apply take_from_take_S | exact C | split; [exact D | exact E]].
Qed.

(** In EUI-64 mode there is no second candidate: when no identifier is set,
    or the failed address has host bits, the loop removes every item from
    [i] on that has the failed address and keeps the others in their
    order. *)
Lemma dad_failed_loop_eui64 address fuel : forall p i changed,
  addr_gen_mode p = NM_SETTING_IP6_CONFIG_ADDR_GEN_MODE_EUI64 ->
  iid_id_is_zero (iid p) = true
  \/ (s6_addr32_2 address =? 0) && (s6_addr32_3 address =? 0) = false ->
  (length (get_addresses p) <= i + fuel)%nat ->
  get_addresses (fst (dad_failed_loop fuel p address i changed))
  = take i (get_addresses p)
    ++ filter (fun x => IN6_ARE_ADDR_EQUAL (addr_address x) address = false)
         (drop i (get_addresses p)).
Proof.
  induction fuel as [|fuel IH]; intros p i changed Hmode Hterm Hlen; simpl.
  { rewrite take_ge, drop_ge by lia. simpl. by rewrite app_nil_r. }
  destruct (get_addresses p !! i) as [item|] eqn:Hi.
  2:{ apply lookup_ge_None in Hi. rewrite take_ge, drop_ge by lia. simpl.
      by rewrite app_nil_r. }
  pose proof (lookup_lt_Some _ _ _ Hi) as Hlt.
  rewrite (drop_S _ _ _ Hi).
  destruct (IN6_ARE_ADDR_EQUAL (addr_address item) address) eqn:Hm; cbn [negb].
  - assert (Hc : complete_address p item = (false, item)).
    { unfold complete_address. rewrite Hmode.
      apply IN6_ARE_ADDR_EQUAL_eq in Hm. rewrite Hm.
      destruct (iid_id_is_zero (iid p)); [done|].
      destruct Hterm as [Hterm|Hterm]; [done | by rewrite Hterm]. }
    rewrite Hc. cbn [negb]. rewrite filter_cons_False by (rewrite Hm; by intros ?).
    rewrite IH.
    + unfold get_addresses in *. simpl.
      rewrite (list_insert_id _ _ _ Hi), take_delete_same, drop_delete_same; done.
    + done.
    + done.
    + unfold get_addresses. simpl. rewrite length_delete, length_insert.
      * unfold get_addresses in Hlen. lia.
      * apply lookup_lt_is_Some. by rewrite length_insert.
  - rewrite filter_cons_True by done. rewrite IH by (done || lia).
    by rewrite (take_S_r _ _ _ Hi), <- app_assoc.
Qed.

Lemma nm_ndisc_set_iid_others priv new_iid clock :
  gateways (rdata (fst (nm_ndisc_set_iid priv new_iid clock))) = gateways (rdata priv) /\
  routes (rdata (fst (nm_ndisc_set_iid priv new_iid clock))) = routes (rdata priv) /\
  dns_servers (rdata (fst (nm_ndisc_set_iid priv new_iid clock))) = dns_servers (rdata priv) /\
  dns_domains (rdata (fst (nm_ndisc_set_iid priv new_iid clock))) = dns_domains (rdata priv).
Proof.
  unfold nm_ndisc_set_iid. destruct (negb _); [|done]. simpl.
  destruct (addr_gen_mode priv); simpl; [|done].
  destruct (negb _); [|done]. by rewrite solicit_rdata.
Qed.

Lemma nm_ndisc_dad_failed_others priv address :
  exists l changed,
    nm_ndisc_dad_failed priv address
    = (if changed : bool
       then _emit_config_change (set_addresses l priv) NM_NDISC_CONFIG_ADDRESSES
       else set_addresses l priv).
Proof.
  unfold nm_ndisc_dad_failed.
  destruct (dad_failed_loop_effect address (length (get_addresses priv)) priv 0%nat false)
    as (A & _); [lia|].
  destruct (dad_failed_loop _ _ _ _ _) as [p' changed]. simpl in A.
  exists (get_addresses p'), changed. by rewrite <- A.
Qed.

Lemma step_unique priv c :
  identities_unique (rdata priv) -> identities_unique (rdata (step priv c)).
Proof.
  intros H. destruct c; simpl.
  - by rewrite (proj1 (nm_ndisc_start_rdata _ _ _)).
  - by apply nm_ndisc_add_gateway_unique.
  - destruct (nm_ndisc_complete_and_add_address_others priv new) as [l ->].
    by apply (identities_unique_same priv).
  - by apply nm_ndisc_add_route_unique.
  - by apply nm_ndisc_add_dns_server_unique.
  - by apply nm_ndisc_add_dns_domain_unique.
  - by apply check_timestamps_unique.
  - destruct (nm_ndisc_dad_failed_others priv address) as (l & changed & ->).
    apply (identities_unique_same priv); try done; by destruct changed.
  - destruct (nm_ndisc_set_iid_others priv new_iid clock) as (H1 & H2 & H3 & H4).
    by apply (identities_unique_same priv).
  - destruct (send_rs_id priv); [|done].
    by rewrite (proj1 (send_rs_timeout_rdata _ _ _ _)).
  - by destruct (ra_timeout_id priv).
  - destruct (timeout_id priv); [|done]. by apply check_timestamps_unique.
Qed.

Lemma run_unique calls : forall priv,
  identities_unique (rdata priv) -> identities_unique (rdata (run calls priv)).
Proof.
  induction calls as [|c calls IH]; intros priv H; simpl; [done|].
  apply IH. by apply step_unique.
Qed.

(** X5, identities are unique.  Whatever the calls made on a new engine,
    no two gateways have the same address, no two routes the same network
    and prefix length, no two DNS servers the same address and no two DNS
    domains the same name. *)
Theorem identities_stay_unique calls ifname_ network_id_ mode stable_type_ max_addresses_
    rs rsi :
  identities_unique
    (rdata (run calls (nm_ndisc_new ifname_ network_id_ mode stable_type_ max_addresses_
                         rs rsi))).
Proof.
  apply run_unique. unfold identities_unique. simpl. repeat split; constructor.
Qed.

(** X6, what a DAD failure changes.  [nm_ndisc_dad_failed] for an address
    that no stored address equals changes nothing and emits nothing.
    Otherwise it changes the address array alone, without lengthening it,
    and emits [config_changed] with the ADDRESSES bit once; the gateways,
    routes and DNS arrays, the three timers and the pacer are as before (no
    new solicitation is forced). *)
Theorem nm_ndisc_dad_failed_effect priv address :
  (existsb (fun x => IN6_ARE_ADDR_EQUAL (addr_address x) address) (get_addresses priv) = false ->
   nm_ndisc_dad_failed priv address = priv) /\
  (existsb (fun x => IN6_ARE_ADDR_EQUAL (addr_address x) address) (get_addresses priv) = true ->
   exists l,
     nm_ndisc_dad_failed priv address
       = _emit_config_change (set_addresses l priv) NM_NDISC_CONFIG_ADDRESSES /\
     (length l <= length (get_addresses priv))%nat).
Proof.
  unfold nm_ndisc_dad_failed.
  destruct (dad_failed_loop_effect address (length (get_addresses priv)) priv 0%nat false)
    as (A & _ & C & D & E); [lia|].
  rewrite drop_0 in D, E.
  destruct (dad_failed_loop _ _ _ _ _) as [p' changed]. simpl in A, C, D, E.
  split; intros Hhit; rewrite Hhit in D; simpl in D; subst changed.
  - by apply E.
  - exists (get_addresses p'). by rewrite <- A.
Qed.

(** X7, a DAD failure is terminal in EUI-64 mode.  When no identifier is
    set, or the failed address has host bits, [nm_ndisc_dad_failed] removes
    every stored address equal to the failed one and keeps the others in
    their order; it announces the change exactly when it removed
    something. *)
Theorem nm_ndisc_dad_failed_eui64 priv address :
  addr_gen_mode priv = NM_SETTING_IP6_CONFIG_ADDR_GEN_MODE_EUI64 ->
  iid_id_is_zero (iid priv) = true
  \/ (s6_addr32_2 address =? 0) && (s6_addr32_3 address =? 0) = false ->
  nm_ndisc_dad_failed priv address
  = (if existsb (fun x => IN6_ARE_ADDR_EQUAL (addr_address x) address) (get_addresses priv)
     then _emit_config_change
            (set_addresses
               (filter (fun x => IN6_ARE_ADDR_EQUAL (addr_address x) address = false)
                  (get_addresses priv)) priv)
            NM_NDISC_CONFIG_ADDRESSES
     else priv).
Proof.
  intros Hmode Hterm. unfold nm_ndisc_dad_failed.
  destruct (dad_failed_loop_effect address (length (get_addresses priv)) priv 0%nat false)
    as (A & _ & _ & D & E); [lia|].
  pose proof (dad_failed_loop_eui64 address (length (get_addresses priv)) priv 0%nat false
                Hmode Hterm ltac:(lia)) as F.
  rewrite drop_0 in D, E, F. rewrite take_0 in F. simpl in F.
  destruct (dad_failed_loop _ _ _ _ _) as [p' changed]. simpl in A, D, E, F.
  subst changed. destruct (existsb _ _).
  - by rewrite A, F.
  - by apply E.
Qed.

(** X8, the one EUI-64 candidate.  In EUI-64 mode with an identifier set,
    [complete_address] fills the empty host part of an address with the
    identifier and leaves the rest of the record alone; completing the
    result once more fails and changes nothing. *)
Theorem complete_address_eui64 priv addr :
  addr_gen_mode priv = NM_SETTING_IP6_CONFIG_ADDR_GEN_MODE_EUI64 ->
  iid_id_is_zero (iid priv) = false ->
  s6_addr32_2 (addr_address addr) = 0 ->
  s6_addr32_3 (addr_address addr) = 0 ->
  complete_address priv addr
    = (true, set_addr_address
               (in6 (s6_addr32_0 (addr_address addr)) (s6_addr32_1 (addr_address addr))
                  (id_lo32 (iid priv)) (id_hi32 (iid priv))) addr) /\
  complete_address priv (snd (complete_address priv addr))
    = (false, snd (complete_address priv addr)).
Proof.
  intros Hmode Hiid H2 H3. unfold complete_address. rewrite Hmode, Hiid, H2, H3. simpl.
  split; [done|]. unfold iid_id_is_zero in Hiid. by rewrite Hiid.
Qed.

(** ** Where a new item goes *)

Section PositionFacts.
Context {T : Type}.
Variable same_identity : T -> T -> bool.
Variable lifetime : T -> Z.
Variable preference : T -> Z.
Variable position : Z -> Z.

Lemma first_less_preferable_snoc new (scanned : list T) (x : T) :
  first_less_preferable preference new (scanned ++ [x])
  = (if (preference x <? preference new) && (first_less_preferable preference new scanned <? 0)
     then Z.of_nat (length scanned)
     else first_less_preferable preference new scanned).
Proof.
  unfold first_less_preferable.
  destruct (list_find _ scanned) as [[k y]|] eqn:E.
  - rewrite (list_find_app_l _ _ _ _ _ E).
    destruct (Z.ltb_spec (Z.of_nat k) 0); [lia|]. by rewrite andb_false_r.
  - rewrite (list_find_app_r _ _ _ E). simpl.
    destruct (preference x <? preference new); simpl; done.
Qed.

(** With a lifetime other than 0 and no stored item that has both the
    identity and the preference of the new one, the loop drops the items with
    that identity and then inserts the new item at the position that
    [insert_idx] gives: in front of the first less preferable item that is
    left, or for -1. *)
Lemma add_loop_replaces new fuel : forall scanned rest,
  lifetime new <> 0 ->
  (forall x, x ∈ rest -> same_identity x new = true -> preference x <> preference new) ->
  (length rest <= fuel)%nat ->
  add_loop same_identity lifetime preference position fuel new (scanned ++ rest)
    (length scanned) (first_less_preferable preference new scanned)
  = (g_array_insert_val (scanned ++ without_identity same_identity new rest)
       (Z.to_nat (position (first_less_preferable preference new
                              (scanned ++ without_identity same_identity new rest))))
       new, true).
Proof.
  intros scanned rest Hnz. revert scanned rest.
  assert (Hz : (lifetime new =? 0) = false) by (by apply Z.eqb_neq).
  assert (Hafter : forall scanned,
            add_after_loop lifetime position new (scanned ++ [])
              (first_less_preferable preference new scanned)
            = (g_array_insert_val (scanned ++ without_identity same_identity new [])
                 (Z.to_nat (position (first_less_preferable preference new
                                        (scanned ++ without_identity same_identity new []))))
                 new, true)).
  { intros scanned. unfold add_after_loop, without_identity. rewrite Hz. simpl.
    by rewrite !app_nil_r. }
  induction fuel as [|fuel IH]; intros scanned rest Hpref Hlen.
  { destruct rest; [apply Hafter | simpl in Hlen; lia]. }
  destruct rest as [|x rest]; simpl.
  { rewrite (proj2 (lookup_ge_None _ _)) by (rewrite length_app; simpl; lia). apply Hafter. }
  rewrite list_lookup_middle by done. unfold without_identity.
  destruct (same_identity x new) eqn:Hid.
  - rewrite Hz.
    assert (Hp : negb (preference x =? preference new) = true).
    { apply negb_true_iff, Z.eqb_neq, Hpref; [by left | done]. }
    rewrite Hp, delete_middle, filter_cons_False by (rewrite Hid; by intros ?).
    apply IH; [|simpl in Hlen; lia]. intros y Hy. apply Hpref. by right.
  - rewrite filter_cons_True by done.
    rewrite <- first_less_preferable_snoc.
    rewrite (cons_middle x scanned rest), (cons_middle x scanned (filter _ rest)), !app_assoc.
    replace (S (length scanned)) with (length (scanned ++ [x]))
      by (rewrite length_app; simpl; lia).
    apply IH; [|simpl in Hlen; lia]. intros y Hy. apply Hpref. by right.
Qed.

Lemma add_loop_stores new fuel : forall arr i insert_idx,
  lifetime new <> 0 ->
  new ∈ fst (add_loop same_identity lifetime preference position fuel new arr i insert_idx).
Proof.
  intros arr i insert_idx Hnz. revert arr i insert_idx.
  assert (Hz : (lifetime new =? 0) = false) by (by apply Z.eqb_neq).
  assert (Hafter : forall arr insert_idx,
            new ∈ fst (add_after_loop lifetime position new arr insert_idx)).
  { intros arr insert_idx. unfold add_after_loop, g_array_insert_val. rewrite Hz. simpl.
    apply elem_of_app. right. by left. }
  induction fuel as [|fuel IH]; intros arr i insert_idx; simpl; [apply Hafter|].
  destruct (arr !! i) as [item|] eqn:Hi; [|apply Hafter].
  destruct (same_identity item new); [|apply IH].
  rewrite Hz. destruct (negb (preference item =? preference new)); [apply IH|].
  simpl. apply list_elem_of_insert. by eapply lookup_lt_Some.
Qed.
End PositionFacts.

(** X9, a new preference replaces the old item in one call.  When the
    lifetime is not 0 and no stored gateway with the address of the new one
    has its preference (in particular when none has its address),
    [nm_ndisc_add_gateway] removes the stored gateways with that address and
    inserts the new one in front of the first remaining gateway that is less
    preferable, or at the head when there is none, and returns true.  The
    same holds for routes with a prefix length from 1 to 128, keyed on
    network and prefix length. *)
Theorem add_with_new_preference_replaces :
  (forall priv new,
     gw_lifetime new <> 0 ->
     (forall x, x ∈ get_gateways priv -> gateway_same_identity x new = true ->
                gw_preference x <> gw_preference new) ->
     nm_ndisc_add_gateway priv new
     = (set_gateways
          (g_array_insert_val
             (without_identity gateway_same_identity new (get_gateways priv))
             (Z.to_nat (MAX (first_less_preferable gw_preference new
                               (without_identity gateway_same_identity new
                                  (get_gateways priv))) 0))
             new) priv, true)) /\
  (forall priv new,
     rt_lifetime new <> 0 ->
     (rt_plen new =? 0) || (rt_plen new >? 128) = false ->
     (forall x, x ∈ get_routes priv -> route_same_identity x new = true ->
                rt_preference x <> rt_preference new) ->
     nm_ndisc_add_route priv new
     = (set_routes
          (g_array_insert_val
             (without_identity route_same_identity new (get_routes priv))
             (Z.to_nat (CLAMP (first_less_preferable rt_preference new
                                 (without_identity route_same_identity new
                                    (get_routes priv))) 0 G_MAXINT))
             new) priv, true)).
Proof.
  split.
  - intros priv new Hnz Hpref. rewrite nm_ndisc_add_gateway_eq. unfold add_by_preference.
    pose proof (add_loop_replaces gateway_same_identity gw_lifetime gw_preference
                  (fun insert_idx => MAX insert_idx 0) new (length (get_gateways priv))
                  [] (get_gateways priv) Hnz Hpref ltac:(lia)) as H.
    simpl in H. change (first_less_preferable gw_preference new []) with (-1) in H.
    by rewrite H.
  - intros priv new Hnz Hplen Hpref. rewrite nm_ndisc_add_route_eq by done.
    unfold add_by_preference.
    pose proof (add_loop_replaces route_same_identity rt_lifetime rt_preference
                  (fun insert_idx => CLAMP insert_idx 0 G_MAXINT) new
                  (length (get_routes priv))
                  [] (get_routes priv) Hnz Hpref ltac:(lia)) as H.
    simpl in H. change (first_less_preferable rt_preference new []) with (-1) in H.
    by rewrite H.
Qed.

(** X10, what is added is stored.  After an add operation with a lifetime
    other than 0 the new item is in its array: always for gateways, DNS
    servers and DNS domains, for routes with a prefix length from 1 to 128,
    and for an address that completes when the array is below the cap or
    there is no cap. *)
Theorem add_stores_item :
  (forall priv new, gw_lifetime new <> 0 ->
     new ∈ get_gateways (fst (nm_ndisc_add_gateway priv new))) /\
  (forall priv new, rt_lifetime new <> 0 ->
     (rt_plen new =? 0) || (rt_plen new >? 128) = false ->
     new ∈ get_routes (fst (nm_ndisc_add_route priv new))) /\
  (forall priv new, dns_lifetime new <> 0 ->
     new ∈ get_dns_servers (fst (nm_ndisc_add_dns_server priv new))) /\
  (forall priv new, dom_lifetime new <> 0 ->
     new ∈ get_dns_domains (fst (nm_ndisc_add_dns_domain priv new))) /\
  (forall priv new, addr_lifetime new <> 0 ->
     fst (complete_address priv new) = true ->
     max_addresses priv = 0
     \/ Z.of_nat (length (get_addresses priv)) < to_guint32 (max_addresses priv) ->
     snd (complete_address priv new)
       ∈ get_addresses (fst (fst (nm_ndisc_complete_and_add_address priv new)))).
Proof.
  assert (Hlast : forall (T : Type) (arr : list T) (x : T),
            x ∈ g_array_insert_val arr (length arr) x).
  { intros T arr x. unfold g_array_insert_val. apply elem_of_app. right. by left. }
  split; [|split; [|split; [|split]]].
  - intros priv new Hnz. rewrite nm_ndisc_add_gateway_eq. simpl. by apply add_loop_stores.
  - intros priv new Hnz Hplen. rewrite nm_ndisc_add_route_eq by done. simpl.
    by apply add_loop_stores.
  - intros priv new Hnz. apply Z.eqb_neq in Hnz.
    unfold nm_ndisc_add_dns_server, get_dns_servers.
    destruct (list_find _ _) as [[i item]|] eqn:Hf; rewrite Hnz; simpl; [|apply Hlast].
    apply list_find_Some in Hf as (Hi & Ht & _). apply IN6_ARE_ADDR_EQUAL_eq in Ht.
    destruct (negb (dns_timestamp item =? dns_timestamp new)
              || negb (dns_lifetime item =? dns_lifetime new)) eqn:Hch; simpl.
    + apply list_elem_of_insert. by eapply lookup_lt_Some.
    + apply orb_false_elim in Hch as [H1 H2].
      apply negb_false_iff, Z.eqb_eq in H1, H2.
      apply (list_elem_of_lookup_2 _ i). rewrite Hi. f_equal.
      destruct item, new. simpl in *. by subst.
  - intros priv new Hnz. apply Z.eqb_neq in Hnz.
    unfold nm_ndisc_add_dns_domain, get_dns_domains.
    destruct (list_find _ _) as [[i item]|] eqn:Hf; rewrite Hnz; simpl; [|apply Hlast].
    apply list_find_Some in Hf as (Hi & Ht & _). apply g_strcmp0_equal_eq in Ht.
    destruct (negb (dom_timestamp item =? dom_timestamp new)
              || negb (dom_lifetime item =? dom_lifetime new)) eqn:Hch; simpl.
    + replace new with (set_dom_times (dom_timestamp new) (dom_lifetime new) item) at 1
        by (destruct item, new; simpl in *; by subst).
      apply list_elem_of_insert. by eapply lookup_lt_Some.
    + apply orb_false_elim in Hch as [H1 H2].
      apply negb_false_iff, Z.eqb_eq in H1, H2.
      apply (list_elem_of_lookup_2 _ i). rewrite Hi. f_equal.
      destruct item, new. simpl in *. by subst.
  - intros priv new Hnz Hok Hcap. unfold nm_ndisc_complete_and_add_address.
    destruct (complete_address priv new) as [ok completed] eqn:Hc.
    apply complete_address_times in Hc as (_ & Hl & _).
    simpl in Hok. subst ok. simpl.
    assert (Hz : (addr_lifetime completed =? 0) = false) by (apply Z.eqb_neq; congruence).
    unfold get_addresses.
    destruct (list_find _ _) as [[i item]|] eqn:Hf; rewrite Hz; simpl.
    + apply list_find_Some in Hf as (Hi & _). apply list_elem_of_insert.
      by eapply lookup_lt_Some.
    + assert (Hroom : negb (max_addresses priv =? 0)
                      && (Z.of_nat (length (addresses (rdata priv)))
                          >=? to_guint32 (max_addresses priv)) = false).
      { unfold get_addresses in Hcap. destruct Hcap as [->|Hlt]; [done|].
        apply andb_false_iff. right.
        destruct (Z.geb_spec (Z.of_nat (length (addresses (rdata priv))))
                    (to_guint32 (max_addresses priv))); [lia | done]. }
      rewrite Hroom. simpl. apply Hlast.
Qed.

(** X11, the change flag of the DNS operations is exact.
    [nm_ndisc_add_dns_server] and [nm_ndisc_add_dns_domain] return false
    exactly when they leave the engine as it was. *)
Theorem dns_change_flag_exact :
  (forall priv new,
     snd (nm_ndisc_add_dns_server priv new) = false <->
     fst (nm_ndisc_add_dns_server priv new) = priv) /\
  (forall priv new,
     snd (nm_ndisc_add_dns_domain priv new) = false <->
     fst (nm_ndisc_add_dns_domain priv new) = priv).
Proof.
  assert (Hdel : forall (T : Type) (arr : list T) (i : nat) (x : T),
            arr !! i = Some x -> delete i arr <> arr).
  { intros T arr i x Hi Heq. apply (f_equal length) in Heq.
    rewrite length_delete in Heq by eauto. apply lookup_lt_Some in Hi. lia. }
  assert (Hins : forall (T : Type) (arr : list T) (x : T),
            g_array_insert_val arr (length arr) x <> arr).
  { intros T arr x Heq. apply (f_equal length) in Heq.
    rewrite length_g_array_insert_val in Heq. lia. }
  split; intros priv new.
  - unfold nm_ndisc_add_dns_server, get_dns_servers.
    destruct (list_find _ _) as [[i item]|] eqn:Hf.
    + apply list_find_Some in Hf as (Hi & _).
      destruct (dns_lifetime new =? 0); simpl.
      { split; [done|]. intros Heq. apply (f_equal get_dns_servers) in Heq.
        destruct (Hdel _ _ _ _ Hi Heq). }
      destruct (negb (dns_timestamp item =? dns_timestamp new)
                || negb (dns_lifetime item =? dns_lifetime new)) eqn:Hch; simpl; [|done].
      split; [done|]. intros Heq. apply (f_equal get_dns_servers) in Heq.
      unfold get_dns_servers in Heq. simpl in Heq.
      apply (f_equal (fun l => l !! i)) in Heq.
      rewrite list_lookup_insert_eq, Hi in Heq by (by eapply lookup_lt_Some).
      injection Heq as <-. by rewrite !Z.eqb_refl in Hch.
    + destruct (negb (dns_lifetime new =? 0)); simpl; [|done].
      split; [done|]. intros Heq. apply (f_equal get_dns_servers) in Heq.
      destruct (Hins _ _ _ Heq).
  - unfold nm_ndisc_add_dns_domain, get_dns_domains.
    destruct (list_find _ _) as [[i item]|] eqn:Hf.
    + apply list_find_Some in Hf as (Hi & _).
      destruct (dom_lifetime new =? 0); simpl.
      { split; [done|]. intros Heq. apply (f_equal get_dns_domains) in Heq.
        destruct (Hdel _ _ _ _ Hi Heq). }
      destruct (negb (dom_timestamp item =? dom_timestamp new)
                || negb (dom_lifetime item =? dom_lifetime new)) eqn:Hch; simpl; [|done].
      split; [done|]. intros Heq. apply (f_equal get_dns_domains) in Heq.
      unfold get_dns_domains in Heq. simpl in Heq.
      apply (f_equal (fun l => l !! i)) in Heq.
      rewrite list_lookup_insert_eq, Hi in Heq by (by eapply lookup_lt_Some).
      injection Heq as Heq. rewrite <- Heq in Hch. simpl in Hch.
      by rewrite !Z.eqb_refl in Hch.
    + destruct (negb (dom_lifetime new =? 0)); simpl; [|done].
      split; [done|]. intros Heq. apply (f_equal get_dns_domains) in Heq.
      destruct (Hins _ _ _ Heq).
Qed.

(** ** The first-RA timeout in a run *)

Lemma ra_timeouts_accounted_same p p' :
  ra_timeout_id p' = ra_timeout_id p ->
  trace p' = trace p \/ (exists d c, trace p' = trace p ++ [CONFIG_CHANGED d c])
  \/ (exists r, trace p' = trace p ++ [KLASS_SEND_RS r]) ->
  ra_timeouts_accounted p -> ra_timeouts_accounted p'.
Proof.
  unfold ra_timeouts_accounted. intros -> [->|[(d & c & ->)|(r & ->)]]; [done|..];
    rewrite !count_events_app; simpl; lia.
Qed.

Lemma check_timestamps_quiet p clock now c :
  ra_timeout_id (check_timestamps p clock now c) = ra_timeout_id p /\
  (trace (check_timestamps p clock now c) = trace p
   \/ exists d c', trace (check_timestamps p clock now c) = trace p ++ [CONFIG_CHANGED d c']).
Proof.
  unfold check_timestamps.
  destruct (clean_all (set_timeout_id None p) clock now c) as [[p' c'] n'] eqn:E.
  pose proof (clean_all_frame _ trace _ _ _ _ _ _ _
                ltac:(done) ltac:(done) ltac:(done) ltac:(done) ltac:(done) solicit_trace E)
    as Ht.
  pose proof (clean_all_frame _ ra_timeout_id _ _ _ _ _ _ _
                ltac:(done) ltac:(done) ltac:(done) ltac:(done) ltac:(done)
                solicit_ra_timeout_id E) as Hr.
  simpl in Ht, Hr. rewrite <- Ht, <- Hr.
  destruct (negb (c' =? 0)), (negb (n' =? never)), (n' >? now); simpl; eauto.
Qed.

Lemma add_dns_others priv :
  (forall new, exists l, fst (nm_ndisc_add_dns_server priv new) = set_dns_servers l priv) /\
  (forall new, exists l, fst (nm_ndisc_add_dns_domain priv new) = set_dns_domains l priv).
Proof.
  assert (Hid : priv = set_dns_servers (get_dns_servers priv) priv /\
                priv = set_dns_domains (get_dns_domains priv) priv)
    by (by destruct priv as [[]]).
  destruct Hid as [H1 H2]. split; intros new.
  - unfold nm_ndisc_add_dns_server. destruct (list_find _ _) as [[i item]|].
    + destruct (dns_lifetime new =? 0); simpl; [by eauto|].
      destruct (_ || _); simpl; by eauto.
    + destruct (negb _); simpl; by eauto.
  - unfold nm_ndisc_add_dns_domain. destruct (list_find _ _) as [[i item]|].
    + destruct (dom_lifetime new =? 0); simpl; [by eauto|].
      destruct (_ || _); simpl; by eauto.
    + destruct (negb _); simpl; by eauto.
Qed.

Lemma step_ra_timeouts_accounted priv c :
  ra_timeouts_accounted priv -> ra_timeouts_accounted (step priv c).
Proof.
  intros H. destruct c; simpl.
  - unfold nm_ndisc_start. destruct (ra_timeout_id priv) eqn:E; [done|].
    destruct netns_ok; simpl; [|done].
    unfold ra_timeouts_accounted in *.
    rewrite solicit_trace, solicit_ra_timeout_id. simpl.
    rewrite !count_events_app, E in *. simpl. lia.
  - rewrite nm_ndisc_add_gateway_eq. simpl.
    apply (ra_timeouts_accounted_same priv); auto.
  - destruct (nm_ndisc_complete_and_add_address_others priv new) as [l ->].
    apply (ra_timeouts_accounted_same priv); auto.
  - destruct ((rt_plen new =? 0) || (rt_plen new >? 128)) eqn:E.
    { unfold nm_ndisc_add_route. by rewrite E. }
    rewrite nm_ndisc_add_route_eq by done. simpl.
    apply (ra_timeouts_accounted_same priv); auto.
  - destruct (proj1 (add_dns_others priv) new) as [l ->].
    apply (ra_timeouts_accounted_same priv); auto.
  - destruct (proj2 (add_dns_others priv) new) as [l ->].
    apply (ra_timeouts_accounted_same priv); auto.
  - unfold nm_ndisc_ra_received.
    set (q := set_last_send_rs_error None (set_send_rs_id None (set_ra_timeout_id None priv))).
    destruct (check_timestamps_quiet q clock now changed) as [Hr Ht].
    assert (Hq : ra_timeouts_accounted q).
    { unfold ra_timeouts_accounted in *. simpl. destruct (ra_timeout_id priv); lia. }
    apply (ra_timeouts_accounted_same q); auto.
    destruct Ht as [Ht|Ht]; auto.
  - destruct (nm_ndisc_dad_failed_others priv address) as (l & changed & ->).
    apply (ra_timeouts_accounted_same priv); [by destruct changed | | done].
    destruct changed; simpl; eauto.
  - unfold nm_ndisc_set_iid. destruct (negb _); [|done]. simpl.
    destruct (addr_gen_mode priv); simpl;
      [|apply (ra_timeouts_accounted_same priv); auto].
    destruct (negb _); [|apply (ra_timeouts_accounted_same priv); auto].
    apply (ra_timeouts_accounted_same priv);
      [by rewrite solicit_ra_timeout_id | | done].
    rewrite solicit_trace. simpl. eauto.
  - destruct (send_rs_id priv); [|done].
    apply (ra_timeouts_accounted_same priv); [| | done].
    + unfold send_rs_timeout. destruct netns_ok; simpl; [|done].
      destruct result as [|message]; simpl.
      * by destruct (_ >? 0).
      * destruct (negb _); simpl; by destruct (_ >? 0).
    + unfold send_rs_timeout. destruct netns_ok; simpl; [|by left].
      right. right. exists result.
      destruct result as [|message]; simpl.
      * by destruct (_ >? 0).
      * destruct (negb _); simpl; by destruct (_ >? 0).
  - destruct (ra_timeout_id priv) eqn:E; [|done].
    unfold ra_timeouts_accounted in *. simpl.
    rewrite count_events_app, E in *. simpl. rewrite count_events_app. simpl. lia.
  - destruct (timeout_id priv); [|done]. unfold timeout_cb.
    destruct (check_timestamps_quiet (set_timeout_id None priv) clock (to_guint32 clock) 0)
      as [Hr Ht].
    apply (ra_timeouts_accounted_same priv); auto.
    destruct Ht as [Ht|Ht]; auto.
Qed.

(** X12, one [ra_timeout] per start at most.  In every run of a new engine
    the number of [ra_timeout] signals emitted, plus one while the first-RA
    timer is pending, is at most the number of times the transport's [start]
    was called: the timeout fires at most once per start, and not at all for
    a start whose timer an advertisement has cancelled. *)
Theorem ra_timeout_once_per_start calls ifname_ network_id_ mode stable_type_ max_addresses_
    rs rsi :
  ra_timeouts_accounted
    (run calls (nm_ndisc_new ifname_ network_id_ mode stable_type_ max_addresses_ rs rsi)).
Proof.
  assert (H : forall l p, ra_timeouts_accounted p -> ra_timeouts_accounted (run l p)).
  { induction l as [|c l IH]; intros p Hp; simpl; [done|].
    apply IH. by apply step_ra_timeouts_accounted. }
  apply H. unfold ra_timeouts_accounted. simpl. done.
Qed.

(** X13, the change-mask string fits its buffer and is faithful.  For
    every mask [config_map_to_string] writes at most six letters, so with the
    terminating NUL it stays within the [CONFIG_MAP_MAX_STR] bytes of the
    buffer, and each of the letters d, G, A, R, S, D is in the string exactly
    when the bit of the DHCP level, gateways, addresses, routes, DNS servers
    or DNS domains is set in the mask. *)
Theorem config_map_to_string_fits map :
  Z.of_nat (String.length (config_map_to_string map)) + 1 <= CONFIG_MAP_MAX_STR /\
  string_mem "d" (config_map_to_string map) = negb (Z.land map NM_NDISC_CONFIG_DHCP_LEVEL =? 0) /\
  string_mem "G" (config_map_to_string map) = negb (Z.land map NM_NDISC_CONFIG_GATEWAYS =? 0) /\
  string_mem "A" (config_map_to_string map) = negb (Z.land map NM_NDISC_CONFIG_ADDRESSES =? 0) /\
  string_mem "R" (config_map_to_string map) = negb (Z.land map NM_NDISC_CONFIG_ROUTES =? 0) /\
  string_mem "S" (config_map_to_string map)
    = negb (Z.land map NM_NDISC_CONFIG_DNS_SERVERS =? 0) /\
  string_mem "D" (config_map_to_string map)
    = negb (Z.land map NM_NDISC_CONFIG_DNS_DOMAINS =? 0).
Proof.
  unfold config_map_to_string, config_map_letter, CONFIG_MAP_MAX_STR.
  destruct (Z.land map NM_NDISC_CONFIG_DHCP_LEVEL =? 0),
           (Z.land map NM_NDISC_CONFIG_GATEWAYS =? 0),
           (Z.land map NM_NDISC_CONFIG_ADDRESSES =? 0),
           (Z.land map NM_NDISC_CONFIG_ROUTES =? 0),
           (Z.land map NM_NDISC_CONFIG_DNS_SERVERS =? 0),
           (Z.land map NM_NDISC_CONFIG_DNS_DOMAINS =? 0);
    vm_compute; split_ands; (reflexivity || discriminate).
Qed.

(** X14, the delay of a solicitation.  With no send timer pending and all
    values within [gint32], [solicit] arms the send timer with the time that
    is left until [router_solicitation_interval] seconds after the last
    solicitation, at least 0 and at most [G_MAXINT32]: the 64-bit
    computation does not wrap, and the count of solicitations is set to
    [router_solicitations].  On a new engine, whose [last_rs] is
    [G_MININT32], the first solicitation is scheduled at once. *)
Theorem solicit_delay priv clock :
  send_rs_id priv = None ->
  G_MININT32 <= last_rs priv <= G_MAXINT32 ->
  G_MININT32 <= router_solicitation_interval priv <= G_MAXINT32 ->
  G_MININT32 <= clock <= G_MAXINT32 ->
  send_rs_id (solicit priv clock)
    = Some (Z.max 0 (Z.min G_MAXINT32
                       (last_rs priv + router_solicitation_interval priv - clock))) /\
  solicitations_left (solicit priv clock) = router_solicitations priv /\
  (last_rs priv = G_MININT32 -> 0 <= clock -> send_rs_id (solicit priv clock) = Some 0).
Proof.
  intros Hid Hl Hi Hc.
  assert (Hs : send_rs_id (solicit priv clock)
               = Some (Z.max 0 (Z.min G_MAXINT32
                                  (last_rs priv + router_solicitation_interval priv - clock)))).
  { unfold solicit. rewrite Hid. simpl. unfold G_MININT32, G_MAXINT32 in *.
    rewrite (to_gint64_small (_ + _)) by lia. rewrite to_gint64_small by lia.
    rewrite CLAMP_spec by lia. rewrite to_guint32_small by (unfold G_MAXUINT32; lia). done. }
  split; [exact Hs|]. split.
  - unfold solicit. by rewrite Hid.
  - intros Hnew Hpos. rewrite Hs. f_equal. unfold G_MININT32, G_MAXINT32 in *. lia.
Qed.

(** X15, no timer outlives [dispose].  After [dispose] none of the three
    timers is pending and the remembered send error is cleared, so whatever
    timers fire afterwards, in any order, change nothing; the store is
    untouched by [dispose]. *)
Theorem dispose_stops_timers priv calls :
  forallb is_timer calls = true ->
  run calls (dispose priv) = dispose priv /\ rdata (dispose priv) = rdata priv.
Proof.
  intros H. split; [|done].
  induction calls as [|c calls IH]; [done|].
  simpl in H. apply andb_true_iff in H as [Hc Hcalls]. simpl.
  destruct c; try discriminate; simpl; by apply IH.
Qed.

Lemma rs_burst_runs_out ticks : forall p,
  forallb tick_succeeds ticks = true ->
  send_rs_id p <> None ->
  1 <= solicitations_left p <= G_MAXINT32 ->
  solicitations_left p <= Z.of_nat (length ticks) ->
  send_rs_id (rs_burst ticks p) = None /\ solicitations_left (rs_burst ticks p) = 0.
Proof.
  induction ticks as [|t ticks IH]; intros p Hok Hid Hleft Hlen; simpl in *; [lia|].
  apply andb_true_iff in Hok as [Ht Hok].
  unfold tick_succeeds in Ht. apply andb_true_iff in Ht as [Hn Hr].
  destruct (send_rs_id p) eqn:E; [|done].
  unfold send_rs_timeout. rewrite Hn. simpl.
  destruct (tick_result t); [|done]. simpl.
  rewrite (to_gint32_small (solicitations_left p - 1))
    by (unfold G_MININT32, G_MAXINT32 in *; lia).
  destruct (Z.gtb_spec (solicitations_left p - 1) 0) as [Hmore|Hlast].
  - apply IH; simpl; [done | done | lia | lia].
  - destruct ticks; simpl; split; done || lia.
Qed.

(** X16, a burst that meets no failure.  When the namespace can be entered
    and the transport succeeds at every tick, and there are at least
    [router_solicitations] ticks, the burst that [solicit] starts calls
    [send_rs] exactly [router_solicitations] times and then stops: no send
    timer is pending and no solicitation is left. *)
Theorem rs_burst_without_failure priv clock ticks :
  send_rs_id priv = None ->
  1 <= router_solicitations priv <= G_MAXINT32 ->
  forallb tick_succeeds ticks = true ->
  router_solicitations priv <= Z.of_nat (length ticks) ->
  burst_sends priv clock ticks = router_solicitations priv /\
  send_rs_id (rs_burst ticks (solicit priv clock)) = None /\
  solicitations_left (rs_burst ticks (solicit priv clock)) = 0.
Proof.
  intros Hid Hrs Hok Hlen.
  assert (Hleft : solicitations_left (solicit priv clock) = router_solicitations priv).
  { unfold solicit. by rewrite Hid. }
  assert (Harmed : send_rs_id (solicit priv clock) <> None).
  { unfold solicit. by rewrite Hid. }
  destruct (rs_burst_runs_out ticks (solicit priv clock)) as [Hstop Hzero];
    [done | done | lia | lia |].
  destruct (rs_burst_balance ticks (solicit priv clock)) as (_ & B & C); [lia | lia |].
  split; [|done].
  assert (Hnoerr : count_error_ticks ticks = 0).
  { clear -Hok. unfold count_error_ticks.
    induction ticks as [|t ticks IH]; [done|]. simpl in Hok.
    apply andb_true_iff in Hok as [Ht Hok]. unfold tick_succeeds in Ht.
    apply andb_true_iff in Ht as [_ Hr]. apply negb_true_iff in Hr.
    rewrite filter_cons_False by (rewrite Hr; by intros ?). by apply IH. }
  assert (Hmono : count_events is_send_rs_error (trace priv)
                  <= count_events is_send_rs_error (trace (rs_burst ticks (solicit priv clock)))).
  { clear. assert (H : forall l p, count_events is_send_rs_error (trace p)
                                   <= count_events is_send_rs_error (trace (rs_burst l p))).
    { induction l as [|t l IH]; intros p; simpl; [lia|].
      destruct (send_rs_id p); [|lia]. etrans; [|apply IH].
      unfold send_rs_timeout. destruct (tick_netns_ok t); simpl; [|lia].
      destruct (tick_result t) as [|message]; simpl.
      - destruct (_ >? 0); simpl; rewrite count_events_app; simpl; lia.
      - destruct (negb _); simpl; destruct (_ >? 0); simpl;
          rewrite count_events_app; simpl; lia. }
    specialize (H ticks (solicit priv clock)). by rewrite solicit_trace in H. }
  unfold burst_sends. rewrite !count_events_send_rs.
  rewrite solicit_trace in B, C. lia.
Qed.

(** ** When an insertion keeps the order of preference *)

Section OrderFacts.
Context {T : Type}.
Variable preference : T -> Z.

Lemma preference_ordered_cons x l :
  preference_ordered preference (x :: l)
  <-> Forall (fun y => preference x >= preference y) l /\ preference_ordered preference l.
Proof.
  unfold preference_ordered. split.
  - intros H. split.
    + apply Forall_lookup. intros j y Hy. apply (H 0%nat (S j) x y); [lia|done|done].
    + intros i j a b Hij Ha Hb. apply (H (S i) (S j) a b); [lia|done|done].
  - intros [HF HO] i j a b Hij Ha Hb. destruct j; [lia|]. destruct i; simpl in *.
    + injection Ha as <-. rewrite Forall_lookup in HF. by apply (HF j).
    + apply (HO i j); [lia|done|done].
Qed.

Lemma preference_ordered_filter (P : T -> Prop) `{!forall x, Decision (P x)} l :
  preference_ordered preference l -> preference_ordered preference (filter P l).
Proof.
  induction l as [|a l IH]; intros Hl; [done|].
  apply preference_ordered_cons in Hl as [HF HO].
  destruct (decide (P a)).
  - rewrite filter_cons_True by done. apply preference_ordered_cons. split; [|auto].
    apply Forall_forall. intros y Hy. apply list_elem_of_filter in Hy as [_ Hy].
    rewrite Forall_forall in HF. by apply HF.
  - rewrite filter_cons_False by done. auto.
Qed.

Lemma insert_before_less_preferable new l : forall k y,
  list_find (fun x => (preference x <? preference new) = true) l = Some (k, y) ->
  preference_ordered preference l ->
  preference_ordered preference (g_array_insert_val l k new).
Proof.
  induction l as [|a l IH]; intros k y Hf Ho; [done|].
  pose proof Ho as Ho'. apply preference_ordered_cons in Ho' as [HF HO].
  cbn in Hf. destruct (decide ((preference a <? preference new) = true)) as [Hlt|Hge].
  - injection Hf as <- <-. unfold g_array_insert_val. simpl.
    apply preference_ordered_cons. split; [|done].
    apply Z.ltb_lt in Hlt. constructor; [lia|].
    eapply Forall_impl; [exact HF|]. intros z Hz. simpl in Hz. lia.
  - destruct (list_find _ l) as [[k' y']|] eqn:E; simpl in Hf; [|done].
    injection Hf as <- <-. unfold g_array_insert_val. simpl.
    apply preference_ordered_cons. split.
    + apply Forall_app. split; [by apply Forall_take|].
      constructor; [|by apply Forall_drop].
      destruct (Z.ltb_spec (preference a) (preference new)); [done|lia].
    + by apply (IH k' y').
Qed.

Lemma insert_at_position_ordered (position : Z -> Z) new arr :
  position (-1) = 0 ->
  (forall k, (k < length arr)%nat -> position (Z.of_nat k) = Z.of_nat k) ->
  preference_ordered preference arr ->
  preference_ordered preference
    (g_array_insert_val arr (Z.to_nat (position (first_less_preferable preference new arr)))
       new)
  <-> (forall x, x ∈ arr -> preference x > preference new ->
                 exists y, y ∈ arr /\ preference y < preference new).
Proof.
  intros Hm Hk Ho. unfold first_less_preferable.
  destruct (list_find _ arr) as [[k y]|] eqn:E.
  - pose proof E as E'. apply list_find_Some in E' as (Hl & Hy & _).
    rewrite Hk by (by eapply lookup_lt_Some). rewrite Nat2Z.id. split.
    + intros _ x _ _. exists y. split; [by eapply list_elem_of_lookup_2|].
      by apply Z.ltb_lt.
    + intros _. by eapply insert_before_less_preferable.
  - rewrite Hm. change (Z.to_nat 0) with 0%nat. unfold g_array_insert_val.
    rewrite take_0, drop_0. simpl. apply list_find_None in E.
    rewrite preference_ordered_cons. split.
    + intros [HF _] x Hx Hgt. rewrite Forall_forall in HF. specialize (HF x Hx). lia.
    + intros H. split; [|done]. apply Forall_forall. intros x Hx.
      destruct (Z_gt_dec (preference x) (preference new)) as [Hgt|]; [|lia].
      destruct (H x Hx Hgt) as (y & Hy & Hlt). rewrite Forall_forall in E.
      exfalso. apply (E y Hy). by apply Z.ltb_lt.
Qed.
End OrderFacts.

(** X17, exactly when an insertion keeps the order of preference.  Take a
    store of gateways in non-increasing preference and a new gateway with a
    lifetime other than 0 whose address is not stored with the same
    preference.  After [nm_ndisc_add_gateway] the array is again in
    non-increasing preference exactly when every remaining gateway that is
    more preferable than the new one comes with a remaining gateway that is
    less preferable than it: the order is lost only by the insertion at the
    head that is made when nothing less preferable is found.  The same holds
    for routes with a prefix length from 1 to 128, in an array of at most
    [G_MAXINT] routes. *)
Theorem add_keeps_order_iff :
  (forall priv new,
     gw_lifetime new <> 0 ->
     (forall x, x ∈ get_gateways priv -> gateway_same_identity x new = true ->
                gw_preference x <> gw_preference new) ->
     preference_ordered gw_preference (get_gateways priv) ->
     preference_ordered gw_preference (get_gateways (fst (nm_ndisc_add_gateway priv new)))
     <-> (forall x, x ∈ without_identity gateway_same_identity new (get_gateways priv) ->
                    gw_preference x > gw_preference new ->
                    exists y, y ∈ without_identity gateway_same_identity new (get_gateways priv)
                              /\ gw_preference y < gw_preference new)) /\
  (forall priv new,
     rt_lifetime new <> 0 ->
     (rt_plen new =? 0) || (rt_plen new >? 128) = false ->
     Z.of_nat (length (get_routes priv)) <= G_MAXINT ->
     (forall x, x ∈ get_routes priv -> route_same_identity x new = true ->
                rt_preference x <> rt_preference new) ->
     preference_ordered rt_preference (get_routes priv) ->
     preference_ordered rt_preference (get_routes (fst (nm_ndisc_add_route priv new)))
     <-> (forall x, x ∈ without_identity route_same_identity new (get_routes priv) ->
                    rt_preference x > rt_preference new ->
                    exists y, y ∈ without_identity route_same_identity new (get_routes priv)
                              /\ rt_preference y < rt_preference new)).
Proof.
  split.
  - intros priv new Hnz Hpref Ho. rewrite nm_ndisc_add_gateway_eq. unfold add_by_preference.
    pose proof (add_loop_replaces gateway_same_identity gw_lifetime gw_preference
                  (fun insert_idx => MAX insert_idx 0) new (length (get_gateways priv))
                  [] (get_gateways priv) Hnz Hpref ltac:(lia)) as H.
    simpl in H. change (first_less_preferable gw_preference new []) with (-1) in H.
    rewrite H. simpl.
    apply (insert_at_position_ordered gw_preference (fun insert_idx => MAX insert_idx 0)).
    + done.
    + intros k _. unfold MAX. destruct (Z.gtb_spec (Z.of_nat k) 0); lia.
    + by apply preference_ordered_filter.
  - intros priv new Hnz Hplen Hlen Hpref Ho. rewrite nm_ndisc_add_route_eq by done.
    unfold add_by_preference.
    pose proof (add_loop_replaces route_same_identity rt_lifetime rt_preference
                  (fun insert_idx => CLAMP insert_idx 0 G_MAXINT) new
                  (length (get_routes priv))
                  [] (get_routes priv) Hnz Hpref ltac:(lia)) as H.
    simpl in H. change (first_less_preferable rt_preference new []) with (-1) in H.
    rewrite H. simpl.
    apply (insert_at_position_ordered rt_preference
             (fun insert_idx => CLAMP insert_idx 0 G_MAXINT)).
    + done.
    + intros k Hk. unfold without_identity in Hk.
      pose proof (length_filter (fun x => route_same_identity x new = false) (get_routes priv)).
      unfold CLAMP. destruct (Z.gtb_spec (Z.of_nat k) G_MAXINT); [lia|].
      destruct (Z.ltb_spec (Z.of_nat k) 0); lia.
    + by apply preference_ordered_filter.
Qed.

(** ** The change flag of an address *)

Lemma fmap_insert_same_iff {A B : Type} (f : A -> B) (l : list A) i x y :
  l !! i = Some y ->
  f <$> <[i:=x]> l = f <$> l <-> f x = f y.
Proof.
  intros Hi. rewrite list_fmap_insert. split.
  - intros H.
    assert (Hl : (<[i:=f x]> (f <$> l)) !! i = Some (f x)).
    { apply list_lookup_insert_eq. rewrite length_fmap. by eapply lookup_lt_Some. }
    rewrite H, list_lookup_fmap, Hi in Hl. simpl in Hl. by injection Hl.
  - intros H. apply list_insert_id. by rewrite list_lookup_fmap, Hi, H.
Qed.

(** X18, the change flag of an address is exact on expiry times.
    [nm_ndisc_complete_and_add_address] returns false exactly when the
    sequence of stored addresses with their two expiry times (timestamp plus
    lifetime, timestamp plus preferred lifetime, as [guint32] sums) is what
    it was (the stored timestamp and lifetimes are not compared one by
    one). *)
Theorem address_change_flag_exact priv new :
  snd (nm_ndisc_complete_and_add_address priv new) = false <->
  addr_expiries <$> get_addresses (fst (fst (nm_ndisc_complete_and_add_address priv new)))
  = addr_expiries <$> get_addresses priv.
Proof.
  unfold nm_ndisc_complete_and_add_address.
  destruct (complete_address priv new) as [ok completed].
  destruct ok; simpl; [|done].
  destruct (list_find _ _) as [[i item]|] eqn:E.
  - apply list_find_Some in E as (Hi & Hsame & _).
    apply IN6_ARE_ADDR_EQUAL_eq in Hsame.
    destruct (addr_lifetime completed =? 0); simpl.
    + split; [done|]. intros H. apply (f_equal length) in H.
      change (get_addresses (set_addresses ?l ?p)) with l in H.
      rewrite !length_fmap, length_delete in H by eauto.
      apply lookup_lt_Some in Hi. lia.
    + change (get_addresses (set_addresses ?l ?p)) with l.
      rewrite (fmap_insert_same_iff addr_expiries _ _ _ _ Hi).
      unfold addr_expiries. rewrite Hsame. split.
      * intros H. apply orb_false_iff in H as [H1 H2].
        apply negb_false_iff, Z.eqb_eq in H1. apply negb_false_iff, Z.eqb_eq in H2.
        by rewrite H1, H2.
      * intros H. injection H as H1 H2. rewrite H1, H2, !Z.eqb_refl. done.
  - destruct (negb (max_addresses priv =? 0) && _); simpl; [done|].
    destruct (addr_lifetime completed =? 0); simpl; [done|].
    split; [done|]. intros H. apply (f_equal length) in H.
    change (get_addresses (set_addresses ?l ?p)) with l in H.
    unfold g_array_insert_val in H.
    rewrite !length_fmap, length_app, length_take in H. simpl in H.
    rewrite length_drop in H. lia.
Qed.

End Engine.

(** * The properties at concrete inputs *)

(** The stand-in derivation of the examples keeps the contract. *)
Lemma sample_stable_privacy_contract : stable_privacy_contract sample_stable_privacy.
Proof.
  intros stable_type_ addr ifname_ network_id_ dad_counter. unfold sample_stable_privacy.
  destruct (dad_counter >=? 3); simpl; repeat split; done.
Qed.

(** C2 as stated fails: with [router_solicitations = 1] and a transport
    that fails twice, [send_rs] is called twice in one burst. *)
Lemma rs_burst_errors_exceed_bound :
  send_rs_id sample_pacer = None /\
  router_solicitations sample_pacer = 1 /\
  burst_sends sample_pacer 0 sample_error_ticks = 2 /\
  ~ burst_sends sample_pacer 0 sample_error_ticks <= router_solicitations sample_pacer.
Proof.
  split; [reflexivity|]. split; [reflexivity|]. split; [reflexivity|].
  vm_compute. intros H. apply H. reflexivity.
Qed.

Lemma rs_burst_successes_bounded_witness :
  send_rs_id sample_engine = None /\
  1 <= router_solicitations sample_engine
    <= G_MAXINT32 /\
  burst_successes sample_engine 0
    sample_mixed_ticks
    <= router_solicitations sample_engine /\
  burst_sends sample_engine 0
    sample_mixed_ticks
    <= router_solicitations sample_engine
       + count_error_ticks sample_mixed_ticks.
Proof.
  assert (H1 : send_rs_id sample_engine = None)
    by reflexivity.
  assert (H2 : 1 <= router_solicitations
                      sample_engine
               <= G_MAXINT32)
    by (vm_compute; split; discriminate).
  split; [exact H1|]. split; [exact H2|].
  exact (rs_burst_successes_bounded
           sample_engine 0
           sample_mixed_ticks H1 H2).
Defined.

(** C3 as stated fails: in stable-privacy mode a completion that fails
    because the DAD counter has run out returns false and leaves the record
    with the counter advanced from 3 to 4. *)
Lemma complete_address_failure_advances_dad_counter :
  complete_address sample_stable_privacy 8
    (sample_ndisc NM_SETTING_IP6_CONFIG_ADDR_GEN_MODE_STABLE_PRIVACY 16)
    (sample_address 3 3600)
    = (false, sample_address 4 3600) /\
  sample_address 4 3600 <> sample_address 3 3600.
Proof. split; [reflexivity | discriminate]. Qed.

Lemma complete_address_frame_witness :
  stable_privacy_contract sample_stable_privacy /\
  complete_address sample_stable_privacy 8
    (sample_ndisc NM_SETTING_IP6_CONFIG_ADDR_GEN_MODE_STABLE_PRIVACY 16)
    (sample_address 3 3600)
    = (false, sample_address 4 3600) /\
  addr_address (sample_address 4 3600) = addr_address (sample_address 3 3600) /\
  sample_address 4 3600
    = set_addr_dad_counter (wrap_unsigned 8 (addr_dad_counter (sample_address 3 3600) + 1))
        (sample_address 3 3600).
Proof.
  assert (H2 : complete_address sample_stable_privacy 8
                 (sample_ndisc NM_SETTING_IP6_CONFIG_ADDR_GEN_MODE_STABLE_PRIVACY 16)
                 (sample_address 3 3600)
               = (false, sample_address 4 3600))
    by reflexivity.
  split; [exact sample_stable_privacy_contract|]. split; [exact H2|].
  exact (proj2 (proj2 (proj2 (proj2 (proj2
           (complete_address_frame sample_stable_privacy 8 _ _ _ _
              sample_stable_privacy_contract H2))))) eq_refl).
Defined.

Lemma nm_ndisc_set_iid_spec_witness :
  iid_id_eqb (iid (set_addresses [sample_address 0 3600] sample_pacer)) sample_iid = false /\
  get_addresses (set_addresses [sample_address 0 3600] sample_pacer) <> [] /\
  snd (nm_ndisc_set_iid (set_addresses [sample_address 0 3600] sample_pacer) sample_iid 7)
    = true /\
  get_addresses
    (fst (nm_ndisc_set_iid (set_addresses [sample_address 0 3600] sample_pacer) sample_iid 7))
    = [] /\
  trace
    (fst (nm_ndisc_set_iid (set_addresses [sample_address 0 3600] sample_pacer) sample_iid 7))
    = [CONFIG_CHANGED (rdata sample_pacer) NM_NDISC_CONFIG_ADDRESSES].
Proof.
  assert (H1 : iid_id_eqb (iid (set_addresses [sample_address 0 3600] sample_pacer))
                 sample_iid = false)
    by reflexivity.
  assert (H2 : get_addresses (set_addresses [sample_address 0 3600] sample_pacer) <> [])
    by discriminate.
  split; [exact H1|]. split; [exact H2|].
  destruct (proj1 (proj1 (nm_ndisc_set_iid_spec
                            (set_addresses [sample_address 0 3600] sample_pacer)
                            sample_iid 7) H1) H2)
    as (Heq & Hempty & _ & Htrace).
  split; [by rewrite Heq|]. split; [exact Hempty | exact Htrace].
Defined.

Lemma zero_lifetime_withdraws_witness :
  gw_lifetime (sample_gateway 1 NM_NDISC_PREFERENCE_MEDIUM 0) = 0 /\
  withdraws
    (fun item => gateway_same_identity item (sample_gateway 1 NM_NDISC_PREFERENCE_MEDIUM 0))
    (get_gateways sample_tracking)
    (get_gateways (fst (nm_ndisc_add_gateway sample_tracking
                          (sample_gateway 1 NM_NDISC_PREFERENCE_MEDIUM 0))))
    (snd (nm_ndisc_add_gateway sample_tracking
            (sample_gateway 1 NM_NDISC_PREFERENCE_MEDIUM 0))) /\
  get_gateways (fst (nm_ndisc_add_gateway sample_tracking
                       (sample_gateway 1 NM_NDISC_PREFERENCE_MEDIUM 0))) = [].
Proof.
  split; [reflexivity|]. split; [|reflexivity].
  exact (proj1 (proj1 (zero_lifetime_withdraws sample_stable_privacy 8) sample_tracking
                  (sample_gateway 1 NM_NDISC_PREFERENCE_MEDIUM 0) eq_refl)).
Defined.

Lemma max_addresses_enforced_witness :
  0 < 1 <= G_MAXINT32 /\
  Z.of_nat (length (get_addresses
    (run sample_stable_privacy 8
       [Call_complete_and_add_address (sample_address 0 3600);
        Call_complete_and_add_address (sample_address 1 3600);
        Call_complete_and_add_address (sample_address 2 3600)]
       (nm_ndisc_new "eth0" "net" NM_SETTING_IP6_CONFIG_ADDR_GEN_MODE_STABLE_PRIVACY
          0 1 3 4)))) <= 1.
Proof.
  assert (H : 0 < 1 <= G_MAXINT32) by (vm_compute; split; [reflexivity | discriminate]).
  split; [exact H|].
  exact (proj1 (max_addresses_enforced sample_stable_privacy 8) _ "eth0" "net"
           NM_SETTING_IP6_CONFIG_ADDR_GEN_MODE_STABLE_PRIVACY 0 1 3 4 H).
Defined.

Lemma add_gateway_refresh_in_place_witness :
  get_gateways sample_tracking
    = [] ++ sample_gateway 1 NM_NDISC_PREFERENCE_MEDIUM 1800 :: [] /\
  nm_ndisc_add_gateway sample_tracking
    {| gw_address := in6 0xfe800000 0 0 1; gw_timestamp := 900;
       gw_lifetime := 600; gw_preference := NM_NDISC_PREFERENCE_MEDIUM |}
    = (set_gateways
         [{| gw_address := in6 0xfe800000 0 0 1; gw_timestamp := 900;
             gw_lifetime := 600; gw_preference := NM_NDISC_PREFERENCE_MEDIUM |}]
         sample_tracking, false).
Proof.
  split; [reflexivity|].
  apply (add_gateway_refresh_in_place sample_tracking _ []
           (sample_gateway 1 NM_NDISC_PREFERENCE_MEDIUM 1800) []).
  - reflexivity.
  - intros x Hx. inversion Hx.
  - reflexivity.
  - reflexivity.
  - discriminate.
Defined.

Lemma nm_ndisc_start_arms_ra_timeout_witness :
  ra_timeout_id sample_engine = None /\
  ra_timeout_id
    (nm_ndisc_start sample_engine true 0)
    = Some 30.
Proof.
  split; [reflexivity|].
  refine (proj1 (nm_ndisc_start_arms_ra_timeout sample_stable_privacy 8
                   sample_engine 0
                   eq_refl _ _));
    vm_compute; split; discriminate.
Defined.

Lemma sweep_deadline_after_now_witness :
  lifetimes_positive (rdata sample_tracking) /\
  clean_all (set_timeout_id None sample_tracking) 1 1 0
    = (set_timeout_id None sample_tracking, 0, 301) /\
  301 > 1 /\
  timeout_id (check_timestamps sample_tracking 1 1 0) = Some (to_guint32 (301 - 1)).
Proof.
  assert (H1 : lifetimes_positive (rdata sample_tracking)).
  { unfold lifetimes_positive. simpl. repeat split; repeat constructor; discriminate. }
  assert (H2 : clean_all (set_timeout_id None sample_tracking) 1 1 0
               = (set_timeout_id None sample_tracking, 0, 301))
    by reflexivity.
  split; [exact H1|]. split; [exact H2|].
  apply (sweep_deadline_after_now sample_tracking 1 1 0 _ _ _ H1 H2). discriminate.
Defined.

(** * The scenarios of the specification *)

(** Scenario 1: one gateway, the prefix completed with the EUI-64
    identifier, one DNS server, the first-RA timeout cancelled, and the next
    sweep armed 300 seconds ahead, at the midpoint of the DNS lifetime. *)
Example scenario1 :
  get_gateways (run sample_stable_privacy 8 scenario1_calls sample_engine)
    = [sample_gateway 1 NM_NDISC_PREFERENCE_MEDIUM 1800] /\
  map addr_address (get_addresses (run sample_stable_privacy 8 scenario1_calls sample_engine))
    = [in6 0x20010db8 0 0x02001122 0x33445566] /\
  get_dns_servers (run sample_stable_privacy 8 scenario1_calls sample_engine)
    = [sample_dns_server 0x53 1 600] /\
  ra_timeout_id (run sample_stable_privacy 8 scenario1_calls sample_engine) = None /\
  timeout_id (run sample_stable_privacy 8 scenario1_calls sample_engine) = Some 300.
Proof. split_ands; vm_compute; reflexivity. Qed.

(** Scenario 2: the gateway is withdrawn. *)
Example scenario2 :
  get_gateways (run sample_stable_privacy 8 scenario2_calls sample_engine) = [] /\
  snd (nm_ndisc_add_gateway (run sample_stable_privacy 8 scenario1_calls sample_engine)
         (sample_gateway 1 NM_NDISC_PREFERENCE_MEDIUM 0)) = true.
Proof. split_ands; vm_compute; reflexivity. Qed.

(** Scenario 3: there is no second EUI-64 candidate; the address is removed
    and the change is announced with the ADDRESSES bit. *)
Example scenario3 :
  get_addresses (run sample_stable_privacy 8 scenario3_calls sample_engine) = [] /\
  last (trace (run sample_stable_privacy 8 scenario3_calls sample_engine))
    = Some (CONFIG_CHANGED
              (rdata (run sample_stable_privacy 8 scenario3_calls sample_engine))
              NM_NDISC_CONFIG_ADDRESSES).
Proof. split_ands; vm_compute; reflexivity. Qed.

(** Scenario 4: in stable-privacy mode the entry is kept, with the address
    derived from the next DAD counter. *)
Example scenario4 :
  map (fun a => (addr_address a, addr_dad_counter a))
    (get_addresses
       (run sample_stable_privacy 8
          [ Call_complete_and_add_address (sample_address 0 3600);
            Call_dad_failed (in6 0x20010db8 0 1000 1) ]
          (sample_ndisc NM_SETTING_IP6_CONFIG_ADDR_GEN_MODE_STABLE_PRIVACY 16)))
    = [(in6 0x20010db8 0 1001 1, 2)].
Proof. vm_compute. reflexivity. Qed.

(** Scenario 6: at 300 the sweep keeps the server and asks for a
    solicitation, which the transport sends; at 601 the server is removed and
    the change is announced with the DNS_SERVERS bit. *)
Example scenario6 :
  get_dns_servers (run sample_stable_privacy 8 (take 3 scenario6_calls) sample_engine)
    = [sample_dns_server 0x53 0 600] /\
  send_rs_id (run sample_stable_privacy 8 (take 3 scenario6_calls) sample_engine) = Some 0 /\
  count_events is_send_rs
    (trace (run sample_stable_privacy 8 (take 4 scenario6_calls) sample_engine)) = 1 /\
  get_dns_servers (run sample_stable_privacy 8 scenario6_calls sample_engine) = [] /\
  last (trace (run sample_stable_privacy 8 scenario6_calls sample_engine))
    = Some (CONFIG_CHANGED
              (rdata (run sample_stable_privacy 8 scenario6_calls sample_engine))
              NM_NDISC_CONFIG_DNS_SERVERS).
Proof. split_ands; vm_compute; reflexivity. Qed.

(** ** The further properties at concrete inputs *)


(** X3 at the tracked engine: at 400 the DNS server is past its midpoint,
    and the sweep leaves a send timer pending. *)
Lemma check_timestamps_solicits_witness :
  dns_refresh_due 400 (rdata sample_tracking) = true /\
  send_rs_id (check_timestamps sample_tracking 400 400 0) <> None.
Proof.
  split; [reflexivity|].
  exact (proj1 (proj2 (check_timestamps_solicits sample_stable_privacy 8
                         sample_tracking 400 400 0)) eq_refl).
Defined.

(** X4 at the tracked engine: an advertisement at 400 starts a burst of
    three solicitations. *)
Lemma nm_ndisc_ra_received_effect_witness :
  dns_refresh_due 400 (rdata sample_tracking) = true /\
  solicitations_left (nm_ndisc_ra_received sample_tracking 400 400 0) = 3.
Proof.
  split; [reflexivity|].
  exact (proj2 (proj2 (proj2 (proj2 (proj2
           (nm_ndisc_ra_received_effect sample_stable_privacy 8
              sample_tracking 400 400 0))))) eq_refl).
Defined.

(** X6 at an engine with one address: a failure of that address is
    announced, and the array has not grown. *)
Lemma nm_ndisc_dad_failed_effect_witness :
  existsb (fun x => IN6_ARE_ADDR_EQUAL (addr_address x) sample_prefix)
    (get_addresses sample_with_address) = true /\
  exists l,
    nm_ndisc_dad_failed sample_stable_privacy 8 sample_with_address sample_prefix
      = _emit_config_change (set_addresses l sample_with_address) NM_NDISC_CONFIG_ADDRESSES /\
    (length l <= length (get_addresses sample_with_address))%nat.
Proof.
  split; [reflexivity|].
  exact (proj2 (nm_ndisc_dad_failed_effect sample_stable_privacy 8
                  sample_with_address sample_prefix) eq_refl).
Defined.

(** X7 at an engine in EUI-64 mode without an interface identifier: the
    failed address is dropped. *)
Lemma nm_ndisc_dad_failed_eui64_witness :
  addr_gen_mode (set_addresses [sample_address 0 3600] sample_engine)
    = NM_SETTING_IP6_CONFIG_ADDR_GEN_MODE_EUI64 /\
  iid_id_is_zero (iid (set_addresses [sample_address 0 3600] sample_engine)) = true /\
  nm_ndisc_dad_failed sample_stable_privacy 8
    (set_addresses [sample_address 0 3600] sample_engine) sample_prefix
  = _emit_config_change (set_addresses [] (set_addresses [sample_address 0 3600] sample_engine))
      NM_NDISC_CONFIG_ADDRESSES.
Proof.
  split; [reflexivity|]. split; [reflexivity|].
  exact (nm_ndisc_dad_failed_eui64 sample_stable_privacy 8
           (set_addresses [sample_address 0 3600] sample_engine) sample_prefix
           eq_refl (or_introl eq_refl)).
Defined.

(** X8 at an engine with an interface identifier: the prefix is completed
    with it, and the completed address is refused. *)
Lemma complete_address_eui64_witness :
  iid_id_is_zero (iid sample_with_address) = false /\
  complete_address sample_stable_privacy 8 sample_with_address (sample_address 0 3600)
    = (true, set_addr_address (in6 0x20010db8 0 0x02001122 0x33445566)
               (sample_address 0 3600)) /\
  fst (complete_address sample_stable_privacy 8 sample_with_address
         (set_addr_address (in6 0x20010db8 0 0x02001122 0x33445566)
            (sample_address 0 3600))) = false.
Proof.
  split; [reflexivity|].
  destruct (complete_address_eui64 sample_stable_privacy 8 sample_with_address
              (sample_address 0 3600) eq_refl eq_refl eq_refl eq_refl) as [H1 H2].
  split; [exact H1|]. rewrite H1 in H2. simpl snd in H2. by rewrite H2.
Defined.

(** X9 at the tracked engine: the gateway fe80::1 comes again with a high
    preference and takes the place of the stored one. *)
Lemma add_with_new_preference_replaces_witness :
  gw_lifetime (sample_gateway 1 NM_NDISC_PREFERENCE_HIGH 1800) <> 0 /\
  nm_ndisc_add_gateway sample_tracking (sample_gateway 1 NM_NDISC_PREFERENCE_HIGH 1800)
    = (set_gateways [sample_gateway 1 NM_NDISC_PREFERENCE_HIGH 1800] sample_tracking, true).
Proof.
  assert (H : gw_lifetime (sample_gateway 1 NM_NDISC_PREFERENCE_HIGH 1800) <> 0)
    by discriminate.
  split; [exact H|].
  apply (proj1 add_with_new_preference_replaces sample_tracking
           (sample_gateway 1 NM_NDISC_PREFERENCE_HIGH 1800) H).
  intros x Hx _. inversion Hx as [|? ? ? Hnil]; [discriminate | inversion Hnil].
Defined.

(** X10 at a new engine: a route that is added is stored. *)
Lemma add_stores_item_witness :
  rt_lifetime (sample_route 1 64 NM_NDISC_PREFERENCE_MEDIUM 1800) <> 0 /\
  sample_route 1 64 NM_NDISC_PREFERENCE_MEDIUM 1800
    ∈ get_routes (fst (nm_ndisc_add_route sample_engine
                         (sample_route 1 64 NM_NDISC_PREFERENCE_MEDIUM 1800))).
Proof.
  assert (H : rt_lifetime (sample_route 1 64 NM_NDISC_PREFERENCE_MEDIUM 1800) <> 0)
    by discriminate.
  split; [exact H|].
  exact (proj1 (proj2 (add_stores_item sample_stable_privacy 8)) sample_engine
           (sample_route 1 64 NM_NDISC_PREFERENCE_MEDIUM 1800) H eq_refl).
Defined.

(** X14 at a new engine: the first solicitation is scheduled at once. *)
Lemma solicit_delay_witness :
  send_rs_id sample_engine = None /\
  send_rs_id (solicit sample_engine 5) = Some 0 /\
  solicitations_left (solicit sample_engine 5) = 3.
Proof.
  split; [reflexivity|].
  assert (H : send_rs_id (solicit sample_engine 5)
                = Some (Z.max 0 (Z.min G_MAXINT32
                                   (last_rs sample_engine
                                    + router_solicitation_interval sample_engine - 5))) /\
              solicitations_left (solicit sample_engine 5)
                = router_solicitations sample_engine /\
              (last_rs sample_engine = G_MININT32 -> 0 <= 5 ->
               send_rs_id (solicit sample_engine 5) = Some 0)).
  { apply (solicit_delay sample_engine 5); [reflexivity | ..];
      vm_compute; split; discriminate. }
  destruct H as (_ & H2 & H3).
  split; [apply H3; [reflexivity | discriminate] | exact H2].
Defined.

(** X15 at a started engine: after [dispose] the three timers fire into
    nothing. *)
Lemma dispose_stops_timers_witness :
  forallb is_timer [Fire_send_rs_timeout true SendRsOk 0; Fire_ra_timeout; Fire_timeout 5]
    = true /\
  run sample_stable_privacy 8
    [Fire_send_rs_timeout true SendRsOk 0; Fire_ra_timeout; Fire_timeout 5]
    (dispose (nm_ndisc_start sample_tracking true 0))
  = dispose (nm_ndisc_start sample_tracking true 0).
Proof.
  split; [reflexivity|].
  exact (proj1 (dispose_stops_timers sample_stable_privacy 8
                  (nm_ndisc_start sample_tracking true 0)
                  [Fire_send_rs_timeout true SendRsOk 0; Fire_ra_timeout; Fire_timeout 5]
                  eq_refl)).
Defined.

(** X16 at a new engine with three solicitations per burst and three good
    ticks: three calls of [send_rs], and the timer stops. *)
Lemma rs_burst_without_failure_witness :
  forallb tick_succeeds sample_ok_ticks = true /\
  burst_sends sample_engine 0 sample_ok_ticks = 3 /\
  send_rs_id (rs_burst sample_ok_ticks (solicit sample_engine 0)) = None.
Proof.
  split; [reflexivity|].
  assert (H : burst_sends sample_engine 0 sample_ok_ticks
                = router_solicitations sample_engine /\
              send_rs_id (rs_burst sample_ok_ticks (solicit sample_engine 0)) = None /\
              solicitations_left (rs_burst sample_ok_ticks (solicit sample_engine 0)) = 0).
  { apply (rs_burst_without_failure sample_engine 0 sample_ok_ticks);
      [reflexivity | vm_compute; split; discriminate | reflexivity | vm_compute; discriminate]. }
  destruct H as (H1 & H2 & _). split; [exact H1 | exact H2].
Defined.

(** X17 at the tracked engine: a second gateway of high preference goes in
    front of the stored one of medium preference, and the order is kept. *)
Lemma add_keeps_order_iff_witness :
  preference_ordered gw_preference (get_gateways sample_tracking) /\
  get_gateways (fst (nm_ndisc_add_gateway sample_tracking
                       (sample_gateway 2 NM_NDISC_PREFERENCE_HIGH 1800)))
    = [sample_gateway 2 NM_NDISC_PREFERENCE_HIGH 1800;
       sample_gateway 1 NM_NDISC_PREFERENCE_MEDIUM 1800] /\
  preference_ordered gw_preference
    (get_gateways (fst (nm_ndisc_add_gateway sample_tracking
                          (sample_gateway 2 NM_NDISC_PREFERENCE_HIGH 1800)))).
Proof.
  assert (H : preference_ordered gw_preference (get_gateways sample_tracking)).
  { intros i j x y Hij Hi Hj. destruct i as [|i], j as [|j]; try lia; discriminate. }
  split; [exact H|]. split; [reflexivity|].
  apply (proj1 add_keeps_order_iff sample_tracking
           (sample_gateway 2 NM_NDISC_PREFERENCE_HIGH 1800)).
  - discriminate.
  - intros x Hx Hsame. inversion Hx as [|? ? ? Hnil]; [|inversion Hnil].
    subst. discriminate.
  - exact H.
  - intros x _ _. exists (sample_gateway 1 NM_NDISC_PREFERENCE_MEDIUM 1800).
    split; [apply (list_elem_of_lookup_2 _ 0%nat); reflexivity | reflexivity].
Defined.
